(** * Inventory ledger and stock-movement engine of [app.py]

    A shallow embedding of the inventory utilities of [src/app.py]
    ([get_or_create_inv], [inventory_in], [inventory_out], [transfer_stock]),
    of the two tables they read and write ([inventory], [stock_movements])
    and of the transaction their callers open around them
    ([with engine.begin() as conn:]); then of the pages that call them or
    feed them (goods receipts, outbound deliveries, purchase orders, the
    three-way match), of the demo account and of the menu and its router.

    Modelling decisions.
    - Quantities.  The source computes on Python floats read from and written
      to [Numeric(14,3)] columns.  Quantities are embedded as exact rationals
      [Q]: arithmetic is exact and the tolerance [1e-6] is the rational
      [1/1000000].  Equality of quantities is [Qeq] ([==]).  Rounding is not
      modelled: where a float computation lands within rounding distance of
      the tolerance, the exact result can fall on the other side of it.
    - Tables.  A table is the list of its rows in insertion order, which is
      the order [.first()] sees when a [select] has no [ORDER BY].  The
      integer primary key of a new row is one more than the largest key in
      the table.  The columns [updated_at] and [created_at] are not kept.
    - Constraints.  [stock_movements.movement_no] is declared [unique=True]:
      an [INSERT] that repeats a movement number raises [IntegrityError].
      Foreign keys are not modelled: warehouse and item ids are taken to
      name existing rows.
    - Clock.  [now_ts_id] formats [datetime.now()] with a resolution of one
      second.  The formatted reading is an argument ([now]) of every
      operation that generates a movement number.
    - Exceptions and transactions.  A statement runs on a connection and
      either returns or raises; in both cases the connection holds the
      writes made so far.  [engine_begin] commits on return and rolls back
      on an exception.
    - Pages.  A button of a page is the transaction it runs, over the
      tables it touches; what the page only displays is left out.  A unit
      price the program computes and writes to a [Numeric(12,2)] column
      goes through a function that stands for the rounding of the column,
      which is the backend's; a value copied from a column to a column of
      the same type is kept as it is.  The comparisons of text the
      database makes ([items.name], [users.email]) depend on the collation
      and are parameters, as are [str.strip] and [sha256]. *)

From Stdlib Require Import ZArith QArith Qabs Qround List String Ascii Bool Lia Lqa
  Permutation.
Import ListNotations.

Local Open Scope Z_scope.
Local Open Scope Q_scope.

(** ** Schema *)

Module Schema.

(** A row of [inventory]. *)
Record inventory_row : Type := mk_inventory_row {
  inv_id : Z;
  inv_warehouse_id : Z;
  inv_item_id : Z;
  inv_bin_id : option Z;
  inv_qty : Q
}.

(** [Enum("IN","OUT","TRANSFER", name="movement_type")]. *)
Inductive movement_type : Type := MT_IN | MT_OUT | MT_TRANSFER.

(** A row of [stock_movements]. *)
Record stock_movement : Type := mk_stock_movement {
  mv_id : Z;
  movement_no : string;
  mv_type : movement_type;
  mv_warehouse_id : Z;
  warehouse_to_id : option Z;
  mv_item_id : Z;
  mv_bin_id : option Z;
  mv_qty : Q;
  reason : string;
  ref_entity : string;
  ref_id : Z
}.

(** The part of the database the inventory utilities touch. *)
Record db : Type := mk_db {
  inventory : list inventory_row;
  stock_movements : list stock_movement
}.

Definition empty_db : db := mk_db [] [].

End Schema.
Export Schema.

(** ** Connections: statements that return or raise *)

Module Conn.

(** The exceptions the utilities can raise.  [InsufficientStock] is the
    [ValueError] of [inventory_out], carrying the four values its message
    interpolates.  [TypeError] is what subscripting [None] would raise. *)
Inductive exn : Type :=
| InsufficientStock (item_id warehouse_id : Z) (has requested : Q)
| IntegrityError
| TypeError.

Inductive result (A : Type) : Type :=
| Ok (a : A) (conn : db)
| Raise (e : exn) (conn : db).
Arguments Ok {A} a conn.
Arguments Raise {A} e conn.

Definition stmt (A : Type) : Type := db -> result A.

Definition ret {A} (a : A) : stmt A := fun conn => Ok a conn.

Definition raise {A} (e : exn) : stmt A := fun conn => Raise e conn.

Definition bind {A B} (m : stmt A) (k : A -> stmt B) : stmt B :=
  fun conn =>
    match m conn with
    | Ok a conn' => k a conn'
    | Raise e conn' => Raise e conn'
    end.

(** The connection a statement leaves behind, whether it returned or raised. *)
Definition conn_of {A} (r : result A) : db :=
  match r with
  | Ok _ conn => conn
  | Raise _ conn => conn
  end.

End Conn.
Export Conn.

Declare Scope stmt_scope.
Delimit Scope stmt_scope with stmt.
Notation "x <- m ;; k" := (bind m (fun x => k))
  (at level 100, m at next level, right associativity) : stmt_scope.
Notation "m ;;; k" := (bind m (fun _ => k))
  (at level 100, right associativity) : stmt_scope.

(** ** Numbers *)

(** The tolerance [1e-6]. *)
Definition epsilon : Q := 0.000001.

(** Python's [x < y] on quantities. *)
Definition Qltb (x y : Q) : bool := negb (Qle_bool y x).

(** ** SQL statements on the two tables *)

Definition option_Z_eqb (a b : option Z) : bool :=
  match a, b with
  | Some x, Some y => (x =? y)%Z
  | None, None => true
  | _, _ => false
  end.

(** The [where] clause of [get_or_create_inv]:
    [warehouse_id == w AND item_id == i AND bin_id IS b]. *)
Definition same_key (warehouse_id item_id : Z) (bin_id : option Z)
    (r : inventory_row) : bool :=
  (inv_warehouse_id r =? warehouse_id)%Z
  && (inv_item_id r =? item_id)%Z
  && option_Z_eqb (inv_bin_id r) bin_id.

(** The key a fresh integer primary key column hands out. *)
Definition next_id (ids : list Z) : Z := (1 + fold_right Z.max 0 ids)%Z.

(** [conn.execute(select(inventory).where(...)).mappings().first()]. *)
Definition select_inventory_first (warehouse_id item_id : Z)
    (bin_id : option Z) : stmt (option inventory_row) :=
  fun conn => Ok (find (same_key warehouse_id item_id bin_id) (inventory conn)) conn.

(** [conn.execute(inventory.insert().values(warehouse_id=..., item_id=...,
    bin_id=..., qty=...))]. *)
Definition insert_inventory (warehouse_id item_id : Z) (bin_id : option Z)
    (qty : Q) : stmt unit :=
  fun conn =>
    Ok tt (mk_db
             (inventory conn
                ++ [mk_inventory_row (next_id (map inv_id (inventory conn)))
                      warehouse_id item_id bin_id qty])
             (stock_movements conn)).

Definition set_qty (new_qty : Q) (r : inventory_row) : inventory_row :=
  mk_inventory_row (inv_id r) (inv_warehouse_id r) (inv_item_id r)
    (inv_bin_id r) new_qty.

Definition update_row (id : Z) (new_qty : Q) (r : inventory_row) : inventory_row :=
  if (inv_id r =? id)%Z then set_qty new_qty r else r.

(** [conn.execute(inventory.update().where(inventory.c.id == id)
    .values(qty=new_qty))]. *)
Definition update_inventory_qty (id : Z) (new_qty : Q) : stmt unit :=
  fun conn =>
    Ok tt (mk_db (map (update_row id new_qty) (inventory conn))
                 (stock_movements conn)).

Definition movement_no_taken (no : string) (log : list stock_movement) : bool :=
  existsb (fun m => String.eqb (movement_no m) no) log.

(** [conn.execute(stock_movements.insert().values(...))]: the row is
    appended under a fresh primary key, unless its movement number is
    already in the table ([unique=True]). *)
Definition insert_stock_movement (movement_no : string)
    (movement_type : movement_type) (warehouse_id : Z)
    (warehouse_to_id : option Z) (item_id : Z) (bin_id : option Z) (qty : Q)
    (reason ref_entity : string) (ref_id : Z) : stmt unit :=
  fun conn =>
    if movement_no_taken movement_no (stock_movements conn)
    then Raise IntegrityError conn
    else
      Ok tt (mk_db
               (inventory conn)
               (stock_movements conn
                  ++ [mk_stock_movement
                        (next_id (map mv_id (stock_movements conn)))
                        movement_no movement_type warehouse_id warehouse_to_id
                        item_id bin_id qty reason ref_entity ref_id])).

(** ** The inventory utilities *)

Local Open Scope stmt_scope.

(** [now_ts_id(prefix)], given the clock reading formatted by
    [%Y%m%d%H%M%S]. *)
Definition now_ts_id (prefix now : string) : string := (prefix ++ now)%string.

Definition get_or_create_inv (warehouse_id item_id : Z) (bin_id : option Z)
    : stmt (option inventory_row) :=
  row <- select_inventory_first warehouse_id item_id bin_id ;;
  match row with
  | Some _ => ret row
  | None =>
      insert_inventory warehouse_id item_id bin_id 0 ;;;
      select_inventory_first warehouse_id item_id bin_id
  end.

Definition inventory_in (warehouse_id item_id : Z) (qty : Q)
    (ref_entity : string) (ref_id : Z) (bin_id : option Z) (now : string)
    : stmt unit :=
  row <- get_or_create_inv warehouse_id item_id bin_id ;;
  match row with
  | None => raise TypeError
  | Some row =>
      let new_qty := inv_qty row + qty in
      update_inventory_qty (inv_id row) new_qty ;;;
      insert_stock_movement (now_ts_id "MIN" now) MT_IN warehouse_id None
        item_id bin_id qty "GRN" ref_entity ref_id
  end.

Definition inventory_out (warehouse_id item_id : Z) (qty : Q)
    (ref_entity : string) (ref_id : Z) (bin_id : option Z) (now : string)
    : stmt unit :=
  row <- get_or_create_inv warehouse_id item_id bin_id ;;
  match row with
  | None => raise TypeError
  | Some row =>
      let new_qty := inv_qty row - qty in
      if Qltb new_qty (- epsilon)
      then raise (InsufficientStock item_id warehouse_id (inv_qty row) qty)
      else
        update_inventory_qty (inv_id row) new_qty ;;;
        insert_stock_movement (now_ts_id "MOUT" now) MT_OUT warehouse_id None
          item_id bin_id qty "DELIVERY" ref_entity ref_id
  end.

(** [transfer_stock] reads the clock three times, once in each leg and once
    for its own record. *)
Definition transfer_stock (wh_from wh_to item_id : Z) (qty : Q)
    (reason : string) (now_out now_in now_tr : string) : stmt unit :=
  inventory_out wh_from item_id qty "TRANSFER" 0%Z None now_out ;;;
  inventory_in wh_to item_id qty "TRANSFER" 0%Z None now_in ;;;
  insert_stock_movement (now_ts_id "MTR" now_tr) MT_TRANSFER wh_from
    (Some wh_to) item_id None qty reason "TRANSFER" 0%Z.

(** ** Transactions *)

(** [with engine.begin() as conn: body(conn)]: the writes of [body] are
    committed when it returns and rolled back when it raises. *)
Definition engine_begin {A} (body : stmt A) (d : db) : (exn + A) * db :=
  match body d with
  | Ok a d' => (inr a, d')
  | Raise e _ => (inl e, d)
  end.

(** One call of the engine, with the clock readings taken during it. *)
Inductive call : Type :=
| IN (warehouse_id item_id : Z) (qty : Q) (ref_entity : string) (ref_id : Z)
     (bin_id : option Z) (now : string)
| OUT (warehouse_id item_id : Z) (qty : Q) (ref_entity : string) (ref_id : Z)
      (bin_id : option Z) (now : string)
| TRANSFER (wh_from wh_to item_id : Z) (qty : Q) (reason : string)
           (now_out now_in now_tr : string).

Definition exec (c : call) : stmt unit :=
  match c with
  | IN w i q e r b now => inventory_in w i q e r b now
  | OUT w i q e r b now => inventory_out w i q e r b now
  | TRANSFER f t i q rsn n1 n2 n3 => transfer_stock f t i q rsn n1 n2 n3
  end.

(** The body of a caller's transaction: the calls of one workflow event, in
    order (one per received or shipped line, or one transfer). *)
Fixpoint exec_all (cs : list call) : stmt unit :=
  match cs with
  | [] => ret tt
  | c :: cs' => exec c ;;; exec_all cs'
  end.

Definition transaction (cs : list call) (d : db) : (exn + unit) * db :=
  engine_begin (exec_all cs) d.

(** The database after a sequence of transactions. *)
Definition run (txs : list (list call)) (d : db) : db :=
  fold_left (fun d tx => snd (transaction tx d)) txs d.

Definition call_qty (c : call) : Q :=
  match c with
  | IN _ _ q _ _ _ _ => q
  | OUT _ _ q _ _ _ _ => q
  | TRANSFER _ _ _ q _ _ _ _ => q
  end.

(** ** Observations *)

(** The quantity on hand under a key: that of the row the lookup returns,
    zero when the key has no row. *)
Definition on_hand (d : db) (warehouse_id item_id : Z) (bin_id : option Z) : Q :=
  match find (same_key warehouse_id item_id bin_id) (inventory d) with
  | Some r => inv_qty r
  | None => 0
  end.

(** What one movement record adds to the quantity under a key: an IN record
    of that key adds its quantity, an OUT record subtracts it, a TRANSFER
    record stands for its two legs and adds nothing by itself. *)
Definition signed_qty (warehouse_id item_id : Z) (bin_id : option Z)
    (m : stock_movement) : Q :=
  if (mv_warehouse_id m =? warehouse_id)%Z
     && (mv_item_id m =? item_id)%Z
     && option_Z_eqb (mv_bin_id m) bin_id
  then match mv_type m with
       | MT_IN => mv_qty m
       | MT_OUT => - mv_qty m
       | MT_TRANSFER => 0
       end
  else 0.

(** Replaying the log from empty. *)
Definition replay (warehouse_id item_id : Z) (bin_id : option Z)
    (log : list stock_movement) : Q :=
  fold_left (fun acc m => acc + signed_qty warehouse_id item_id bin_id m) log 0.

(** Primary key of [inventory]: no two rows share an id. *)
Definition primary_key (d : db) : Prop := NoDup (map inv_id (inventory d)).

Definition key_of (r : inventory_row) : Z * Z * option Z :=
  (inv_warehouse_id r, inv_item_id r, inv_bin_id r).

Definition rows_with_key (warehouse_id item_id : Z) (bin_id : option Z)
    (d : db) : nat :=
  List.length (filter (same_key warehouse_id item_id bin_id) (inventory d)).

(** The row [get_or_create_inv] inserts when the key has none. *)
Definition fresh_row (warehouse_id item_id : Z) (bin_id : option Z) (d : db)
    : inventory_row :=
  mk_inventory_row (next_id (map inv_id (inventory d)))
    warehouse_id item_id bin_id 0.

(** The connection after the lookup of [get_or_create_inv]: the database
    itself when the key has a row, the database with the fresh row when it
    has none. *)
Definition touched (warehouse_id item_id : Z) (bin_id : option Z) (d : db) : db :=
  match find (same_key warehouse_id item_id bin_id) (inventory d) with
  | Some _ => d
  | None =>
      mk_db (inventory d ++ [fresh_row warehouse_id item_id bin_id d])
            (stock_movements d)
  end.

(** The row the lookup of [get_or_create_inv] returns. *)
Definition looked_up (warehouse_id item_id : Z) (bin_id : option Z) (d : db)
    : inventory_row :=
  match find (same_key warehouse_id item_id bin_id) (inventory d) with
  | Some r => r
  | None => fresh_row warehouse_id item_id bin_id d
  end.

(** Every quantity on hand stayed the same, key by key. *)
Definition same_on_hand (d d' : db) : Prop :=
  forall w i b, on_hand d' w i b = on_hand d w i b.

(** No two rows of [inventory] share a (warehouse, item, bin) key. *)
Definition keys_unique (d : db) : Prop := NoDup (map key_of (inventory d)).

(** The connection after [update_inventory_qty]. *)
Definition updated (id : Z) (new_qty : Q) (d : db) : db :=
  mk_db (map (update_row id new_qty) (inventory d)) (stock_movements d).

(** The connection after the lookup and the [UPDATE] of a leg. *)
Definition adjusted (warehouse_id item_id : Z) (bin_id : option Z)
    (new_qty : Q) (d : db) : db :=
  updated (inv_id (looked_up warehouse_id item_id bin_id d)) new_qty
    (touched warehouse_id item_id bin_id d).

(** The database with one more movement record. *)
Definition logged (m : stock_movement) (d : db) : db :=
  mk_db (inventory d) (stock_movements d ++ [m]).

(** The records the three utilities write. *)
Definition in_record (d : db) (warehouse_id item_id : Z) (qty : Q)
    (ref_ent : string) (rid : Z) (bin_id : option Z) (now : string)
    : stock_movement :=
  mk_stock_movement (next_id (map mv_id (stock_movements d)))
    (now_ts_id "MIN" now) MT_IN warehouse_id None item_id bin_id qty
    "GRN" ref_ent rid.

Definition out_record (d : db) (warehouse_id item_id : Z) (qty : Q)
    (ref_ent : string) (rid : Z) (bin_id : option Z) (now : string)
    : stock_movement :=
  mk_stock_movement (next_id (map mv_id (stock_movements d)))
    (now_ts_id "MOUT" now) MT_OUT warehouse_id None item_id bin_id qty
    "DELIVERY" ref_ent rid.

Definition transfer_record (d : db) (wh_from wh_to item_id : Z) (qty : Q)
    (rsn : string) (now : string) : stock_movement :=
  mk_stock_movement (next_id (map mv_id (stock_movements d)))
    (now_ts_id "MTR" now) MT_TRANSFER wh_from (Some wh_to) item_id None qty
    rsn "TRANSFER" 0%Z.

(** The ledger is consistent with its log: ids and keys identify rows, and
    the quantity on hand under every key is what replaying the log gives. *)
Record ledger_inv (d : db) : Prop := mk_ledger_inv {
  li_primary_key : primary_key d;
  li_keys_unique : keys_unique d;
  li_replay : forall w i b, on_hand d w i b == replay w i b (stock_movements d)
}.

(** No row is below the tolerance. *)
Definition within_tolerance (d : db) : Prop :=
  Forall (fun r => - epsilon <= inv_qty r) (inventory d).

(** Every call of every transaction moves a non-negative quantity. *)
Definition nonneg_quantities (txs : list (list call)) : Prop :=
  Forall (Forall (fun c => 0 <= call_qty c)) txs.

Definition key_eq_dec (k k' : Z * Z * option Z) : {k = k'} + {k <> k'}.
Proof. repeat decide equality; apply Z.eq_dec. Defined.

(** What a leg that returns does to the database: the key it moves holds
    the new quantity, every other key and every row of another key is as
    before, and one record is appended to the log. *)
Record leg_effect (d d' : db) (w i : Z) (b : option Z) (new_qty : Q)
    (m : stock_movement) : Prop := mk_leg_effect {
  le_key : on_hand d' w i b = new_qty;
  le_other : forall w' i' b',
      (w', i', b') <> (w, i, b) -> on_hand d' w' i' b' = on_hand d w' i' b';
  le_rows : forall r,
      key_of r <> (w, i, b) -> (In r (inventory d') <-> In r (inventory d));
  le_log : stock_movements d' = stock_movements d ++ [m];
  le_primary_key : primary_key d'
}.

(** A database with stock, for the examples: fifty of item 1 in warehouse 1,
    received by one goods receipt. *)
Definition stocked_db : db :=
  mk_db [mk_inventory_row 1 1 1 None 50]
        [mk_stock_movement 1 "MIN20260101000000" MT_IN 1 None 1 None 50
           "GRN" "GRN" 1].

(** The first two steps of the scenario of the specification, from the
    empty ledger: fifty of item 1 received into warehouse 1 against goods
    receipt 1, then twenty issued against delivery 1. *)
Definition after_receipt (t1 : string) : db :=
  snd (transaction [IN 1 1 50 "GRN" 1 None t1] empty_db).


(** ** Whole transactions *)

(** A call touches the key [(w, i, b)] with its own warehouse, item and
    bin. *)
Definition at_key (w0 i0 : Z) (b0 : option Z) (w i : Z) (b : option Z) : bool :=
  (w0 =? w)%Z && (i0 =? i)%Z && option_Z_eqb b0 b.

(** What a call that returns adds to the quantity under a key: a receipt
    adds its quantity under its key, an issue subtracts it, a transfer
    subtracts it at the source and adds it at the destination, both without
    bin. *)
Definition call_delta (c : call) (w i : Z) (b : option Z) : Q :=
  match c with
  | IN w0 i0 q _ _ b0 _ => if at_key w0 i0 b0 w i b then q else 0
  | OUT w0 i0 q _ _ b0 _ => if at_key w0 i0 b0 w i b then - q else 0
  | TRANSFER f t i0 q _ _ _ _ =>
      (if at_key f i0 None w i b then - q else 0)
      + (if at_key t i0 None w i b then q else 0)
  end.

Definition net_delta (cs : list call) (w i : Z) (b : option Z) : Q :=
  fold_right (fun c acc => call_delta c w i b + acc) 0 cs.



(** The quantity in stock, all rows together. *)
Definition total_stock (d : db) : Q :=
  fold_right (fun r acc => inv_qty r + acc) 0 (inventory d).

(** The movement numbers a call generates, in the order of its inserts. *)
Definition call_numbers (c : call) : list string :=
  match c with
  | IN _ _ _ _ _ _ now => [now_ts_id "MIN" now]
  | OUT _ _ _ _ _ _ now => [now_ts_id "MOUT" now]
  | TRANSFER _ _ _ _ _ n1 n2 n3 =>
      [now_ts_id "MOUT" n1; now_ts_id "MIN" n2; now_ts_id "MTR" n3]
  end.

(** What identifies a row of [inventory] for good: its id and its key. *)
Definition row_identity (r : inventory_row) : Z * (Z * Z * option Z) :=
  (inv_id r, key_of r).

(** The unique constraints of the two tables: the primary keys and the
    movement numbers. *)
Record constraints (d : db) : Prop := mk_constraints {
  cs_inventory_ids : NoDup (map inv_id (inventory d));
  cs_movement_ids : NoDup (map mv_id (stock_movements d));
  cs_movement_nos : NoDup (map movement_no (stock_movements d))
}.

(** [d'] keeps what [d] had: the log of [d] is the beginning of the log of
    [d'], and the rows of [d], with their ids and keys, are the first rows
    of [d']. *)
Definition extends (d d' : db) : Prop :=
  (exists l, stock_movements d' = stock_movements d ++ l)
  /\ (exists l, map row_identity (inventory d')
                = map row_identity (inventory d) ++ l).


(** ** The utilities on binary floating point *)

(** The numbers of Python's [float], as the rationals they are: IEEE 754
    binary64, rounded to nearest, ties to even. *)
Module Binary64.

(** The nearest integer, the even one of two that are equally near. *)
Definition round_half_even (x : Q) : Z :=
  let f := Qfloor x in
  match Qcompare (x - inject_Z f) (1 # 2) with
  | Lt => f
  | Gt => (f + 1)%Z
  | Eq => if Z.even f then f else (f + 1)%Z
  end.

Definition pow2 (e : Z) : Q :=
  if (0 <=? e)%Z then inject_Z (2 ^ e) else / inject_Z (2 ^ (- e)).

(** The [e] with [2 ^ e <= x < 2 ^ (e + 1)], for a positive [x]. *)
Definition floor_log2 (x : Q) : Z :=
  let e := (Z.log2 (Qnum x) - Z.log2 (Zpos (Qden x)))%Z in
  if Qle_bool (pow2 e) x then e else (e - 1)%Z.

(** The exponent of the last place of the binary64 numbers around [x]: 53
    significant bits, and no exponent below that of the subnormal numbers. *)
Definition exponent (x : Q) : Z :=
  Z.max (floor_log2 (Qabs x) - 52) (-1074).

(** The binary64 number nearest to [x]. *)
Definition nearest (x : Q) : Q :=
  let x := Qred x in
  if Qeq_bool x 0 then 0
  else Qred (inject_Z (round_half_even (x / pow2 (exponent x)))
             * pow2 (exponent x)).

(** [x + y], [x - y] and [x * y] on floats. *)
Definition add (x y : Q) : Q := nearest (x + y).
Definition sub (x y : Q) : Q := nearest (x - y).
Definition mul (x y : Q) : Q := nearest (x * y).

End Binary64.

(** What SQLAlchemy hands out for a [Numeric] column of SQLite, which
    stores the float it was given: [Decimal("%.3f" % x)] for three
    decimals, that is [x] rounded to the nearest multiple of [1 / unit],
    ties to even. *)
Definition read_numeric (unit : Z) (x : Q) : Q :=
  Qred (inject_Z (Binary64.round_half_even (x * inject_Z unit)) / inject_Z unit).

(** A [Numeric(14,3)] column as read. *)
Definition read_14_3 : Q -> Q := read_numeric 1000.

(** The numbers of three decimals, and the largest a [Numeric(14,3)] column
    is declared for. *)
Definition three_decimals (x : Q) : bool :=
  Qeq_bool (inject_Z (Qfloor (x * 1000))) (x * 1000).

Definition limit_14_3 : Q := 99999999999.999.

(** [x] is a whole number of thousandths. *)
Definition decimal (x : Q) : Prop := exists k : Z, x == inject_Z k * (1 # 1000).

Module Binary.

(** [float(x)], of a float, an integer or a [Decimal]; it is also what the
    column stores of a value bound to it. *)
Definition float (x : Q) : Q := Binary64.nearest x.

(** [row["qty"]]. *)
Definition row_qty (row : inventory_row) : Q := read_14_3 (inv_qty row).

Definition inventory_in (warehouse_id item_id : Z) (qty : Q)
    (ref_entity : string) (ref_id : Z) (bin_id : option Z) (now : string)
    : stmt unit :=
  row <- get_or_create_inv warehouse_id item_id bin_id ;;
  match row with
  | None => raise TypeError
  | Some row =>
      let new_qty := Binary64.add (float (row_qty row)) (float qty) in
      update_inventory_qty (inv_id row) new_qty ;;;
      insert_stock_movement (now_ts_id "MIN" now) MT_IN warehouse_id None
        item_id bin_id (float qty) "GRN" ref_entity ref_id
  end.

Definition inventory_out (warehouse_id item_id : Z) (qty : Q)
    (ref_entity : string) (ref_id : Z) (bin_id : option Z) (now : string)
    : stmt unit :=
  row <- get_or_create_inv warehouse_id item_id bin_id ;;
  match row with
  | None => raise TypeError
  | Some row =>
      let new_qty := Binary64.sub (float (row_qty row)) (float qty) in
      if Qltb new_qty (- float 0.000001)
      then raise (InsufficientStock item_id warehouse_id (row_qty row) qty)
      else
        update_inventory_qty (inv_id row) new_qty ;;;
        insert_stock_movement (now_ts_id "MOUT" now) MT_OUT warehouse_id None
          item_id bin_id (float qty) "DELIVERY" ref_entity ref_id
  end.

Definition transfer_stock (wh_from wh_to item_id : Z) (qty : Q)
    (reason : string) (now_out now_in now_tr : string) : stmt unit :=
  inventory_out wh_from item_id qty "TRANSFER" 0%Z None now_out ;;;
  inventory_in wh_to item_id qty "TRANSFER" 0%Z None now_in ;;;
  insert_stock_movement (now_ts_id "MTR" now_tr) MT_TRANSFER wh_from
    (Some wh_to) item_id None (float qty) reason "TRANSFER" 0%Z.

Definition exec (c : call) : stmt unit :=
  match c with
  | IN w i q e r b now => inventory_in w i q e r b now
  | OUT w i q e r b now => inventory_out w i q e r b now
  | TRANSFER f t i q rsn n1 n2 n3 => transfer_stock f t i q rsn n1 n2 n3
  end.

Fixpoint exec_all (cs : list call) : stmt unit :=
  match cs with
  | [] => ret tt
  | c :: cs' => exec c ;;; exec_all cs'
  end.

Definition transaction (cs : list call) (d : db) : (exn + unit) * db :=
  engine_begin (exec_all cs) d.

Definition run (txs : list (list call)) (d : db) : db :=
  fold_left (fun d tx => snd (transaction tx d)) txs d.

(** The quantity a leg stores: the reading of the row, as a float, plus or
    minus the quantity, as a float. *)
Definition in_qty (d : db) (w i : Z) (b : option Z) (q : Q) : Q :=
  Binary64.add (float (read_14_3 (on_hand d w i b))) (float q).

Definition out_qty (d : db) (w i : Z) (b : option Z) (q : Q) : Q :=
  Binary64.sub (float (read_14_3 (on_hand d w i b))) (float q).

End Binary.

(** The database as SQLAlchemy reads it: every quantity at three
    decimals. *)
Definition read_row (r : inventory_row) : inventory_row :=
  set_qty (read_14_3 (inv_qty r)) r.

Definition read_movement (m : stock_movement) : stock_movement :=
  mk_stock_movement (mv_id m) (movement_no m) (mv_type m) (mv_warehouse_id m)
    (warehouse_to_id m) (mv_item_id m) (mv_bin_id m) (read_14_3 (mv_qty m))
    (reason m) (ref_entity m) (ref_id m).

Definition as_read (d : db) : db :=
  mk_db (map read_row (inventory d)) (map read_movement (stock_movements d)).

(** The quantities of the calls are of three decimals. *)
Definition decimal_call (c : call) : Prop := three_decimals (call_qty c) = true.

(** What the calls move in all, without sign; a transfer moves its
    quantity twice, out and in. *)
Definition call_moves (c : call) : Q :=
  match c with
  | IN _ _ q _ _ _ _ => Qabs q
  | OUT _ _ q _ _ _ _ => Qabs q
  | TRANSFER _ _ _ q _ _ _ _ => Qabs q + Qabs q
  end.

Definition moved (cs : list call) : Q :=
  fold_right (fun c acc => call_moves c + acc) 0 cs.

Definition moved_all (txs : list (list call)) : Q :=
  fold_right (fun tx acc => moved tx + acc) 0 txs.

(** No quantity on hand, as read, is beyond [m]. *)
Definition readings_within (m : Q) (d : db) : Prop :=
  forall w i b, Qabs (on_hand (as_read d) w i b) <= m.

(** ** Callers: transactions over more tables *)

(** The callers of the utilities run them in transactions that also read
    and write tables of their own.  A script is a statement over a wider
    state [S], of which the ledger is one part. *)
Module Wide.
Section State.

Variable S : Type.

Inductive outcome (A : Type) : Type :=
| Done (a : A) (s : S)
| Failed (e : exn) (s : S).
Arguments Done {A} a s.
Arguments Failed {A} e s.

Definition script (A : Type) : Type := S -> outcome A.

Definition sret {A} (a : A) : script A := fun s => Done a s.

Definition sbind {A B} (m : script A) (k : A -> script B) : script B :=
  fun s =>
    match m s with
    | Done a s' => k a s'
    | Failed e s' => Failed e s'
    end.

(** [for x in xs: body(x)]. *)
Fixpoint for_each {X} (xs : list X) (body : X -> script unit) : script unit :=
  match xs with
  | [] => sret tt
  | x :: xs' => sbind (body x) (fun _ => for_each xs' body)
  end.

(** [with engine.begin() as conn: body(conn)] over the wider state. *)
Definition begin {A} (body : script A) (s : S) : (exn + A) * S :=
  match body s with
  | Done a s' => (inr a, s')
  | Failed e _ => (inl e, s)
  end.

(** A statement of the ledger, run on the ledger part of the state. *)
Definition on_ledger (get : S -> db) (put : db -> S -> S) {A} (m : stmt A)
    : script A :=
  fun s =>
    match m (get s) with
    | Ok a d => Done a (put d s)
    | Raise e d => Failed e (put d s)
    end.

End State.

Arguments Done {S A} a s.
Arguments Failed {S A} e s.
Arguments sret {S A} a _.
Arguments sbind {S A B} m k _.
Arguments for_each {S X} xs body _.
Arguments begin {S A} body s.
Arguments on_ledger {S} get put {A} m _.

End Wide.
Export Wide.

Declare Scope script_scope.
Delimit Scope script_scope with script.
Notation "x <~ m ;; k" := (sbind m (fun x => k))
  (at level 100, m at next level, right associativity) : script_scope.
Notation "m ;;~ k" := (sbind m (fun _ => k))
  (at level 100, right associativity) : script_scope.

(** The elements of a list with their positions, counted from [k]. *)
Fixpoint indexed_from {X} (k : nat) (xs : list X) : list (nat * X) :=
  match xs with
  | [] => []
  | x :: xs' => (k, x) :: indexed_from (S k) xs'
  end.

(** *** Outbound deliveries ([page_deliveries]) *)

Module Deliveries.

(** [Enum("created","picked","shipped","delivered")]. *)
Inductive delivery_status : Type :=
  DS_created | DS_picked | DS_shipped | DS_delivered.

(** A row of [deliveries] ([created_at] is not kept). *)
Record delivery_row : Type := mk_delivery_row {
  del_id : Z;
  do_no : string;
  del_warehouse_id : Z;
  customer_name : string;
  del_status : delivery_status;
  scheduled_date : string
}.

(** A row of [delivery_items]. *)
Record delivery_item_row : Type := mk_delivery_item_row {
  di_id : Z;
  di_delivery_id : Z;
  di_item_id : Z;
  di_bin_id : option Z;
  di_qty : Q
}.

(** The tables the Ship button touches. *)
Record delivery_db : Type := mk_delivery_db {
  ledger : db;
  deliveries : list delivery_row;
  delivery_items : list delivery_item_row
}.

Definition put_ledger (d : db) (s : delivery_db) : delivery_db :=
  mk_delivery_db d (deliveries s) (delivery_items s).

(** [conn.execute(select(delivery_items).where(delivery_items.c.delivery_id
    == delivery_id)).mappings().all()]. *)
Definition select_delivery_items (delivery_id : Z)
    : script delivery_db (list delivery_item_row) :=
  fun s =>
    Done (filter (fun ln => (di_delivery_id ln =? delivery_id)%Z)
            (delivery_items s)) s.

Definition set_status (st : delivery_status) (r : delivery_row) : delivery_row :=
  mk_delivery_row (del_id r) (do_no r) (del_warehouse_id r) (customer_name r)
    st (scheduled_date r).

(** [conn.execute(deliveries.update().where(deliveries.c.id == id)
    .values(status=st))]. *)
Definition update_delivery_status (id : Z) (st : delivery_status)
    : script delivery_db unit :=
  fun s =>
    Done tt (mk_delivery_db (ledger s)
               (map (fun r => if (del_id r =? id)%Z then set_status st r else r)
                  (deliveries s))
               (delivery_items s)).

Local Open Scope script_scope.

(** The transaction of the button "Ship (auto deduct inventory)": one
    [inventory_out] per line of the delivery, from the warehouse selected on
    the page and without bin, then the status.  [clock k] is the clock
    reading during the line at position [k]. *)
Definition ship (wh_id do_cur : Z) (clock : nat -> string)
    : script delivery_db unit :=
  lines <~ select_delivery_items do_cur ;;
  for_each (indexed_from 0 lines)
    (fun kl =>
       on_ledger ledger put_ledger
         (inventory_out wh_id (di_item_id (snd kl)) (di_qty (snd kl))
            "DO" do_cur None (clock (fst kl)))) ;;~
  update_delivery_status do_cur DS_shipped.

(** The button: the transaction, inside [try: ... except Exception]. *)
Definition ship_button (wh_id do_cur : Z) (clock : nat -> string)
    (s : delivery_db) : (exn + unit) * delivery_db :=
  begin (ship wh_id do_cur clock) s.

(** The lines of a delivery, and what they ask of an item in total. *)
Definition lines_of (do_cur : Z) (s : delivery_db) : list delivery_item_row :=
  filter (fun ln => (di_delivery_id ln =? do_cur)%Z) (delivery_items s).


(** The calls of the engine the loop of [ship] makes. *)
Definition ship_calls (wh_id do_cur : Z) (clock : nat -> string)
    (kls : list (nat * delivery_item_row)) : list call :=
  map (fun kl => OUT wh_id (di_item_id (snd kl)) (di_qty (snd kl)) "DO" do_cur
                   None (clock (fst kl))) kls.

(** Examples: a delivery of two lines of item 1 from the stock of
    [stocked_db], one that asks for more than the stock, one without lines;
    a clock that advances by a second per line, and one that stands
    still. *)
Definition two_line_delivery : delivery_db :=
  mk_delivery_db stocked_db
    [mk_delivery_row 1 "DO20260101000000" 1 "ACME" DS_created "2026-01-02"]
    [mk_delivery_item_row 1 1 1 None 20; mk_delivery_item_row 2 1 1 None 5].


Definition empty_delivery : delivery_db :=
  mk_delivery_db stocked_db
    [mk_delivery_row 1 "DO20260101000000" 1 "ACME" DS_created "2026-01-02"]
    [].

Definition ticking (k : nat) : string :=
  match k with
  | O => "20260101000010"
  | _ => "20260101000011"
  end.


End Deliveries.

(** *** Invoices and the three-way match ([page_invoices]) *)

Module Invoices.

(** [Enum("received","matched","paid","rejected")]. *)
Inductive invoice_status : Type :=
  IS_received | IS_matched | IS_paid | IS_rejected.

(** A row of [invoices]. *)
Record invoice_row : Type := mk_invoice_row {
  inv_row_id : Z;
  inv_supplier_id : Z;
  inv_po_id : Z;
  invoice_no : string;
  inv_amount : Q;
  inv_status : invoice_status;
  inv_received_at : string
}.

(** A line: a row of [po_items] or of [invoice_items], whose document is a
    purchase order or an invoice. *)
Record line_row : Type := mk_line_row {
  ln_id : Z;
  ln_doc_id : Z;
  ln_item_desc : string;
  ln_qty : Q;
  ln_unit_price : Q
}.

(** A row of [goods_receipts]. *)
Record goods_receipt_row : Type := mk_goods_receipt_row {
  gr_id : Z;
  gr_po_id : Z;
  grn_no : string;
  gr_received_at : string;
  gr_received_by : Z
}.

(** A row of [payments]. *)
Record payment_row : Type := mk_payment_row {
  pay_id : Z;
  pay_invoice_id : Z;
  paid_at : string;
  pay_method : string;
  pay_reference : string
}.

(** The tables the page touches. *)
Record invoice_db : Type := mk_invoice_db {
  invoices : list invoice_row;
  po_items : list line_row;
  invoice_items : list line_row;
  goods_receipts : list goods_receipt_row;
  payments : list payment_row
}.

(** [sum([float(r["qty"]) for r in lines])]. *)
Definition sum_qty (lines : list line_row) : Q :=
  fold_left (fun acc r => acc + ln_qty r) lines 0.

(** [sum([float(r["qty"]) * float(r["unit_price"]) for r in lines])]. *)
Definition sum_amount (lines : list line_row) : Q :=
  fold_left (fun acc r => acc + ln_qty r * ln_unit_price r) lines 0.

Definition lines_for (doc_id : Z) (lines : list line_row) : list line_row :=
  filter (fun r => (ln_doc_id r =? doc_id)%Z) lines.

Definition set_invoice_status (st : invoice_status) (r : invoice_row) : invoice_row :=
  mk_invoice_row (inv_row_id r) (inv_supplier_id r) (inv_po_id r) (invoice_no r)
    (inv_amount r) st (inv_received_at r).

(** [conn.execute(invoices.update().where(invoices.c.id == id)
    .values(status=st))]. *)
Definition update_invoice_status (id : Z) (st : invoice_status)
    (s : invoice_db) : invoice_db :=
  mk_invoice_db
    (map (fun r => if (inv_row_id r =? id)%Z then set_invoice_status st r else r)
       (invoices s))
    (po_items s) (invoice_items s) (goods_receipts s) (payments s).

(** What the checker shows. *)
Inductive match_report : Type :=
| Invoice_not_found
| Checked (po_qty inv_qty po_total inv_total : Q)
          (match_qty match_amt goods_received matched : bool).

(** The button "Run 3-way match". *)
Definition run_three_way_match (inv_id_chk : Z) (s : invoice_db)
    : match_report * invoice_db :=
  match find (fun r => (inv_row_id r =? inv_id_chk)%Z) (invoices s) with
  | None => (Invoice_not_found, s)
  | Some inv =>
      let po_id := inv_po_id inv in
      let po_lines := lines_for po_id (po_items s) in
      let po_qty := sum_qty po_lines in
      let po_total := sum_amount po_lines in
      let grn_rows :=
        filter (fun g => (gr_po_id g =? po_id)%Z) (goods_receipts s) in
      let inv_lines := lines_for inv_id_chk (invoice_items s) in
      let inv_qty := sum_qty inv_lines in
      let inv_total := sum_amount inv_lines in
      let match_qty := Qltb (Qabs (inv_qty - po_qty)) 0.000001 in
      let match_amt := Qltb (Qabs (inv_total - po_total)) 0.01 in
      let goods_received := match grn_rows with [] => false | _ :: _ => true end in
      if match_qty && match_amt && goods_received
      then (Checked po_qty inv_qty po_total inv_total match_qty match_amt
              goods_received true,
            update_invoice_status inv_id_chk IS_matched s)
      else (Checked po_qty inv_qty po_total inv_total match_qty match_amt
              goods_received false, s)
  end.





End Invoices.

(** *** Purchase orders ([page_pos]) *)

Module Orders.

(** [Enum("created","acknowledged","partially_delivered","delivered",
    "closed")]. *)
Inductive po_status : Type :=
  PS_created | PS_acknowledged | PS_partially_delivered | PS_delivered | PS_closed.

(** A row of [purchase_orders] ([created_at] is not kept). *)
Record purchase_order_row : Type := mk_purchase_order_row {
  po_id : Z;
  po_no : string;
  po_supplier_id : Z;
  po_rfq_id : Z;
  po_status_of : po_status
}.

(** A row of [rfq_items]; [item_desc] may be [NULL]. *)
Record rfq_item_row : Type := mk_rfq_item_row {
  ri_id : Z;
  ri_rfq_id : Z;
  ri_item_desc : option string;
  ri_qty : Q
}.

(** A row of [bids]. *)
Record bid_row : Type := mk_bid_row {
  bid_id : Z;
  bid_rfq_id : Z;
  bid_supplier_id : Z;
  bid_price : Q;
  lead_time_days : Z;
  bid_notes : string
}.

(** A row of [po_items]; [item_desc] may be [NULL]. *)
Record po_item_row : Type := mk_po_item_row {
  pi_id : Z;
  pi_po_id : Z;
  pi_item_desc : option string;
  pi_qty : Q;
  pi_unit_price : Q
}.

(** The tables the button "Create PO" touches. *)
Record po_db : Type := mk_po_db {
  purchase_orders : list purchase_order_row;
  rfq_items : list rfq_item_row;
  bids : list bid_row;
  po_lines : list po_item_row
}.

(** [conn.execute(purchase_orders.insert().values(...))
    .inserted_primary_key[0]]; [po_no] is [unique=True]. *)
Definition insert_purchase_order (no : string) (supplier_id rfq_id : Z)
    (st : po_status) : script po_db Z :=
  fun s =>
    if existsb (fun r => String.eqb (po_no r) no) (purchase_orders s)
    then Failed IntegrityError s
    else
      let id := next_id (map po_id (purchase_orders s)) in
      Done id (mk_po_db
                 (purchase_orders s
                    ++ [mk_purchase_order_row id no supplier_id rfq_id st])
                 (rfq_items s) (bids s) (po_lines s)).

(** [select(rfq_items).where(rfq_items.c.rfq_id == rfq_id)], all rows. *)
Definition select_rfq_items (rfq_id : Z) : script po_db (list rfq_item_row) :=
  fun s => Done (filter (fun r => (ri_rfq_id r =? rfq_id)%Z) (rfq_items s)) s.

(** The row [order_by(bids.c.id.desc())] puts first among the bids of a
    supplier for an RFQ: the one with the largest id. *)
Definition latest_bid (rfq_id supplier_id : Z) (l : list bid_row) : option bid_row :=
  fold_left
    (fun best b =>
       if (bid_rfq_id b =? rfq_id)%Z && (bid_supplier_id b =? supplier_id)%Z
       then match best with
            | Some b0 => if (bid_id b0 <? bid_id b)%Z then Some b else best
            | None => Some b
            end
       else best)
    l None.

(** [select(bids.c.price).where(...).order_by(bids.c.id.desc())], then
    [.scalar()]. *)
Definition select_bid_price (rfq_id supplier_id : Z) : script po_db (option Q) :=
  fun s => Done (option_map bid_price (latest_bid rfq_id supplier_id (bids s))) s.

Section Columns.

(** What a [Numeric(12,2)] column keeps of a price written to it.  The
    rounding to two decimals is the backend's, not the program's, so it is
    left open here. *)
Variable numeric_12_2 : Q -> Q.

(** [conn.execute(po_items.insert().values(...))].  The quantity is read
    from a column of the same type and is kept as it is; the unit price is
    computed by the program and goes through the column. *)
Definition insert_po_item (po : Z) (item_desc : option string)
    (qty unit_price : Q)
    : script po_db unit :=
  fun s =>
    Done tt (mk_po_db (purchase_orders s) (rfq_items s) (bids s)
               (po_lines s
                  ++ [mk_po_item_row (next_id (map pi_id (po_lines s)))
                        po item_desc qty (numeric_12_2 unit_price)])).

(** [sum([float(r["qty"]) for r in items_rows])]. *)
Definition rfq_total_qty (rows : list rfq_item_row) : Q :=
  fold_left (fun acc r => acc + ri_qty r) rows 0.

(** [x or 1.0]. *)
Definition or_one (x : Q) : Q := if Qeq_bool x 0 then 1 else x.

Local Open Scope script_scope.

(** The transaction of the button "Create PO". *)
Definition create_po (rfq_id_sel supplier_id_sel : Z) (now : string)
    : script po_db Z :=
  let po_no := now_ts_id "PO" now in
  po_id <~ insert_purchase_order po_no supplier_id_sel rfq_id_sel PS_created ;;
  items_rows <~ select_rfq_items rfq_id_sel ;;
  bid <~ select_bid_price rfq_id_sel supplier_id_sel ;;
  let total_qty := or_one (rfq_total_qty items_rows) in
  let unit_price := match bid with
                    | Some p => p / total_qty
                    | None => 0
                    end in
  for_each items_rows
    (fun r => insert_po_item po_id (ri_item_desc r) (ri_qty r) unit_price) ;;~
  sret po_id.

Definition create_po_button (rfq_id_sel supplier_id_sel : Z) (now : string)
    (s : po_db) : (exn + Z) * po_db :=
  begin (create_po rfq_id_sel supplier_id_sel now) s.

End Columns.

(** One such column: two decimals, halves rounded up. *)
Definition half_up_2 (x : Q) : Q := inject_Z (Qfloor (x * 100 + 1 / 2)) / 100.

(** What a line of an order says, its id apart. *)
Definition po_line_summary (r : po_item_row) : Z * option string * Q * Q :=
  (pi_po_id r, pi_item_desc r, pi_qty r, pi_unit_price r).

(** The value of some order lines. *)
Definition lines_value (l : list po_item_row) : Q :=
  fold_left (fun acc r => acc + pi_qty r * pi_unit_price r) l 0.

(** An example: RFQ 4 with two items, and two bids of supplier 9 for it. *)
Definition quoted_rfq : po_db :=
  mk_po_db []
    [mk_rfq_item_row 1 4 (Some "bolts"%string) 10;
     mk_rfq_item_row 2 4 (Some "nuts"%string) 30]
    [mk_bid_row 1 4 9 100 5 "first"; mk_bid_row 2 4 9 80 7 "revised"]
    [].

End Orders.

(** *** Goods receipts ([page_grn_insp]) *)

Module Receipts.

(** A row of [items] ([created_at] is not kept). *)
Record item_row : Type := mk_item_row {
  item_id : Z;
  sku : option string;
  item_name : string;
  uom : string;
  last_price : Q
}.

(** The tables the button "Record Goods Receipt" touches. *)
Record receipt_db : Type := mk_receipt_db {
  ledger : db;
  goods_receipts : list Invoices.goods_receipt_row;
  purchase_orders : list Orders.purchase_order_row;
  po_items : list Orders.po_item_row;
  items : list item_row
}.

Definition put_ledger (d : db) (s : receipt_db) : receipt_db :=
  mk_receipt_db d (goods_receipts s) (purchase_orders s) (po_items s) (items s).

Definition put_items (its : list item_row) (s : receipt_db) : receipt_db :=
  mk_receipt_db (ledger s) (goods_receipts s) (purchase_orders s) (po_items s) its.

(** [str(x)] of a text column that may be [NULL]. *)
Definition py_str (x : option string) : string :=
  match x with
  | Some t => t
  | None => "None"
  end.

(** [conn.execute(goods_receipts.insert().values(...))
    .inserted_primary_key[0]]; [grn_no] is [unique=True]. *)
Definition insert_goods_receipt (po : Z) (no today : string) (received_by : Z)
    : script receipt_db Z :=
  fun s =>
    if existsb (fun r => String.eqb (Invoices.grn_no r) no) (goods_receipts s)
    then Failed IntegrityError s
    else
      let id := next_id (map Invoices.gr_id (goods_receipts s)) in
      Done id (mk_receipt_db (ledger s)
                 (goods_receipts s
                    ++ [Invoices.mk_goods_receipt_row id po no today received_by])
                 (purchase_orders s) (po_items s) (items s)).

Definition set_po_status (st : Orders.po_status) (r : Orders.purchase_order_row)
    : Orders.purchase_order_row :=
  Orders.mk_purchase_order_row (Orders.po_id r) (Orders.po_no r)
    (Orders.po_supplier_id r) (Orders.po_rfq_id r) st.

(** [conn.execute(purchase_orders.update().where(purchase_orders.c.id == id)
    .values(status=st))]. *)
Definition update_po_status (id : Z) (st : Orders.po_status)
    : script receipt_db unit :=
  fun s =>
    Done tt (mk_receipt_db (ledger s) (goods_receipts s)
               (map (fun r => if (Orders.po_id r =? id)%Z
                              then set_po_status st r else r)
                  (purchase_orders s))
               (po_items s) (items s)).

(** [select(po_items).where(po_items.c.po_id == id)], all rows. *)
Definition select_po_items (id : Z) : script receipt_db (list Orders.po_item_row) :=
  fun s => Done (filter (fun r => (Orders.pi_po_id r =? id)%Z) (po_items s)) s.

Definition set_last_price (price : Q) (r : item_row) : item_row :=
  mk_item_row (item_id r) (sku r) (item_name r) (uom r) price.

Section Text.

(** [str.strip], and the comparison [items.c.name == item_name] as the
    database makes it (the collation of the column is the backend's). *)
Variable strip : string -> string.
Variable collate : string -> string -> bool.

(** [select(items).where(items.c.name == item_name)], first row. *)
Definition select_item_first (name : string) (its : list item_row)
    : option item_row :=
  find (fun r => collate (item_name r) name) its.

(** The body of the loop up to the call of [inventory_in], on the table of
    items: the id of the item the line is received as, and the table
    afterwards.  An item of that name has its [last_price] set; when
    there is none, one is inserted with unit [ea]. *)
Definition resolve_item (line : Orders.po_item_row) (its : list item_row)
    : Z * list item_row :=
  let name := strip (py_str (Orders.pi_item_desc line)) in
  match select_item_first name its with
  | None =>
      let iid := next_id (map item_id its) in
      (iid, its ++ [mk_item_row iid None name "ea" (Orders.pi_unit_price line)])
  | Some it =>
      (item_id it,
       map (fun r => if (item_id r =? item_id it)%Z
                     then set_last_price (Orders.pi_unit_price line) r else r)
         its)
  end.

Local Open Scope script_scope.

(** The body of the loop for one line. *)
Definition receive_line (wh_id grn_id : Z) (now : string)
    (line : Orders.po_item_row) : script receipt_db unit :=
  iid <~ (fun s => let (iid, its) := resolve_item line (items s) in
                   Done iid (put_items its s)) ;;
  on_ledger ledger put_ledger
    (inventory_in wh_id iid (Orders.pi_qty line) "GRN" grn_id None now).

(** The transaction of the button "Record Goods Receipt".  [grn_clock] is
    the clock reading when the receipt is numbered, [clock k] the one
    during the line at position [k]. *)
Definition record_goods_receipt (wh_id po_id_in received_by : Z)
    (today grn_clock : string) (clock : nat -> string) : script receipt_db Z :=
  let grn_no := now_ts_id "GRN" grn_clock in
  grn_id <~ insert_goods_receipt po_id_in grn_no today received_by ;;
  update_po_status po_id_in Orders.PS_delivered ;;~
  po_lines <~ select_po_items po_id_in ;;
  for_each (indexed_from 0 po_lines)
    (fun kl => receive_line wh_id grn_id (clock (fst kl)) (snd kl)) ;;~
  sret grn_id.

(** What the button does: nothing without a warehouse ([wh_id == 0]);
    otherwise the transaction, whose exception is not caught. *)
Inductive receipt_outcome : Type :=
| No_warehouse
| Recorded (grn_id : Z)
| Uncaught (e : exn).

Definition record_goods_receipt_button (wh_id po_id_in received_by : Z)
    (today grn_clock : string) (clock : nat -> string) (s : receipt_db)
    : receipt_outcome * receipt_db :=
  if (wh_id =? 0)%Z then (No_warehouse, s)
  else
    match begin (record_goods_receipt wh_id po_id_in received_by today
                   grn_clock clock) s with
    | (inr grn_id, s') => (Recorded grn_id, s')
    | (inl e, s') => (Uncaught e, s')
    end.

(** The calls of the engine the loop makes from a table of items, and the
    table afterwards. *)
Fixpoint receipt_calls (wh_id grn_id : Z) (clock : nat -> string)
    (kls : list (nat * Orders.po_item_row)) (its : list item_row)
    : list call * list item_row :=
  match kls with
  | [] => ([], its)
  | kl :: kls' =>
      let (iid, its1) := resolve_item (snd kl) its in
      let (cs, its') := receipt_calls wh_id grn_id clock kls' its1 in
      (IN wh_id iid (Orders.pi_qty (snd kl)) "GRN" grn_id None (clock (fst kl))
         :: cs, its')
  end.

End Text.

(** The lines of a purchase order, and the quantity they order. *)
Definition lines_of (po : Z) (s : receipt_db) : list Orders.po_item_row :=
  filter (fun r => (Orders.pi_po_id r =? po)%Z) (po_items s).



(** What identifies an item for good: all but its last price. *)
Definition item_identity (r : item_row) : Z * option string * string * string :=
  (item_id r, sku r, item_name r, uom r).

(** Examples: purchase order 7 of two lines, nothing in stock and no item
    known; a strip that removes nothing, and the binary comparison. *)
Definition ordered_po : receipt_db :=
  mk_receipt_db empty_db []
    [Orders.mk_purchase_order_row 7 "PO20260101000000" 9 4 Orders.PS_created]
    [Orders.mk_po_item_row 1 7 (Some "bolts"%string) 10 2;
     Orders.mk_po_item_row 2 7 (Some "nuts"%string) 30 2]
    [].

Definition no_strip (t : string) : string := t.

End Receipts.

(** *** Accounts and navigation *)

Module Accounts.

(** A row of [users] ([created_at] is not kept). *)
Record user_row : Type := mk_user_row {
  user_id : Z;
  user_name : string;
  email : option string;
  password_hash : string;
  role : string;
  dept : option string
}.

(** [st.session_state.user]. *)
Record session_user : Type := mk_session_user {
  su_id : Z;
  su_name : string;
  su_role : string;
  su_email : option string
}.

Definition DEMO_EMAIL : string := "just_for@demo.com".
Definition DEMO_PASSWORD : string := "demo1111!".
Definition DEMO_NAME : string := "Admin just for Demo purposes".
Definition DEMO_ROLE : string := "admin".

Section Text.

(** [sha256], and the comparison of two e-mail addresses as the database
    makes it, in a [WHERE] as in the unique index of the column. *)
Variable sha256 : string -> string.
Variable collate : string -> string -> bool.

Definition has_email (e : string) (r : user_row) : bool :=
  match email r with
  | Some e' => collate e' e
  | None => false
  end.

(** [select(users).where(users.c.email == e)], first row. *)
Definition select_user_first (e : string) : script (list user_row) (option user_row) :=
  fun us => Done (find (has_email e) us) us.

(** [conn.execute(users.insert().values(...))]; [email] is [unique=True]. *)
Definition insert_user (name e pwd_hash rl dpt : string)
    : script (list user_row) unit :=
  fun us =>
    if existsb (has_email e) us then Failed IntegrityError us
    else Done tt (us ++ [mk_user_row (next_id (map user_id us)) name (Some e)
                           pwd_hash rl (Some dpt)]).

Local Open Scope script_scope.

Definition ensure_demo_user_exists (us : list user_row)
    : (exn + unit) * list user_row :=
  begin
    (u <~ select_user_first DEMO_EMAIL ;;
     match u with
     | Some _ => sret tt
     | None => insert_user DEMO_NAME DEMO_EMAIL (sha256 DEMO_PASSWORD) DEMO_ROLE
                 "Demo"
     end) us.

(** The button "Demo login": the session user afterwards, [None] when the
    demo user is not found. *)
Definition demo_login (us : list user_row) : option session_user :=
  match begin (select_user_first DEMO_EMAIL) us with
  | (inr (Some u), _) =>
      Some (mk_session_user (user_id u) (user_name u) (role u) (email u))
  | _ => None
  end.

End Text.

(** [require_role]. *)
Definition require_role (roles : list string) (u : option session_user) : bool :=
  match u with
  | None => false
  | Some u =>
      existsb (String.eqb (su_role u)) roles || String.eqb (su_role u) "admin"
  end.

Definition menu_item (label : string) (allowed_roles : list string)
    (u : option session_user) : option string :=
  if require_role allowed_roles u then Some label else None.

Definition nav_all (u : option session_user) : list (option string) :=
  [ menu_item "1) Requisitions" ["requester"; "buyer"] u;
    menu_item "2) Approvals" ["approver"; "admin"] u;
    menu_item "3) RFQs & Bids" ["buyer"] u;
    menu_item "4) Purchase Orders" ["buyer"] u;
    menu_item "5) GRN & Inspection (auto-inventory IN)" ["inspector"; "buyer"] u;
    menu_item "6) Invoices & Payments (3-way match)" ["finance"; "buyer"] u;
    menu_item "7) Suppliers & Scores" ["buyer"; "inspector"] u;
    menu_item "8) Warehouses" ["buyer"; "admin"] u;
    menu_item "9) Inventory & Transfers" ["buyer"; "inspector"; "admin"] u;
    menu_item "10) Outbound Deliveries (auto-inventory OUT)" ["buyer"; "admin"] u;
    menu_item "11) Vehicles & Drivers" ["admin"; "buyer"] u;
    menu_item "12) Documents" ["buyer"; "finance"; "inspector"; "requester"] u;
    menu_item "13) Reports & Analytics (incl. valuation)"
      ["buyer"; "finance"; "admin"] u;
    menu_item "Admin: Users" ["admin"] u ]%string.

(** [[x for x in nav_all if x]]: [None] and the empty label are dropped. *)
Definition nav (u : option session_user) : list string :=
  flat_map (fun x => match x with
                     | Some l => if String.eqb l EmptyString then [] else [l]
                     | None => []
                     end) (nav_all u).

Inductive page : Type :=
| page_requisitions | page_approvals | page_rfqs_bids | page_pos | page_grn_insp
| page_invoices | page_suppliers | page_warehouses | page_inventory
| page_deliveries | page_fleet | page_documents | page_reports
| page_admin_users.

(** The router: the page a choice of the sidebar runs, [None] when no
    branch is taken. *)
Definition router (choice : string) : option page :=
  if String.prefix "1)" choice then Some page_requisitions
  else if String.prefix "2)" choice then Some page_approvals
  else if String.prefix "3)" choice then Some page_rfqs_bids
  else if String.prefix "4)" choice then Some page_pos
  else if String.prefix "5)" choice then Some page_grn_insp
  else if String.prefix "6)" choice then Some page_invoices
  else if String.prefix "7)" choice then Some page_suppliers
  else if String.prefix "8)" choice then Some page_warehouses
  else if String.prefix "9)" choice then Some page_inventory
  else if String.prefix "10)" choice then Some page_deliveries
  else if String.prefix "11)" choice then Some page_fleet
  else if String.prefix "12)" choice then Some page_documents
  else if String.prefix "13)" choice then Some page_reports
  else if String.prefix "Admin" choice then Some page_admin_users
  else None.

(** The labels of the menu. *)
Definition menu_labels : list string :=
  ["1) Requisitions"; "2) Approvals"; "3) RFQs & Bids"; "4) Purchase Orders";
   "5) GRN & Inspection (auto-inventory IN)";
   "6) Invoices & Payments (3-way match)"; "7) Suppliers & Scores";
   "8) Warehouses"; "9) Inventory & Transfers";
   "10) Outbound Deliveries (auto-inventory OUT)"; "11) Vehicles & Drivers";
   "12) Documents"; "13) Reports & Analytics (incl. valuation)";
   "Admin: Users"]%string.

(** The roles of the column [users.role]. *)
Definition role_enum : list string :=
  ["requester"; "approver"; "buyer"; "inspector"; "finance"; "admin"]%string.

End Accounts.

(** * Properties *)

(** ** Numbers and keys *)

Lemma Qltb_true (x y : Q) : Qltb x y = true <-> x < y.
Proof.
  unfold Qltb. rewrite negb_true_iff.
  split; intro H.
  - apply Qnot_le_lt. intro Hle. apply Qle_bool_iff in Hle. congruence.
  - destruct (Qle_bool y x) eqn:E; [|reflexivity].
    apply Qle_bool_iff in E. exfalso. apply (Qlt_not_le _ _ H E).
Qed.

Lemma Qltb_false (x y : Q) : Qltb x y = false <-> y <= x.
Proof.
  unfold Qltb. rewrite negb_false_iff. apply Qle_bool_iff.
Qed.

Lemma option_Z_eqb_eq (a b : option Z) : option_Z_eqb a b = true <-> a = b.
Proof.
  destruct a as [x|], b as [y|]; simpl; split; intro H;
    try discriminate; try reflexivity.
  - apply Z.eqb_eq in H. now subst.
  - inversion H. apply Z.eqb_refl.
Qed.

Lemma same_key_iff (w i : Z) (b : option Z) (r : inventory_row) :
  same_key w i b r = true <-> key_of r = (w, i, b).
Proof.
  unfold same_key, key_of. rewrite !andb_true_iff, !Z.eqb_eq, option_Z_eqb_eq.
  split.
  - intros [[-> ->] ->]. reflexivity.
  - intro H. inversion H. auto.
Qed.

Lemma same_key_of (r : inventory_row) :
  same_key (inv_warehouse_id r) (inv_item_id r) (inv_bin_id r) r = true.
Proof. now apply same_key_iff. Qed.

Lemma same_key_new (w i : Z) (b : option Z) (id : Z) (q : Q) :
  same_key w i b (mk_inventory_row id w i b q) = true.
Proof. now apply same_key_iff. Qed.

Lemma same_key_update_row (w i : Z) (b : option Z) (id : Z) (q : Q) (r : inventory_row) :
  same_key w i b (update_row id q r) = same_key w i b r.
Proof. unfold update_row. now destruct (inv_id r =? id)%Z. Qed.

Lemma key_of_update_row (id : Z) (q : Q) (r : inventory_row) :
  key_of (update_row id q r) = key_of r.
Proof. unfold update_row. now destruct (inv_id r =? id)%Z. Qed.

Lemma inv_id_update_row (id : Z) (q : Q) (r : inventory_row) :
  inv_id (update_row id q r) = inv_id r.
Proof. unfold update_row. now destruct (inv_id r =? id)%Z. Qed.

(** ** Lists as tables *)

Section Tables.

Context {A : Type}.

Lemma find_snoc (p : A -> bool) (l : list A) (x : A) :
  find p (l ++ [x]) =
  match find p l with
  | Some y => Some y
  | None => if p x then Some x else None
  end.
Proof.
  induction l as [|a l IH]; simpl.
  - reflexivity.
  - destruct (p a); [reflexivity | exact IH].
Qed.

Lemma find_none_forall (p : A -> bool) (l : list A) :
  find p l = None -> forall x, In x l -> p x = false.
Proof. intros H x Hx. exact (find_none p l H x Hx). Qed.

Lemma NoDup_map_eq {B : Type} (f : A -> B) (l : list A) (x y : A) :
  NoDup (map f l) -> In x l -> In y l -> f x = f y -> x = y.
Proof.
  induction l as [|a l IH]; simpl; intros Hnd Hx Hy Hf.
  - contradiction.
  - inversion Hnd as [|? ? Hnotin Hnd']; subst.
    destruct Hx as [->|Hx], Hy as [->|Hy].
    + reflexivity.
    + exfalso. apply Hnotin. rewrite Hf. now apply in_map.
    + exfalso. apply Hnotin. rewrite <- Hf. now apply in_map.
    + now apply IH.
Qed.

Lemma NoDup_snoc (l : list A) (x : A) : NoDup l -> ~ In x l -> NoDup (l ++ [x]).
Proof.
  intros Hl Hx. apply NoDup_app.
  - exact Hl.
  - constructor; [intros [] | constructor].
  - intros a Ha [<-|[]]. contradiction.
Qed.

End Tables.

Lemma next_id_above (ids : list Z) (z : Z) : In z ids -> (z < next_id ids)%Z.
Proof.
  unfold next_id. induction ids as [|a ids IH]; cbn [fold_right In]; intro H.
  - contradiction.
  - destruct H as [->|H]; [lia|]. specialize (IH H). lia.
Qed.

Lemma next_id_fresh (ids : list Z) : ~ In (next_id ids) ids.
Proof. intro H. apply next_id_above in H. lia. Qed.

Lemma find_update (w i : Z) (b : option Z) (id : Z) (q : Q) (l : list inventory_row) :
  find (same_key w i b) (map (update_row id q) l) =
  option_map (update_row id q) (find (same_key w i b) l).
Proof.
  induction l as [|a l IH]; simpl.
  - reflexivity.
  - rewrite same_key_update_row. destruct (same_key w i b a); [reflexivity | exact IH].
Qed.

Lemma map_inv_id_update (id : Z) (q : Q) (l : list inventory_row) :
  map inv_id (map (update_row id q) l) = map inv_id l.
Proof.
  rewrite map_map. apply map_ext. intro r. apply inv_id_update_row.
Qed.

Lemma map_key_of_update (id : Z) (q : Q) (l : list inventory_row) :
  map key_of (map (update_row id q) l) = map key_of l.
Proof.
  rewrite map_map. apply map_ext. intro r. apply key_of_update_row.
Qed.

(** ** [get_or_create_inv] *)

Lemma get_or_create_inv_eq (w i : Z) (b : option Z) (d : db) :
  get_or_create_inv w i b d = Ok (Some (looked_up w i b d)) (touched w i b d).
Proof.
  unfold get_or_create_inv, bind, select_inventory_first, insert_inventory, ret,
    looked_up, touched.
  destruct (find (same_key w i b) (inventory d)) as [r|] eqn:E.
  - reflexivity.
  - unfold fresh_row. cbn [inventory stock_movements].
    rewrite find_snoc, E, same_key_new. reflexivity.
Qed.

Lemma find_touched (w i : Z) (b : option Z) (d : db) :
  find (same_key w i b) (inventory (touched w i b d)) = Some (looked_up w i b d).
Proof.
  unfold touched, looked_up.
  destruct (find (same_key w i b) (inventory d)) as [r|] eqn:E.
  - exact E.
  - cbn [inventory]. unfold fresh_row.
    rewrite find_snoc, E, same_key_new. reflexivity.
Qed.

Lemma looked_up_found (w i : Z) (b : option Z) (d : db) (r : inventory_row) :
  find (same_key w i b) (inventory d) = Some r -> looked_up w i b d = r.
Proof. intro H. unfold looked_up. now rewrite H. Qed.

Lemma touched_found (w i : Z) (b : option Z) (d : db) (r : inventory_row) :
  find (same_key w i b) (inventory d) = Some r -> touched w i b d = d.
Proof. intro H. unfold touched. now rewrite H. Qed.

Lemma looked_up_in (w i : Z) (b : option Z) (d : db) :
  In (looked_up w i b d) (inventory (touched w i b d)).
Proof.
  pose proof (find_touched w i b d) as H. apply find_some in H. tauto.
Qed.

Lemma looked_up_key (w i : Z) (b : option Z) (d : db) :
  same_key w i b (looked_up w i b d) = true.
Proof.
  pose proof (find_touched w i b d) as H. apply find_some in H. tauto.
Qed.

Lemma looked_up_qty (w i : Z) (b : option Z) (d : db) :
  inv_qty (looked_up w i b d) = on_hand d w i b.
Proof.
  unfold looked_up, on_hand.
  destruct (find (same_key w i b) (inventory d)); reflexivity.
Qed.

Lemma touched_log (w i : Z) (b : option Z) (d : db) :
  stock_movements (touched w i b d) = stock_movements d.
Proof.
  unfold touched. destruct (find (same_key w i b) (inventory d)); reflexivity.
Qed.

Lemma touched_on_hand (w i : Z) (b : option Z) (d : db) :
  same_on_hand d (touched w i b d).
Proof.
  intros w' i' b'. unfold touched, on_hand.
  destruct (find (same_key w i b) (inventory d)) as [r|] eqn:E; [reflexivity|].
  cbn [inventory]. rewrite find_snoc.
  destruct (find (same_key w' i' b') (inventory d)) as [r'|] eqn:E'; [reflexivity|].
  destruct (same_key w' i' b' (fresh_row w i b d)); reflexivity.
Qed.

Lemma touched_primary_key (w i : Z) (b : option Z) (d : db) :
  primary_key d -> primary_key (touched w i b d).
Proof.
  unfold primary_key, touched. intro H.
  destruct (find (same_key w i b) (inventory d)); [exact H|].
  cbn [inventory]. rewrite map_app. cbn [map fresh_row inv_id].
  apply NoDup_snoc; [exact H | apply next_id_fresh].
Qed.

Lemma touched_keys_unique (w i : Z) (b : option Z) (d : db) :
  keys_unique d -> keys_unique (touched w i b d).
Proof.
  unfold keys_unique, touched. intro H.
  destruct (find (same_key w i b) (inventory d)) eqn:E; [exact H|].
  cbn [inventory]. rewrite map_app. cbn [map fresh_row key_of].
  apply NoDup_snoc; [exact H|].
  intro Hin. apply in_map_iff in Hin. destruct Hin as [r [Hk Hr]].
  apply same_key_iff in Hk. cbn in Hk.
  pose proof (find_none_forall _ _ E r Hr) as Hf. congruence.
Qed.

(** The rows present before the lookup are still there, in place. *)
Lemma touched_rows (w i : Z) (b : option Z) (d : db) :
  inventory (touched w i b d) = inventory d
  \/ (find (same_key w i b) (inventory d) = None
      /\ inventory (touched w i b d) = inventory d ++ [fresh_row w i b d]).
Proof.
  unfold touched. destruct (find (same_key w i b) (inventory d)); auto.
Qed.

(** ** [update_inventory_qty] *)

Lemma updated_log (id : Z) (q : Q) (d : db) :
  stock_movements (updated id q d) = stock_movements d.
Proof. reflexivity. Qed.

Lemma updated_primary_key (id : Z) (q : Q) (d : db) :
  primary_key d -> primary_key (updated id q d).
Proof. unfold primary_key, updated. cbn [inventory]. now rewrite map_inv_id_update. Qed.

Lemma updated_keys_unique (id : Z) (q : Q) (d : db) :
  keys_unique d -> keys_unique (updated id q d).
Proof. unfold keys_unique, updated. cbn [inventory]. now rewrite map_key_of_update. Qed.

Lemma on_hand_updated_key (w i : Z) (b : option Z) (q : Q) (d : db) (r : inventory_row) :
  find (same_key w i b) (inventory d) = Some r ->
  on_hand (updated (inv_id r) q d) w i b = q.
Proof.
  intro H. unfold on_hand, updated. cbn [inventory].
  rewrite find_update, H. cbn [option_map]. unfold update_row.
  rewrite Z.eqb_refl. reflexivity.
Qed.

Lemma on_hand_updated_other (w i : Z) (b : option Z) (q : Q) (d : db)
    (r : inventory_row) (w' i' : Z) (b' : option Z) :
  primary_key d ->
  find (same_key w i b) (inventory d) = Some r ->
  (w', i', b') <> (w, i, b) ->
  on_hand (updated (inv_id r) q d) w' i' b' = on_hand d w' i' b'.
Proof.
  intros Hpk H Hne. unfold on_hand, updated. cbn [inventory].
  rewrite find_update.
  destruct (find (same_key w' i' b') (inventory d)) as [r'|] eqn:E'; [|reflexivity].
  cbn [option_map]. unfold update_row.
  destruct (inv_id r' =? inv_id r)%Z eqn:Eid; [|reflexivity].
  exfalso. apply Z.eqb_eq in Eid.
  apply find_some in H. apply find_some in E'.
  destruct H as [Hin Hk], E' as [Hin' Hk'].
  assert (r' = r) by (eapply NoDup_map_eq; eauto).
  subst r'. apply same_key_iff in Hk. apply same_key_iff in Hk'. congruence.
Qed.

Create HintDb ledger.
#[local] Hint Resolve touched_primary_key touched_keys_unique
  updated_primary_key updated_keys_unique find_touched : ledger.

(** ** Lookup followed by [UPDATE] *)

Lemma adjusted_log (w i : Z) (b : option Z) (q : Q) (d : db) :
  stock_movements (adjusted w i b q d) = stock_movements d.
Proof. unfold adjusted. rewrite updated_log. apply touched_log. Qed.

Lemma adjusted_primary_key (w i : Z) (b : option Z) (q : Q) (d : db) :
  primary_key d -> primary_key (adjusted w i b q d).
Proof. unfold adjusted. auto with ledger. Qed.

Lemma adjusted_keys_unique (w i : Z) (b : option Z) (q : Q) (d : db) :
  keys_unique d -> keys_unique (adjusted w i b q d).
Proof. unfold adjusted. auto with ledger. Qed.

Lemma on_hand_adjusted_key (w i : Z) (b : option Z) (q : Q) (d : db) :
  on_hand (adjusted w i b q d) w i b = q.
Proof. unfold adjusted. apply on_hand_updated_key, find_touched. Qed.

Lemma on_hand_adjusted_other (w i : Z) (b : option Z) (q : Q) (d : db)
    (w' i' : Z) (b' : option Z) :
  primary_key d ->
  (w', i', b') <> (w, i, b) ->
  on_hand (adjusted w i b q d) w' i' b' = on_hand d w' i' b'.
Proof.
  intros Hpk Hne. unfold adjusted.
  rewrite (on_hand_updated_other w i b); auto with ledger.
  apply touched_on_hand.
Qed.

(** ** The movement log *)

Lemma replay_snoc (w i : Z) (b : option Z) (log : list stock_movement) (m : stock_movement) :
  replay w i b (log ++ [m]) = replay w i b log + signed_qty w i b m.
Proof. unfold replay. rewrite fold_left_app. reflexivity. Qed.

Lemma option_Z_eqb_refl (b : option Z) : option_Z_eqb b b = true.
Proof. now apply option_Z_eqb_eq. Qed.

Lemma key_test_other (w i : Z) (b : option Z) (w' i' : Z) (b' : option Z) :
  (w', i', b') <> (w, i, b) ->
  (w =? w')%Z && (i =? i')%Z && option_Z_eqb b b' = false.
Proof.
  intro Hne. apply not_true_is_false. intro H.
  rewrite !andb_true_iff, !Z.eqb_eq, option_Z_eqb_eq in H.
  destruct H as [[-> ->] ->]. now apply Hne.
Qed.

Lemma signed_in_record (d : db) (w i : Z) (q : Q) (e : string) (rid : Z)
    (b : option Z) (now : string) :
  signed_qty w i b (in_record d w i q e rid b now) = q.
Proof.
  unfold signed_qty, in_record. cbn.
  now rewrite !Z.eqb_refl, option_Z_eqb_refl.
Qed.

Lemma signed_in_record_other (d : db) (w i : Z) (q : Q) (e : string) (rid : Z)
    (b : option Z) (now : string) (w' i' : Z) (b' : option Z) :
  (w', i', b') <> (w, i, b) ->
  signed_qty w' i' b' (in_record d w i q e rid b now) = 0.
Proof.
  intro Hne. unfold signed_qty, in_record. cbn.
  now rewrite key_test_other.
Qed.

Lemma signed_out_record (d : db) (w i : Z) (q : Q) (e : string) (rid : Z)
    (b : option Z) (now : string) :
  signed_qty w i b (out_record d w i q e rid b now) = - q.
Proof.
  unfold signed_qty, out_record. cbn.
  now rewrite !Z.eqb_refl, option_Z_eqb_refl.
Qed.

Lemma signed_out_record_other (d : db) (w i : Z) (q : Q) (e : string) (rid : Z)
    (b : option Z) (now : string) (w' i' : Z) (b' : option Z) :
  (w', i', b') <> (w, i, b) ->
  signed_qty w' i' b' (out_record d w i q e rid b now) = 0.
Proof.
  intro Hne. unfold signed_qty, out_record. cbn.
  now rewrite key_test_other.
Qed.

Lemma signed_transfer_record (d : db) (f t i : Z) (q : Q) (rsn now : string)
    (w' i' : Z) (b' : option Z) :
  signed_qty w' i' b' (transfer_record d f t i q rsn now) = 0.
Proof.
  unfold signed_qty, transfer_record. cbn [mv_type].
  match goal with |- (if ?c then _ else _) = _ => destruct c end; reflexivity.
Qed.

(** ** The utilities as equations on the connection *)

Lemma inventory_in_eq (w i : Z) (q : Q) (e : string) (rid : Z) (b : option Z)
    (now : string) (d : db) :
  inventory_in w i q e rid b now d =
  if movement_no_taken (now_ts_id "MIN" now) (stock_movements d)
  then Raise IntegrityError (adjusted w i b (on_hand d w i b + q) d)
  else Ok tt (logged (in_record d w i q e rid b now)
                (adjusted w i b (on_hand d w i b + q) d)).
Proof.
  unfold inventory_in, bind. rewrite get_or_create_inv_eq.
  unfold update_inventory_qty, insert_stock_movement.
  cbn [inventory stock_movements]. rewrite touched_log, looked_up_qty.
  unfold logged, in_record, adjusted, updated. cbn [inventory stock_movements].
  rewrite touched_log. reflexivity.
Qed.

Lemma inventory_out_eq (w i : Z) (q : Q) (e : string) (rid : Z) (b : option Z)
    (now : string) (d : db) :
  inventory_out w i q e rid b now d =
  if Qltb (on_hand d w i b - q) (- epsilon)
  then Raise (InsufficientStock i w (on_hand d w i b) q) (touched w i b d)
  else if movement_no_taken (now_ts_id "MOUT" now) (stock_movements d)
  then Raise IntegrityError (adjusted w i b (on_hand d w i b - q) d)
  else Ok tt (logged (out_record d w i q e rid b now)
                (adjusted w i b (on_hand d w i b - q) d)).
Proof.
  unfold inventory_out, bind. rewrite get_or_create_inv_eq.
  rewrite looked_up_qty.
  destruct (Qltb (on_hand d w i b - q) (- epsilon)); [reflexivity|].
  unfold update_inventory_qty, insert_stock_movement.
  cbn [inventory stock_movements]. rewrite touched_log.
  unfold logged, out_record, adjusted, updated. cbn [inventory stock_movements].
  rewrite touched_log. reflexivity.
Qed.

Lemma on_hand_logged (m : stock_movement) (d : db) (w i : Z) (b : option Z) :
  on_hand (logged m d) w i b = on_hand d w i b.
Proof. reflexivity. Qed.

Lemma logged_primary_key (m : stock_movement) (d : db) :
  primary_key d -> primary_key (logged m d).
Proof. exact (fun H => H). Qed.

Lemma logged_keys_unique (m : stock_movement) (d : db) :
  keys_unique d -> keys_unique (logged m d).
Proof. exact (fun H => H). Qed.

Lemma transfer_stock_eq (f t i : Z) (q : Q) (rsn n1 n2 n3 : string) (d : db) :
  transfer_stock f t i q rsn n1 n2 n3 d =
  match inventory_out f i q "TRANSFER" 0%Z None n1 d with
  | Raise e c => Raise e c
  | Ok _ d1 =>
      match inventory_in t i q "TRANSFER" 0%Z None n2 d1 with
      | Raise e c => Raise e c
      | Ok _ d2 =>
          if movement_no_taken (now_ts_id "MTR" n3) (stock_movements d2)
          then Raise IntegrityError d2
          else Ok tt (logged (transfer_record d2 f t i q rsn n3) d2)
      end
  end.
Proof. reflexivity. Qed.

(** ** Consistency of ledger and log is preserved *)

Lemma ledger_inv_empty : ledger_inv empty_db.
Proof.
  split.
  - constructor.
  - constructor.
  - intros w i b. reflexivity.
Qed.

Lemma ledger_inv_leg (d : db) (w i : Z) (b : option Z) (dq : Q) (m : stock_movement) :
  ledger_inv d ->
  signed_qty w i b m = dq ->
  (forall w' i' b', (w', i', b') <> (w, i, b) -> signed_qty w' i' b' m = 0) ->
  ledger_inv (logged m (adjusted w i b (on_hand d w i b + dq) d)).
Proof.
  intros [Hpk Hku Hre] Hm Hother. split.
  - now apply logged_primary_key, adjusted_primary_key.
  - now apply logged_keys_unique, adjusted_keys_unique.
  - intros w' i' b'. rewrite on_hand_logged.
    unfold logged. cbn [stock_movements]. rewrite adjusted_log, replay_snoc.
    destruct (key_eq_dec (w', i', b') (w, i, b)) as [E|E].
    + inversion E; subst. rewrite on_hand_adjusted_key, Hre. reflexivity.
    + rewrite on_hand_adjusted_other by assumption.
      rewrite (Hother _ _ _ E), Hre. lra.
Qed.

Lemma ledger_inv_marker (d : db) (m : stock_movement) :
  ledger_inv d ->
  (forall w i b, signed_qty w i b m = 0) ->
  ledger_inv (logged m d).
Proof.
  intros [Hpk Hku Hre] Hm. split; try assumption.
  intros w i b. rewrite on_hand_logged. unfold logged. cbn [stock_movements].
  rewrite replay_snoc, Hm, Hre. lra.
Qed.

Lemma inventory_in_ledger_inv (w i : Z) (q : Q) (e : string) (rid : Z)
    (b : option Z) (now : string) (d d' : db) :
  inventory_in w i q e rid b now d = Ok tt d' -> ledger_inv d -> ledger_inv d'.
Proof.
  rewrite inventory_in_eq. intros H Hinv.
  destruct (movement_no_taken _ _); [discriminate|].
  inversion H; subst d'. apply ledger_inv_leg.
  - exact Hinv.
  - apply signed_in_record.
  - intros. now apply signed_in_record_other.
Qed.

Lemma inventory_out_ledger_inv (w i : Z) (q : Q) (e : string) (rid : Z)
    (b : option Z) (now : string) (d d' : db) :
  inventory_out w i q e rid b now d = Ok tt d' -> ledger_inv d -> ledger_inv d'.
Proof.
  rewrite inventory_out_eq. intros H Hinv.
  destruct (Qltb _ _); [discriminate|].
  destruct (movement_no_taken _ _); [discriminate|].
  inversion H; subst d'. apply (ledger_inv_leg d w i b (- q)).
  - exact Hinv.
  - apply signed_out_record.
  - intros. now apply signed_out_record_other.
Qed.

Lemma transfer_stock_ledger_inv (f t i : Z) (q : Q) (rsn n1 n2 n3 : string) (d d' : db) :
  transfer_stock f t i q rsn n1 n2 n3 d = Ok tt d' -> ledger_inv d -> ledger_inv d'.
Proof.
  rewrite transfer_stock_eq. intros H Hinv.
  destruct (inventory_out f i q "TRANSFER" 0 None n1 d) as [[] d1|] eqn:E1; [|discriminate].
  destruct (inventory_in t i q "TRANSFER" 0 None n2 d1) as [[] d2|] eqn:E2; [|discriminate].
  destruct (movement_no_taken _ _); [discriminate|].
  inversion H; subst d'.
  apply ledger_inv_marker.
  - eapply inventory_in_ledger_inv; [exact E2|].
    eapply inventory_out_ledger_inv; [exact E1|exact Hinv].
  - intros. apply signed_transfer_record.
Qed.

Lemma exec_ledger_inv (c : call) (d d' : db) :
  exec c d = Ok tt d' -> ledger_inv d -> ledger_inv d'.
Proof.
  destruct c; cbn [exec].
  - apply inventory_in_ledger_inv.
  - apply inventory_out_ledger_inv.
  - apply transfer_stock_ledger_inv.
Qed.

(** A property preserved by every returning call of a given kind holds
    after every transaction of such calls, committed or rolled back, and so
    after every run of them. *)
Section Preservation.

Variable P : db -> Prop.
Variable G : call -> Prop.
Hypothesis exec_P : forall c d d', G c -> exec c d = Ok tt d' -> P d -> P d'.

Lemma exec_all_preserves (cs : list call) (d d' : db) :
  Forall G cs -> exec_all cs d = Ok tt d' -> P d -> P d'.
Proof.
  intro HG. revert d. induction HG as [|c cs Hc HG IH]; intros d H Hd.
  - inversion H; now subst.
  - cbn [exec_all] in H. unfold bind in H.
    destruct (exec c d) as [[] d1|] eqn:E; [|discriminate].
    eapply IH; [exact H|]. eapply exec_P; eassumption.
Qed.

Lemma transaction_preserves (cs : list call) (d : db) :
  Forall G cs -> P d -> P (snd (transaction cs d)).
Proof.
  intros HG Hd. unfold transaction, engine_begin.
  destruct (exec_all cs d) as [[] d'|] eqn:E; cbn [snd].
  - eapply exec_all_preserves; eassumption.
  - exact Hd.
Qed.

Lemma run_preserves (txs : list (list call)) (d : db) :
  Forall (Forall G) txs -> P d -> P (run txs d).
Proof.
  intro HG. revert d. unfold run.
  induction HG as [|tx txs Htx HG IH]; intros d Hd; cbn [fold_left].
  - exact Hd.
  - apply IH. now apply transaction_preserves.
Qed.

End Preservation.

Lemma Forall_Forall_True (txs : list (list call)) :
  Forall (Forall (fun _ : call => True)) txs.
Proof. apply Forall_forall. intros tx _. apply Forall_forall. auto. Qed.

Lemma run_ledger_inv (txs : list (list call)) : ledger_inv (run txs empty_db).
Proof.
  apply (run_preserves ledger_inv (fun _ => True)).
  - intros c d d' _. apply exec_ledger_inv.
  - apply Forall_Forall_True.
  - exact ledger_inv_empty.
Qed.

Lemma find_unique_key (l : list inventory_row) (r : inventory_row) :
  NoDup (map key_of l) -> In r l ->
  find (same_key (inv_warehouse_id r) (inv_item_id r) (inv_bin_id r)) l = Some r.
Proof.
  induction l as [|a l IH]; cbn [map find In]; intros Hnd Hin.
  - contradiction.
  - inversion Hnd as [|? ? Hnotin Hnd']; subst.
    destruct (same_key _ _ _ a) eqn:E.
    + destruct Hin as [->|Hin]; [reflexivity|].
      exfalso. apply Hnotin. apply same_key_iff in E. rewrite E.
      now apply (in_map key_of).
    + destruct Hin as [->|Hin].
      * now rewrite same_key_of in E.
      * now apply IH.
Qed.

(** ** The tolerance is respected *)

Lemma within_tolerance_empty : within_tolerance empty_db.
Proof. constructor. Qed.

Lemma touched_within_tolerance (w i : Z) (b : option Z) (d : db) :
  within_tolerance d -> within_tolerance (touched w i b d).
Proof.
  unfold within_tolerance, touched. intro H.
  destruct (find (same_key w i b) (inventory d)); [exact H|].
  cbn [inventory]. apply Forall_app. split; [exact H|].
  constructor; [|constructor]. unfold fresh_row, epsilon. cbn [inv_qty]. lra.
Qed.

Lemma updated_within_tolerance (id : Z) (q : Q) (d : db) :
  - epsilon <= q -> within_tolerance d -> within_tolerance (updated id q d).
Proof.
  unfold within_tolerance, updated. cbn [inventory]. intros Hq H.
  apply Forall_map. revert H. apply Forall_impl. intros r Hr.
  unfold update_row. destruct (inv_id r =? id)%Z; [exact Hq | exact Hr].
Qed.

Lemma adjusted_within_tolerance (w i : Z) (b : option Z) (q : Q) (d : db) :
  - epsilon <= q -> within_tolerance d -> within_tolerance (adjusted w i b q d).
Proof.
  intros Hq H. now apply updated_within_tolerance, touched_within_tolerance.
Qed.

Lemma on_hand_within_tolerance (d : db) (w i : Z) (b : option Z) :
  within_tolerance d -> - epsilon <= on_hand d w i b.
Proof.
  unfold within_tolerance, on_hand. intro H.
  destruct (find (same_key w i b) (inventory d)) as [r|] eqn:E.
  - apply find_some in E. destruct E as [Hin _].
    exact (proj1 (Forall_forall _ _) H r Hin).
  - unfold epsilon. lra.
Qed.

Lemma inventory_in_within_tolerance (w i : Z) (q : Q) (e : string) (rid : Z)
    (b : option Z) (now : string) (d d' : db) :
  0 <= q ->
  inventory_in w i q e rid b now d = Ok tt d' ->
  within_tolerance d -> within_tolerance d'.
Proof.
  rewrite inventory_in_eq. intros Hq H Hd.
  destruct (movement_no_taken _ _); [discriminate|].
  inversion H; subst d'. unfold within_tolerance, logged. cbn [inventory].
  apply adjusted_within_tolerance; [|exact Hd].
  pose proof (on_hand_within_tolerance d w i b Hd). lra.
Qed.

Lemma inventory_out_within_tolerance (w i : Z) (q : Q) (e : string) (rid : Z)
    (b : option Z) (now : string) (d d' : db) :
  inventory_out w i q e rid b now d = Ok tt d' ->
  within_tolerance d -> within_tolerance d'.
Proof.
  rewrite inventory_out_eq. intros H Hd.
  destruct (Qltb _ _) eqn:Eg; [discriminate|].
  destruct (movement_no_taken _ _); [discriminate|].
  inversion H; subst d'. unfold within_tolerance, logged. cbn [inventory].
  apply adjusted_within_tolerance; [|exact Hd].
  now apply Qltb_false.
Qed.

Lemma exec_within_tolerance (c : call) (d d' : db) :
  0 <= call_qty c ->
  exec c d = Ok tt d' -> within_tolerance d -> within_tolerance d'.
Proof.
  destruct c; cbn [exec call_qty]; intros Hq H Hd.
  - eapply inventory_in_within_tolerance; eassumption.
  - eapply inventory_out_within_tolerance; eassumption.
  - rewrite transfer_stock_eq in H.
    destruct (inventory_out _ _ _ _ _ _ _ d) as [[] d1|] eqn:E1; [|discriminate].
    destruct (inventory_in _ _ _ _ _ _ _ d1) as [[] d2|] eqn:E2; [|discriminate].
    destruct (movement_no_taken _ _); [discriminate|].
    inversion H; subst d'. unfold within_tolerance, logged. cbn [inventory].
    eapply inventory_in_within_tolerance; [exact Hq|exact E2|].
    eapply inventory_out_within_tolerance; eassumption.
Qed.

(** ** Rows of other keys *)

Lemma update_row_other_key (w i : Z) (b : option Z) (q : Q) (d : db) (r : inventory_row) :
  primary_key d ->
  In r (inventory (touched w i b d)) ->
  key_of r <> (w, i, b) ->
  update_row (inv_id (looked_up w i b d)) q r = r.
Proof.
  intros Hpk Hin Hne. unfold update_row.
  destruct (inv_id r =? inv_id (looked_up w i b d))%Z eqn:E; [|reflexivity].
  exfalso. apply Hne. apply Z.eqb_eq in E.
  assert (r = looked_up w i b d) as ->.
  { apply (NoDup_map_eq inv_id (inventory (touched w i b d))); auto.
    - now apply touched_primary_key.
    - apply looked_up_in. }
  apply same_key_iff, looked_up_key.
Qed.

Lemma in_touched_other (w i : Z) (b : option Z) (d : db) (r : inventory_row) :
  key_of r <> (w, i, b) ->
  (In r (inventory (touched w i b d)) <-> In r (inventory d)).
Proof.
  intro Hne. destruct (touched_rows w i b d) as [->|[_ ->]]; [tauto|].
  rewrite in_app_iff. cbn [In]. split; [|tauto].
  intros [H|[H|[]]]; [exact H|]. subst r. now exfalso.
Qed.

Lemma in_adjusted_other (w i : Z) (b : option Z) (q : Q) (d : db) (r : inventory_row) :
  primary_key d ->
  key_of r <> (w, i, b) ->
  (In r (inventory (adjusted w i b q d)) <-> In r (inventory d)).
Proof.
  intros Hpk Hne. rewrite <- (in_touched_other w i b d r Hne).
  unfold adjusted, updated. cbn [inventory]. rewrite in_map_iff. split.
  - intros [r0 [Hr0 Hin]].
    assert (Hk : key_of r0 <> (w, i, b)).
    { rewrite <- Hr0, key_of_update_row in Hne. exact Hne. }
    rewrite (update_row_other_key w i b q d r0 Hpk Hin Hk) in Hr0. now subst.
  - intro Hin. exists r. split; [|exact Hin].
    now apply update_row_other_key.
Qed.

(** ** The effect of a leg that returns *)

Lemma leg_effect_intro (d : db) (w i : Z) (b : option Z) (q : Q) (m : stock_movement) :
  primary_key d ->
  leg_effect d (logged m (adjusted w i b q d)) w i b q m.
Proof.
  intro Hpk. split.
  - rewrite on_hand_logged. apply on_hand_adjusted_key.
  - intros. rewrite on_hand_logged. now apply on_hand_adjusted_other.
  - intros r Hne. unfold logged. cbn [inventory]. now apply in_adjusted_other.
  - unfold logged. cbn [stock_movements]. now rewrite adjusted_log.
  - now apply logged_primary_key, adjusted_primary_key.
Qed.


Lemma inventory_in_ok_inv (w i : Z) (q : Q) (e : string) (rid : Z)
    (b : option Z) (now : string) (d d' : db) :
  inventory_in w i q e rid b now d = Ok tt d' ->
  movement_no_taken (now_ts_id "MIN" now) (stock_movements d) = false
  /\ d' = logged (in_record d w i q e rid b now)
            (adjusted w i b (on_hand d w i b + q) d).
Proof.
  rewrite inventory_in_eq.
  destruct (movement_no_taken _ _); [discriminate|].
  intro H. now inversion H.
Qed.


Lemma inventory_out_ok_inv (w i : Z) (q : Q) (e : string) (rid : Z)
    (b : option Z) (now : string) (d d' : db) :
  inventory_out w i q e rid b now d = Ok tt d' ->
  - epsilon <= on_hand d w i b - q
  /\ movement_no_taken (now_ts_id "MOUT" now) (stock_movements d) = false
  /\ d' = logged (out_record d w i q e rid b now)
            (adjusted w i b (on_hand d w i b - q) d).
Proof.
  rewrite inventory_out_eq.
  destruct (Qltb _ _) eqn:Eg; [discriminate|].
  destruct (movement_no_taken _ _); [discriminate|].
  intro H. apply Qltb_false in Eg. now inversion H.
Qed.


Lemma transfer_stock_ok_inv (f t i : Z) (q : Q) (rsn n1 n2 n3 : string) (d d' : db) :
  transfer_stock f t i q rsn n1 n2 n3 d = Ok tt d' ->
  exists d1 d2,
    inventory_out f i q "TRANSFER" 0 None n1 d = Ok tt d1
    /\ inventory_in t i q "TRANSFER" 0 None n2 d1 = Ok tt d2
    /\ movement_no_taken (now_ts_id "MTR" n3) (stock_movements d2) = false
    /\ d' = logged (transfer_record d2 f t i q rsn n3) d2.
Proof.
  rewrite transfer_stock_eq. intro H.
  destruct (inventory_out _ _ _ _ _ _ _ d) as [[] d1|] eqn:E1; [|discriminate].
  destruct (inventory_in _ _ _ _ _ _ _ d1) as [[] d2|] eqn:E2; [|discriminate].
  destruct (movement_no_taken _ _) eqn:E3; [discriminate|].
  exists d1, d2. now inversion H.
Qed.

Lemma filter_find_none {A : Type} (p : A -> bool) (l : list A) :
  find p l = None -> filter p l = [].
Proof.
  induction l as [|a l IH]; cbn [find filter]; [reflexivity|].
  destruct (p a); [discriminate | exact IH].
Qed.

Lemma filter_find_some {A : Type} (p : A -> bool) (l : list A) (x : A) :
  find p l = Some x -> (1 <= List.length (filter p l))%nat.
Proof.
  induction l as [|a l IH]; cbn [find filter]; [discriminate|].
  destruct (p a); cbn [List.length]; [lia | exact IH].
Qed.

(** ** Transactions of one call *)



(** ** Movement numbers *)

Lemma movement_no_taken_snoc (no : string) (log : list stock_movement) (m : stock_movement) :
  movement_no_taken no (log ++ [m])
  = movement_no_taken no log || String.eqb (movement_no m) no.
Proof.
  unfold movement_no_taken. rewrite existsb_app. cbn [existsb].
  now rewrite orb_false_r.
Qed.

(** The three prefixes keep the numbers of the three kinds apart. *)
Lemma prefix_out_in (a b : string) :
  String.eqb (now_ts_id "MOUT" a) (now_ts_id "MIN" b) = false.
Proof. reflexivity. Qed.

Lemma prefix_out_tr (a b : string) :
  String.eqb (now_ts_id "MOUT" a) (now_ts_id "MTR" b) = false.
Proof. reflexivity. Qed.

Lemma prefix_in_tr (a b : string) :
  String.eqb (now_ts_id "MIN" a) (now_ts_id "MTR" b) = false.
Proof. reflexivity. Qed.


Lemma now_ts_id_eqb (prefix a b : string) :
  String.eqb (now_ts_id prefix a) (now_ts_id prefix b) = String.eqb a b.
Proof.
  unfold now_ts_id. induction prefix as [|c prefix IH]; cbn.
  - reflexivity.
  - now rewrite Ascii.eqb_refl, IH.
Qed.

Lemma now_ts_id_other_second (prefix a b : string) :
  a <> b -> String.eqb (now_ts_id prefix a) (now_ts_id prefix b) = false.
Proof. intro H. rewrite now_ts_id_eqb. now apply String.eqb_neq. Qed.

(** * The claims *)

(** ** Replay equivalence *)



(** ** Non-negativity *)

(** C3, as stated, fails: the engine checks no quantity, so a receipt of a
    negative quantity leaves the row below the tolerance. *)
Lemma negative_receipt_below_tolerance :
  In (mk_inventory_row 1 1 1 None (-5))
     (inventory (run [[IN 1 1 (-5) "GRN" 1 None "20260101000000"]] empty_db))
  /\ inv_qty (mk_inventory_row 1 1 1 None (-5)) < - epsilon.
Proof.
  split.
  - vm_compute. left. reflexivity.
  - reflexivity.
Qed.

(** C3, amended.  Starting from the empty ledger, no sequence of
    transactions of IN, OUT and TRANSFER calls whose quantities are all
    non-negative leaves a row of [inventory] below [- 1e-6]. *)
Theorem non_negativity (txs : list (list call)) (r : inventory_row) :
  nonneg_quantities txs ->
  In r (inventory (run txs empty_db)) ->
  ~ inv_qty r < - epsilon.
Proof.
  intros Hq Hin.
  assert (H : within_tolerance (run txs empty_db)).
  { apply (run_preserves within_tolerance (fun c => 0 <= call_qty c)).
    - intros c d d'. apply exec_within_tolerance.
    - exact Hq.
    - exact within_tolerance_empty. }
  apply Qle_not_lt. exact (proj1 (Forall_forall _ _) H r Hin).
Qed.

Lemma non_negativity_witness :
  ~ inv_qty (mk_inventory_row 1 1 1 None 30) < - epsilon.
Proof.
  apply (non_negativity
           [[IN 1 1 50 "GRN" 1 None "20260101000000"];
            [OUT 1 1 20 "DO" 1 None "20260101000001"]]
           (mk_inventory_row 1 1 1 None 30)).
  - repeat constructor; discriminate.
  - vm_compute. left. reflexivity.
Defined.

(** ** Atomicity of a transfer whose OUT leg fails *)

(** C4.  When the OUT leg of a transfer raises InsufficientStock, the
    transfer raises it too, on the connection the OUT leg left: the IN leg
    and the TRANSFER record are never reached.  On that connection the log
    is the one before the call and every key has the quantity it had; the
    only row that can be new is the zero row the lookup created for a source
    key that had none.  The caller's transaction rolls back, and the
    database is exactly the one before the call. *)
Theorem transfer_atomicity (f t i : Z) (q : Q) (rsn n1 n2 n3 : string)
    (d c : db) (e_item e_wh : Z) (has req : Q) :
  inventory_out f i q "TRANSFER" 0 None n1 d
    = Raise (InsufficientStock e_item e_wh has req) c ->
  transfer_stock f t i q rsn n1 n2 n3 d
    = Raise (InsufficientStock e_item e_wh has req) c
  /\ stock_movements c = stock_movements d
  /\ same_on_hand d c
  /\ (inventory c = inventory d
      \/ inventory c = inventory d ++ [fresh_row f i None d])
  /\ transaction [TRANSFER f t i q rsn n1 n2 n3] d
       = (inl (InsufficientStock e_item e_wh has req), d).
Proof.
  intro Hout.
  assert (Htr : transfer_stock f t i q rsn n1 n2 n3 d
                = Raise (InsufficientStock e_item e_wh has req) c).
  { rewrite transfer_stock_eq, Hout. reflexivity. }
  assert (Hc : c = touched f i None d).
  { rewrite inventory_out_eq in Hout.
    destruct (Qltb _ _); [now inversion Hout|].
    destruct (movement_no_taken _ _); discriminate. }
  split; [exact Htr|]. subst c.
  split; [apply touched_log|].
  split; [apply touched_on_hand|].
  split.
  - destruct (touched_rows f i None d) as [H|[_ H]]; auto.
  - unfold transaction, engine_begin. cbn [exec_all exec]. unfold bind.
    rewrite Htr. reflexivity.
Qed.

Lemma transfer_atomicity_witness :
  transfer_stock 1 2 1 30 "TRANSFER" "20260101000002" "20260101000002"
    "20260101000002" empty_db
    = Raise (InsufficientStock 1 1 0 30) (touched 1 1 None empty_db)
  /\ stock_movements (touched 1 1 None empty_db) = stock_movements empty_db
  /\ same_on_hand empty_db (touched 1 1 None empty_db)
  /\ (inventory (touched 1 1 None empty_db) = inventory empty_db
      \/ inventory (touched 1 1 None empty_db)
         = inventory empty_db ++ [fresh_row 1 1 None empty_db])
  /\ transaction
       [TRANSFER 1 2 1 30 "TRANSFER" "20260101000002" "20260101000002"
          "20260101000002"] empty_db
       = (inl (InsufficientStock 1 1 0 30), empty_db).
Proof.
  apply (transfer_atomicity 1 2 1 30 "TRANSFER" "20260101000002"
           "20260101000002" "20260101000002" empty_db
           (touched 1 1 None empty_db) 1 1 0 30).
  reflexivity.
Defined.

(** ** Conservation by a transfer *)



(** ** Lookup *)

(** C8.  [get_or_create_inv] returns a row of the key, and a second call
    with the same key returns that same row (same id) and writes nothing.
    When the key had a row, the first call returns it and writes nothing
    either; when it had none, the first call appends one row of the key at
    quantity 0.  The key never gets a second row, the rows that were there
    stay as they were, and the log is not touched. *)
Theorem get_or_create_idempotent (w i : Z) (b : option Z) (d : db) :
  exists r d1,
    get_or_create_inv w i b d = Ok (Some r) d1
    /\ get_or_create_inv w i b d1 = Ok (Some r) d1
    /\ key_of r = (w, i, b)
    /\ rows_with_key w i b d1 = Nat.max 1 (rows_with_key w i b d)
    /\ match find (same_key w i b) (inventory d) with
       | Some r0 => r = r0 /\ d1 = d
       | None => inv_qty r = 0 /\ inventory d1 = inventory d ++ [r]
       end
    /\ stock_movements d1 = stock_movements d
    /\ (forall r', In r' (inventory d) -> In r' (inventory d1))
    /\ same_on_hand d d1.
Proof.
  exists (looked_up w i b d), (touched w i b d).
  split; [apply get_or_create_inv_eq|].
  split.
  { rewrite get_or_create_inv_eq.
    now rewrite (looked_up_found _ _ _ _ _ (find_touched w i b d)),
      (touched_found _ _ _ _ _ (find_touched w i b d)). }
  split; [apply same_key_iff, looked_up_key|].
  split.
  { unfold rows_with_key, touched.
    destruct (find (same_key w i b) (inventory d)) as [r0|] eqn:E.
    - apply filter_find_some in E. lia.
    - cbn [inventory]. rewrite filter_app, (filter_find_none _ _ E).
      cbn [filter app]. unfold fresh_row. now rewrite same_key_new. }
  split.
  { unfold looked_up, touched.
    destruct (find (same_key w i b) (inventory d)); auto. }
  split; [apply touched_log|].
  split; [|apply touched_on_hand].
  intros r' Hr'. destruct (touched_rows w i b d) as [->|[_ ->]]; [exact Hr'|].
  apply in_or_app. now left.
Qed.

(** ** The reason of an IN record *)

(** C9, as stated, fails: a receipt called with reference entity TRANSFER,
    as [transfer_stock] calls it, records the reason GRN, the same reason a
    receipt called with reference entity GRN records. *)
Lemma in_reason_ignores_ref_entity :
  map (fun m => (reason m, ref_entity m))
      (stock_movements
         (snd (transaction [IN 2 1 30 "TRANSFER" 0 None "20260101000000"]
                 empty_db)))
  = [("GRN"%string, "TRANSFER"%string)]
  /\ map (fun m => (reason m, ref_entity m))
         (stock_movements
            (snd (transaction [IN 2 1 30 "GRN" 7 None "20260101000000"]
                    empty_db)))
     = [("GRN"%string, "GRN"%string)].
Proof. split; reflexivity. Qed.

(** C9, amended.  Every record a returning [inventory_in] appends is an IN
    record whose reason is the constant GRN; the reference entity type of
    the call is recorded in [ref_entity], next to the reference id. *)
Theorem in_reason_is_grn (w i : Z) (q : Q) (e : string) (rid : Z)
    (b : option Z) (now : string) (d d' : db) :
  inventory_in w i q e rid b now d = Ok tt d' ->
  exists m,
    stock_movements d' = stock_movements d ++ [m]
    /\ mv_type m = MT_IN
    /\ reason m = "GRN"%string
    /\ ref_entity m = e
    /\ ref_id m = rid.
Proof.
  intro H. apply inventory_in_ok_inv in H. destruct H as [_ ->].
  exists (in_record d w i q e rid b now).
  unfold logged. cbn [stock_movements]. rewrite adjusted_log.
  repeat split.
Qed.

Lemma in_reason_is_grn_witness :
  exists m,
    stock_movements
      (conn_of (inventory_in 2 1 30 "TRANSFER" 0 None "20260101000005" stocked_db))
    = stock_movements stocked_db ++ [m]
    /\ mv_type m = MT_IN
    /\ reason m = "GRN"%string
    /\ ref_entity m = "TRANSFER"%string
    /\ ref_id m = 0%Z.
Proof.
  apply (in_reason_is_grn 2 1 30 "TRANSFER" 0 None "20260101000005" stocked_db).
  vm_compute. reflexivity.
Defined.

(** ** Receipts of any quantity *)




(** ** Issues: the three outcomes of [inventory_out] *)










(** C1, at its failing input.  Warehouse 1 holds fifty of item 1.  An issue
    of twenty is recorded at 2026-01-01 00:00:01; a second issue of five,
    which the remaining thirty cover, reads the clock in the same second.
    Its movement number repeats the first one and the [INSERT] raises
    IntegrityError: nothing is persisted and no record is appended.  The
    same happens to the two lines of one delivery shipped in one
    transaction. *)
Theorem second_issue_in_one_second_raises :
  let d1 := snd (transaction [OUT 1 1 20 "DO" 1 None "20260101000001"] stocked_db) in
  on_hand d1 1 1 None == 30
  /\ - epsilon <= on_hand d1 1 1 None - 5
  /\ transaction [OUT 1 1 5 "DO" 1 None "20260101000001"] d1
     = (inl IntegrityError, d1)
  /\ transaction [OUT 1 1 20 "DO" 1 None "20260101000001";
                  OUT 1 1 5 "DO" 1 None "20260101000001"] stocked_db
     = (inl IntegrityError, stocked_db).
Proof.
  cbv zeta. split; [reflexivity|].
  split; [vm_compute; discriminate|].
  split; reflexivity.
Qed.

(** ** Transfers within one warehouse *)




(** C10, at its failing input.  Warehouse 1 holds fifty of item 1.  A
    transfer of five from warehouse 1 to itself at 2026-01-01 00:00:02
    returns, leaves fifty on hand and appends three records; a second such
    transfer in the same second, which the stock covers as well, repeats the
    movement number of the first OUT leg and raises IntegrityError. *)
Theorem second_transfer_in_one_second_raises :
  let t := "20260101000002"%string in
  let r1 := transaction [TRANSFER 1 1 1 5 "TRANSFER" t t t] stocked_db in
  fst r1 = inr tt
  /\ on_hand (snd r1) 1 1 None == 50
  /\ List.length (stock_movements (snd r1))
     = (List.length (stock_movements stocked_db) + 3)%nat
  /\ - epsilon <= on_hand (snd r1) 1 1 None - 5
  /\ transaction [TRANSFER 1 1 1 5 "TRANSFER" t t t] (snd r1)
     = (inl IntegrityError, snd r1).
Proof.
  cbv zeta. split; [reflexivity|].
  split; [reflexivity|].
  split; [reflexivity|].
  split; [vm_compute; discriminate|].
  reflexivity.
Qed.

(** ** The scenario *)

Lemma after_receipt_eq (t1 : string) :
  after_receipt t1
  = mk_db [mk_inventory_row 1 1 1 None 50]
          [mk_stock_movement 1 (now_ts_id "MIN" t1) MT_IN 1 None 1 None 50
             "GRN" "GRN" 1].
Proof. reflexivity. Qed.







(** * Further properties of the engine *)

(** ** What a transaction that returns does, call by call *)

Lemma at_key_refl (w i : Z) (b : option Z) : at_key w i b w i b = true.
Proof. unfold at_key. now rewrite !Z.eqb_refl, option_Z_eqb_refl. Qed.

Lemma at_key_other (w0 i0 : Z) (b0 : option Z) (w i : Z) (b : option Z) :
  (w, i, b) <> (w0, i0, b0) -> at_key w0 i0 b0 w i b = false.
Proof. intro H. unfold at_key. now apply key_test_other. Qed.






(** ** The stock as a whole *)

Lemma sum_qty_snoc (l : list inventory_row) (x : inventory_row) :
  fold_right (fun r acc => inv_qty r + acc) 0 (l ++ [x])
  == fold_right (fun r acc => inv_qty r + acc) 0 l + inv_qty x.
Proof.
  induction l as [|a l IH]; cbn [app fold_right].
  - lra.
  - rewrite IH. lra.
Qed.

Lemma update_row_absent (id : Z) (q : Q) (l : list inventory_row) :
  ~ In id (map inv_id l) -> map (update_row id q) l = l.
Proof.
  induction l as [|a l IH]; cbn [map In]; intro H.
  - reflexivity.
  - rewrite IH by tauto. unfold update_row.
    destruct (inv_id a =? id)%Z eqn:E; [|reflexivity].
    apply Z.eqb_eq in E. tauto.
Qed.

Lemma sum_qty_update (id : Z) (q : Q) (l : list inventory_row) (r : inventory_row) :
  NoDup (map inv_id l) -> In r l -> inv_id r = id ->
  fold_right (fun r acc => inv_qty r + acc) 0 (map (update_row id q) l)
  == fold_right (fun r acc => inv_qty r + acc) 0 l - inv_qty r + q.
Proof.
  induction l as [|a l IH]; cbn [map In fold_right]; intros Hnd Hin Hid.
  - contradiction.
  - inversion Hnd as [|? ? Hnotin Hnd']; subst.
    destruct Hin as [->|Hin].
    + rewrite (update_row_absent _ _ _ Hnotin). unfold update_row.
      rewrite Z.eqb_refl. cbn [set_qty inv_qty]. lra.
    + rewrite (IH Hnd' Hin eq_refl). unfold update_row.
      destruct (inv_id a =? inv_id r)%Z eqn:E; [|lra].
      exfalso. apply Hnotin. apply Z.eqb_eq in E. rewrite E. now apply in_map.
Qed.

Lemma total_stock_touched (w i : Z) (b : option Z) (d : db) :
  total_stock (touched w i b d) == total_stock d.
Proof.
  unfold total_stock, touched.
  destruct (find (same_key w i b) (inventory d)); [reflexivity|].
  cbn [inventory]. rewrite sum_qty_snoc. cbn [fresh_row inv_qty]. lra.
Qed.

Lemma total_stock_adjusted (w i : Z) (b : option Z) (q : Q) (d : db) :
  primary_key d ->
  total_stock (adjusted w i b q d) == total_stock d - on_hand d w i b + q.
Proof.
  intro Hpk. rewrite <- (total_stock_touched w i b d), <- looked_up_qty.
  unfold total_stock, adjusted, updated. cbn [inventory].
  apply sum_qty_update.
  - now apply touched_primary_key.
  - apply looked_up_in.
  - reflexivity.
Qed.



(** ** Nothing is deleted or rewritten *)

Lemma extends_refl (d : db) : extends d d.
Proof. split; exists []; now rewrite app_nil_r. Qed.

Lemma extends_trans (d1 d2 d3 : db) : extends d1 d2 -> extends d2 d3 -> extends d1 d3.
Proof.
  intros [[l1 H1] [r1 G1]] [[l2 H2] [r2 G2]]. split.
  - exists (l1 ++ l2). now rewrite H2, H1, app_assoc.
  - exists (r1 ++ r2). now rewrite G2, G1, app_assoc.
Qed.

Lemma row_identity_update_row (id : Z) (q : Q) (r : inventory_row) :
  row_identity (update_row id q r) = row_identity r.
Proof. unfold row_identity. now rewrite inv_id_update_row, key_of_update_row. Qed.

Lemma extends_adjusted (w i : Z) (b : option Z) (q : Q) (d : db) :
  extends d (adjusted w i b q d).
Proof.
  split.
  - exists []. now rewrite adjusted_log, app_nil_r.
  - unfold adjusted, updated. cbn [inventory]. rewrite map_map.
    rewrite (map_ext _ row_identity) by (intro; apply row_identity_update_row).
    destruct (touched_rows w i b d) as [->|[_ ->]].
    + exists []. now rewrite app_nil_r.
    + rewrite map_app. now eexists.
Qed.

Lemma extends_logged (m : stock_movement) (d : db) : extends d (logged m d).
Proof.
  split.
  - now exists [m].
  - exists []. now rewrite app_nil_r.
Qed.

Lemma extends_leg (w i : Z) (b : option Z) (q : Q) (m : stock_movement) (d : db) :
  extends d (logged m (adjusted w i b q d)).
Proof.
  apply (extends_trans d (adjusted w i b q d)).
  - apply extends_adjusted.
  - apply extends_logged.
Qed.

Lemma exec_extends (c : call) (d d' : db) : exec c d = Ok tt d' -> extends d d'.
Proof.
  intro H. destruct c; cbn [exec] in H.
  - apply inventory_in_ok_inv in H. destruct H as [_ ->]. apply extends_leg.
  - apply inventory_out_ok_inv in H. destruct H as [_ [_ ->]]. apply extends_leg.
  - apply transfer_stock_ok_inv in H. destruct H as [d1 [d2 [H1 [H2 [_ ->]]]]].
    apply inventory_out_ok_inv in H1. destruct H1 as [_ [_ H1]].
    apply inventory_in_ok_inv in H2. destruct H2 as [_ H2].
    apply (extends_trans d d1); [rewrite H1; apply extends_leg|].
    apply (extends_trans d1 d2); [rewrite H2; apply extends_leg|].
    apply extends_logged.
Qed.

(** ** Movement numbers and the unique constraints *)

Lemma movement_no_taken_false (no : string) (log : list stock_movement) :
  movement_no_taken no log = false <-> ~ In no (map movement_no log).
Proof.
  unfold movement_no_taken. induction log as [|m log IH]; cbn [existsb map In].
  - tauto.
  - rewrite orb_false_iff, IH, String.eqb_neq. tauto.
Qed.

Lemma constraints_empty : constraints empty_db.
Proof. split; constructor. Qed.

Lemma constraints_logged (m : stock_movement) (d : db) :
  constraints d ->
  mv_id m = next_id (map mv_id (stock_movements d)) ->
  movement_no_taken (movement_no m) (stock_movements d) = false ->
  constraints (logged m d).
Proof.
  intros [H1 H2 H3] Hid Hno. split; unfold logged; cbn [inventory stock_movements].
  - exact H1.
  - rewrite map_app. cbn [map]. apply NoDup_snoc; [exact H2|].
    rewrite Hid. apply next_id_fresh.
  - rewrite map_app. cbn [map]. apply NoDup_snoc; [exact H3|].
    now apply movement_no_taken_false.
Qed.

Lemma constraints_adjusted (w i : Z) (b : option Z) (q : Q) (d : db) :
  constraints d -> constraints (adjusted w i b q d).
Proof.
  intros [H1 H2 H3]. split.
  - now apply adjusted_primary_key.
  - now rewrite adjusted_log.
  - now rewrite adjusted_log.
Qed.

Lemma constraints_leg (w i : Z) (b : option Z) (q : Q) (m : stock_movement) (d : db) :
  constraints d ->
  mv_id m = next_id (map mv_id (stock_movements d)) ->
  movement_no_taken (movement_no m) (stock_movements d) = false ->
  constraints (logged m (adjusted w i b q d)).
Proof.
  intros Hc Hid Hno. apply constraints_logged.
  - now apply constraints_adjusted.
  - now rewrite adjusted_log.
  - now rewrite adjusted_log.
Qed.

Lemma exec_constraints (c : call) (d d' : db) :
  exec c d = Ok tt d' -> constraints d -> constraints d'.
Proof.
  intros H Hc. destruct c; cbn [exec] in H.
  - apply inventory_in_ok_inv in H. destruct H as [Hno ->].
    now apply constraints_leg.
  - apply inventory_out_ok_inv in H. destruct H as [_ [Hno ->]].
    now apply constraints_leg.
  - apply transfer_stock_ok_inv in H. destruct H as [d1 [d2 [H1 [H2 [H3 ->]]]]].
    apply inventory_out_ok_inv in H1. destruct H1 as [_ [Hno1 ->]].
    apply inventory_in_ok_inv in H2. destruct H2 as [Hno2 ->].
    apply constraints_logged; [|reflexivity|exact H3].
    apply constraints_leg; [|reflexivity|exact Hno2].
    now apply constraints_leg.
Qed.

(** The numbers a returning call generates were not in the log, differ
    from one another, and are what the call adds to the numbers of the
    log. *)
Lemma exec_numbers (c : call) (d d' : db) :
  exec c d = Ok tt d' ->
  map movement_no (stock_movements d')
  = map movement_no (stock_movements d) ++ call_numbers c
  /\ NoDup (call_numbers c)
  /\ forall n, In n (call_numbers c) -> ~ In n (map movement_no (stock_movements d)).
Proof.
  intro H. destruct c as [w0 i0 q e r b0 now|w0 i0 q e r b0 now|f t i0 q rsn n1 n2 n3];
    cbn [exec call_numbers] in *.
  - apply inventory_in_ok_inv in H. destruct H as [Hno ->].
    unfold logged. cbn [stock_movements]. rewrite adjusted_log, map_app.
    split; [reflexivity|]. split; [repeat constructor; intros []|].
    intros n [<-|[]]. now apply movement_no_taken_false.
  - apply inventory_out_ok_inv in H. destruct H as [_ [Hno ->]].
    unfold logged. cbn [stock_movements]. rewrite adjusted_log, map_app.
    split; [reflexivity|]. split; [repeat constructor; intros []|].
    intros n [<-|[]]. now apply movement_no_taken_false.
  - apply transfer_stock_ok_inv in H. destruct H as [d1 [d2 [H1 [H2 [H3 ->]]]]].
    apply inventory_out_ok_inv in H1. destruct H1 as [_ [Hno1 ->]].
    apply inventory_in_ok_inv in H2. destruct H2 as [Hno2 ->].
    unfold logged in Hno2, H3 |- *. cbn [stock_movements] in Hno2, H3 |- *.
    rewrite adjusted_log in Hno2, H3 |- *. cbn [stock_movements] in H3 |- *.
    rewrite adjusted_log in H3 |- *.
    rewrite !map_app. cbn [map in_record out_record transfer_record movement_no].
    rewrite <- !app_assoc. cbn [app].
    split; [reflexivity|].
    apply movement_no_taken_false in Hno1.
    apply movement_no_taken_false in Hno2.
    apply movement_no_taken_false in H3.
    rewrite !map_app, !in_app_iff in Hno2, H3.
    cbn [map In movement_no out_record in_record] in Hno2, H3.
    split.
    + constructor.
      * cbn [In]. intros [E|[E|[]]]; [|]; apply (f_equal (fun s => String.eqb (now_ts_id "MOUT" n1) s)) in E;
          rewrite String.eqb_refl in E; discriminate.
      * constructor.
        -- cbn [In]. intros [E|[]].
           apply (f_equal (fun s => String.eqb (now_ts_id "MIN" n2) s)) in E.
           rewrite String.eqb_refl in E. discriminate.
        -- repeat constructor. intros [].
    + rewrite map_app, in_app_iff in H3.
      intros n [<-|[<-|[<-|[]]]]; tauto.
Qed.

Lemma exec_all_numbers (cs : list call) (d d' : db) :
  exec_all cs d = Ok tt d' ->
  map movement_no (stock_movements d')
  = map movement_no (stock_movements d) ++ flat_map call_numbers cs
  /\ NoDup (flat_map call_numbers cs)
  /\ forall n, In n (flat_map call_numbers cs) ->
               ~ In n (map movement_no (stock_movements d)).
Proof.
  revert d. induction cs as [|c cs IH]; intros d H.
  - inversion H; subst. cbn. rewrite app_nil_r. repeat split; [constructor | tauto].
  - cbn [exec_all] in H. unfold bind in H.
    destruct (exec c d) as [[] d1|] eqn:E; [|discriminate].
    destruct (exec_numbers c d d1 E) as [Hm [Hnd Hfresh]].
    destruct (IH d1 H) as [Hm' [Hnd' Hfresh']].
    cbn [flat_map]. rewrite Hm', Hm, <- app_assoc.
    split; [reflexivity|]. split.
    + apply NoDup_app; [exact Hnd | exact Hnd' |].
      intros n Hn Hn'. apply (Hfresh' n Hn'). rewrite Hm. apply in_or_app. now right.
    + intros n Hn. apply in_app_or in Hn. destruct Hn as [Hn|Hn].
      * now apply Hfresh.
      * intro Hin. apply (Hfresh' n Hn). rewrite Hm. apply in_or_app. now left.
Qed.

Lemma exec_all_extends (cs : list call) (d d' : db) :
  exec_all cs d = Ok tt d' -> extends d d'.
Proof.
  revert d. induction cs as [|c cs IH]; intros d H.
  - inversion H. apply extends_refl.
  - cbn [exec_all] in H. unfold bind in H.
    destruct (exec c d) as [[] d1|] eqn:E; [|discriminate].
    apply (extends_trans d d1); [exact (exec_extends c d d1 E) | now apply IH].
Qed.

Lemma transaction_ok_inv (cs : list call) (d d' : db) :
  transaction cs d = (inr tt, d') -> exec_all cs d = Ok tt d'.
Proof.
  unfold transaction, engine_begin.
  destruct (exec_all cs d) as [[] d1|]; intro H; inversion H. reflexivity.
Qed.

(** ** Extras on the engine *)





(** No sequence of transactions deletes, reorders or rewrites a movement
    record, and none deletes a row of [inventory] or changes its id or its
    key: the log before is the beginning of the log after, and the rows
    before, with their ids and keys, are the first rows after. *)
Theorem run_only_appends (txs : list (list call)) (d : db) :
  extends d (run txs d).
Proof.
  revert d. unfold run. induction txs as [|tx txs IH]; intro d; cbn [fold_left].
  - apply extends_refl.
  - apply (extends_trans d (snd (transaction tx d))); [|apply IH].
    unfold transaction, engine_begin.
    destruct (exec_all tx d) as [[] d1|] eqn:E; cbn [snd].
    + now apply (exec_all_extends tx).
    + apply extends_refl.
Qed.

(** A transaction returns only if the movement numbers its calls generate
    are pairwise distinct and none of them was in the log: two receipts, or
    two issues, of one transaction that read the clock in the same second
    make it raise. *)
Theorem returning_transaction_has_distinct_numbers (cs : list call) (d d' : db) :
  transaction cs d = (inr tt, d') ->
  NoDup (flat_map call_numbers cs)
  /\ (forall n, In n (flat_map call_numbers cs) ->
                movement_no_taken n (stock_movements d) = false)
  /\ map movement_no (stock_movements d')
     = map movement_no (stock_movements d) ++ flat_map call_numbers cs.
Proof.
  intro H. apply transaction_ok_inv in H.
  destruct (exec_all_numbers cs d d' H) as [Hm [Hnd Hfresh]].
  split; [exact Hnd|]. split; [|exact Hm].
  intros n Hn. apply movement_no_taken_false. now apply Hfresh.
Qed.

Lemma returning_transaction_has_distinct_numbers_witness :
  let cs := [OUT 1 1 20 "DO" 1 None "20260101000001";
             OUT 1 1 5 "DO" 1 None "20260101000002"] in
  let d' := snd (transaction cs stocked_db) in
  NoDup (flat_map call_numbers cs)
  /\ (forall n, In n (flat_map call_numbers cs) ->
                movement_no_taken n (stock_movements stocked_db) = false)
  /\ map movement_no (stock_movements d')
     = map movement_no (stock_movements stocked_db) ++ flat_map call_numbers cs.
Proof.
  apply (returning_transaction_has_distinct_numbers
           [OUT 1 1 20 "DO" 1 None "20260101000001";
            OUT 1 1 5 "DO" 1 None "20260101000002"] stocked_db).
  reflexivity.
Defined.

(** In every database reached from the empty one, the unique constraints
    hold: no two rows of [inventory] share an id or a (warehouse, item,
    bin) key, and no two movement records share an id or a movement
    number. *)
Theorem reachable_databases_keep_constraints (txs : list (list call)) :
  constraints (run txs empty_db) /\ keys_unique (run txs empty_db).
Proof.
  split.
  - apply (run_preserves constraints (fun _ => True)).
    + intros c d d' _. apply exec_constraints.
    + apply Forall_Forall_True.
    + exact constraints_empty.
  - exact (li_keys_unique _ (run_ledger_inv txs)).
Qed.



(** * The callers *)

(** ** Shipping a delivery *)

Section Shipping.

Import Deliveries.

Lemma map_snd_indexed_from {X} (k : nat) (xs : list X) :
  map snd (indexed_from k xs) = xs.
Proof.
  revert k. induction xs as [|x xs IH]; intro k; cbn; [reflexivity|].
  now rewrite IH.
Qed.

Lemma map_fst_indexed_from {X} (k : nat) (xs : list X) :
  map fst (indexed_from k xs) = seq k (List.length xs).
Proof.
  revert k. induction xs as [|x xs IH]; intro k; cbn; [reflexivity|].
  now rewrite IH.
Qed.

(** The loop of [ship] is the engine running the calls of the lines. *)
Lemma ship_loop_eq (wh_id do_cur : Z) (clock : nat -> string)
    (kls : list (nat * delivery_item_row)) (s : delivery_db) :
  for_each kls
    (fun kl =>
       on_ledger ledger put_ledger
         (inventory_out wh_id (di_item_id (snd kl)) (di_qty (snd kl))
            "DO" do_cur None (clock (fst kl)))) s
  = on_ledger ledger put_ledger (exec_all (ship_calls wh_id do_cur clock kls)) s.
Proof.
  revert s. induction kls as [|kl kls IH]; intros [d dels items].
  - reflexivity.
  - cbn [for_each ship_calls map exec_all exec]. unfold sbind, bind, on_ledger at 1 3.
    cbn [ledger].
    destruct (inventory_out _ _ _ _ _ _ _ d) as [[] d1|e d1]; [|reflexivity].
    rewrite IH. unfold on_ledger. reflexivity.
Qed.

Lemma ship_button_eq (wh_id do_cur : Z) (clock : nat -> string) (s : delivery_db) :
  ship_button wh_id do_cur clock s
  = match exec_all (ship_calls wh_id do_cur clock
                      (indexed_from 0 (lines_of do_cur s))) (ledger s) with
    | Ok _ d' =>
        (inr tt,
         mk_delivery_db d'
           (map (fun r => if (del_id r =? do_cur)%Z
                          then set_status DS_shipped r else r) (deliveries s))
           (delivery_items s))
    | Raise e _ => (inl e, s)
    end.
Proof.
  unfold ship_button, begin, ship, sbind, select_delivery_items.
  rewrite ship_loop_eq. unfold on_ledger, lines_of.
  destruct (exec_all _ (ledger s)) as [[] d'|e d']; reflexivity.
Qed.






End Shipping.

Section ShippingFacts.

Import Deliveries.

Lemma ship_calls_numbers (wh_id do_cur : Z) (clock : nat -> string)
    (kls : list (nat * delivery_item_row)) :
  flat_map call_numbers (ship_calls wh_id do_cur clock kls)
  = map (fun kl => now_ts_id "MOUT" (clock (fst kl))) kls.
Proof.
  induction kls as [|kl kls IH]; cbn [ship_calls map flat_map call_numbers app].
  - reflexivity.
  - fold (ship_calls wh_id do_cur clock kls). now rewrite IH.
Qed.

Lemma ship_ok_inv (wh_id do_cur : Z) (clock : nat -> string) (s s' : delivery_db) :
  ship_button wh_id do_cur clock s = (inr tt, s') ->
  exec_all (ship_calls wh_id do_cur clock (indexed_from 0 (lines_of do_cur s)))
    (ledger s) = Ok tt (ledger s')
  /\ delivery_items s' = delivery_items s
  /\ deliveries s'
     = map (fun r => if (del_id r =? do_cur)%Z then set_status DS_shipped r else r)
         (deliveries s).
Proof.
  rewrite ship_button_eq.
  destruct (exec_all _ (ledger s)) as [[] d'|e d']; intro H; inversion H.
  repeat split.
Qed.






(** A delivery without lines ships: the button returns, the delivery is
    marked shipped and the ledger is exactly as it was. *)
Theorem empty_delivery_ships (wh_id do_cur : Z) (clock : nat -> string)
    (s : delivery_db) :
  lines_of do_cur s = [] ->
  exists s',
    ship_button wh_id do_cur clock s = (inr tt, s')
    /\ ledger s' = ledger s
    /\ delivery_items s' = delivery_items s
    /\ (forall r, In r (deliveries s') -> del_id r = do_cur -> del_status r = DS_shipped).
Proof.
  intro Hl. rewrite ship_button_eq, Hl. cbn [indexed_from ship_calls map exec_all].
  unfold ret. eexists. split; [reflexivity|]. cbn [ledger delivery_items deliveries].
  repeat split.
  intros r Hr Hid. apply in_map_iff in Hr. destruct Hr as [r0 [<- _]].
  destruct (del_id r0 =? do_cur)%Z eqn:E; [reflexivity|].
  apply Z.eqb_neq in E. contradiction.
Qed.

Lemma empty_delivery_ships_witness :
  exists s',
    ship_button 1 1 ticking empty_delivery = (inr tt, s')
    /\ ledger s' = ledger empty_delivery
    /\ delivery_items s' = delivery_items empty_delivery
    /\ (forall r, In r (deliveries s') -> del_id r = 1%Z -> del_status r = DS_shipped).
Proof.
  apply (empty_delivery_ships 1 1 ticking empty_delivery).
  reflexivity.
Defined.

(** A delivery ships only if its lines read the clock in pairwise different
    seconds: the issues of one delivery all number their records MOUT plus
    the second, and the numbers must be unique. *)
Theorem shipping_needs_a_second_per_line (wh_id do_cur : Z)
    (clock : nat -> string) (s s' : delivery_db) :
  ship_button wh_id do_cur clock s = (inr tt, s') ->
  NoDup (map clock (seq 0 (List.length (lines_of do_cur s)))).
Proof.
  intro H. apply ship_ok_inv in H. destruct H as [H _].
  destruct (exec_all_numbers _ _ _ H) as [_ [Hnd _]].
  rewrite <- map_fst_indexed_from, map_map.
  apply (NoDup_map_inv (now_ts_id "MOUT")). rewrite map_map.
  now rewrite ship_calls_numbers in Hnd.
Qed.

Lemma shipping_needs_a_second_per_line_witness :
  NoDup (map ticking (seq 0 (List.length (lines_of 1 two_line_delivery)))).
Proof.
  apply (shipping_needs_a_second_per_line 1 1 ticking two_line_delivery
           (snd (ship_button 1 1 ticking two_line_delivery))).
  reflexivity.
Defined.



End ShippingFacts.

(** ** The three-way match *)

Section MatchFacts.

Import Invoices.

Lemma fold_left_Qplus_acc {X} (f : X -> Q) (l : list X) (a : Q) :
  fold_left (fun acc r => acc + f r) l a
  == a + fold_left (fun acc r => acc + f r) l 0.
Proof.
  revert a. induction l as [|x l IH]; intro a; cbn [fold_left].
  - lra.
  - rewrite IH, (IH (0 + f x)). lra.
Qed.











(** The checker writes nothing but the status of the invoice it checks:
    lines, receipts and payments are as before, every invoice keeps its
    place and all its other columns, and every invoice with another id is
    unchanged; when no invoice has the id, nothing changes at all. *)
Theorem match_changes_only_the_status (chk : Z) (s : invoice_db) :
  po_items (snd (run_three_way_match chk s)) = po_items s
  /\ invoice_items (snd (run_three_way_match chk s)) = invoice_items s
  /\ goods_receipts (snd (run_three_way_match chk s)) = goods_receipts s
  /\ payments (snd (run_three_way_match chk s)) = payments s
  /\ map (set_invoice_status IS_received)
         (invoices (snd (run_three_way_match chk s)))
     = map (set_invoice_status IS_received) (invoices s)
  /\ (forall r, In r (invoices s) -> inv_row_id r <> chk ->
                In r (invoices (snd (run_three_way_match chk s))))
  /\ (find (fun r => (inv_row_id r =? chk)%Z) (invoices s) = None ->
      run_three_way_match chk s = (Invoice_not_found, s)).
Proof.
  assert (Hup : forall st,
             map (set_invoice_status IS_received)
               (invoices (update_invoice_status chk st s))
             = map (set_invoice_status IS_received) (invoices s)
             /\ forall r, In r (invoices s) -> inv_row_id r <> chk ->
                          In r (invoices (update_invoice_status chk st s))).
  { intro st. unfold update_invoice_status. cbn [invoices]. split.
    - rewrite map_map. apply map_ext. intro r.
      now destruct (inv_row_id r =? chk)%Z.
    - intros r Hr Hid. apply in_map_iff. exists r. split; [|exact Hr].
      apply Z.eqb_neq in Hid. now rewrite Hid. }
  unfold run_three_way_match.
  destruct (find _ (invoices s)) as [inv|] eqn:Hf; cbv zeta.
  - destruct (Qltb _ _ && Qltb _ _ && _); cbn [snd].
    + destruct (Hup IS_matched) as [H1 H2].
      repeat split; try assumption. discriminate.
    + repeat split; try assumption; auto. discriminate.
  - cbn [snd]. repeat split; auto.
Qed.



End MatchFacts.

(** ** Creating a purchase order *)

Section OrderFacts.

Import Orders.

Variable numeric_12_2 : Q -> Q.

Lemma insert_lines_eq (po : Z) (up : Q) (rows : list rfq_item_row) (s : po_db) :
  exists new,
    for_each rows
      (fun r => insert_po_item numeric_12_2 po (ri_item_desc r) (ri_qty r) up) s
    = Done tt (mk_po_db (purchase_orders s) (rfq_items s) (bids s)
                 (po_lines s ++ new))
    /\ map po_line_summary new
       = map (fun r => (po, ri_item_desc r, ri_qty r, numeric_12_2 up)) rows.
Proof.
  revert s. induction rows as [|r rows IH]; intros [pos ris bs pls].
  - exists []. cbn. now rewrite app_nil_r.
  - cbn [for_each]. unfold sbind, insert_po_item at 1.
    cbn [purchase_orders rfq_items bids po_lines].
    destruct (IH (mk_po_db pos ris bs
                    (pls ++ [mk_po_item_row (next_id (map pi_id pls)) po
                               (ri_item_desc r) (ri_qty r) (numeric_12_2 up)])))
      as [new [H1 H2]].
    exists (mk_po_item_row (next_id (map pi_id pls)) po (ri_item_desc r)
              (ri_qty r) (numeric_12_2 up) :: new).
    split.
    + rewrite H1. cbn [purchase_orders rfq_items bids po_lines].
      now rewrite <- app_assoc.
    + cbn [map po_line_summary pi_po_id pi_item_desc pi_qty pi_unit_price].
      now rewrite H2.
Qed.

Lemma lines_value_uniform (po : Z) (up : Q) (rows : list rfq_item_row)
    (new : list po_item_row) :
  map po_line_summary new = map (fun r => (po, ri_item_desc r, ri_qty r, up)) rows ->
  lines_value new == up * rfq_total_qty rows.
Proof.
  unfold lines_value, rfq_total_qty.
  revert new. induction rows as [|r rows IH]; intros [|n new] H; try discriminate.
  - cbn. lra.
  - cbn [map] in H. unfold po_line_summary at 1 in H.
    injection H as H1 H2 H3 H4 H5.
    cbn [fold_left].
    rewrite fold_left_Qplus_acc, (fold_left_Qplus_acc ri_qty), (IH new H5).
    rewrite H3, H4. lra.
Qed.

Lemma create_po_ok_inv (rfq sup : Z) (now : string) (s s' : po_db) (id : Z) :
  create_po_button numeric_12_2 rfq sup now s = (inr id, s') ->
  let items := filter (fun r => (ri_rfq_id r =? rfq)%Z) (rfq_items s) in
  let up := match option_map bid_price (latest_bid rfq sup (bids s)) with
            | Some p => p / or_one (rfq_total_qty items)
            | None => 0
            end in
  id = next_id (map po_id (purchase_orders s))
  /\ purchase_orders s'
     = purchase_orders s ++ [mk_purchase_order_row id (now_ts_id "PO" now) sup rfq
                               PS_created]
  /\ rfq_items s' = rfq_items s /\ bids s' = bids s
  /\ exists new,
       po_lines s' = po_lines s ++ new
       /\ map po_line_summary new
          = map (fun r => (id, ri_item_desc r, ri_qty r, numeric_12_2 up)) items.
Proof.
  unfold create_po_button, begin, create_po, sbind, insert_purchase_order,
    select_rfq_items, select_bid_price, sret.
  destruct (existsb _ (purchase_orders s)); [discriminate|].
  cbn [purchase_orders rfq_items bids po_lines]. cbv zeta.
  match goal with
  | |- context [for_each ?rows ?f ?st] =>
      destruct (insert_lines_eq (next_id (map po_id (purchase_orders s)))
                  (match option_map bid_price (latest_bid rfq sup (bids s)) with
                   | Some p => p / or_one (rfq_total_qty rows)
                   | None => 0
                   end) rows st) as [new [H1 H2]]
  end.
  rewrite H1. cbn [purchase_orders rfq_items bids po_lines].
  intro H. inversion H; subst. cbn [purchase_orders rfq_items bids po_lines].
  repeat split. now exists new.
Qed.

Lemma create_po_taken (rfq sup : Z) (now : string) (s : po_db) :
  In (now_ts_id "PO" now) (map po_no (purchase_orders s)) ->
  create_po_button numeric_12_2 rfq sup now s = (inl IntegrityError, s).
Proof.
  intro H. unfold create_po_button, begin, create_po, sbind, insert_purchase_order.
  replace (existsb _ (purchase_orders s)) with true; [reflexivity|].
  symmetry. apply existsb_exists. apply in_map_iff in H.
  destruct H as [r [E Hr]]. exists r. split; [exact Hr|].
  now apply String.eqb_eq.
Qed.

End OrderFacts.



(** Whatever the price column does, all the lines of a new purchase order
    carry one and the same unit price, so an order created from an RFQ
    whose quantities add up to zero is worth nothing, whatever the bid; and
    when the supplier has not bid on the RFQ, that unit price is what the
    column keeps of zero. *)
Theorem new_po_without_bid_or_quantity (numeric_12_2 : Q -> Q) (rfq sup : Z)
    (now : string) (s s' : Orders.po_db) (id : Z) :
  Orders.create_po_button numeric_12_2 rfq sup now s = (inr id, s') ->
  exists new,
    Orders.po_lines s' = Orders.po_lines s ++ new
    /\ (forall r r', In r new -> In r' new ->
        Orders.pi_unit_price r = Orders.pi_unit_price r')
    /\ (Orders.latest_bid rfq sup (Orders.bids s) = None ->
        forall r, In r new -> Orders.pi_unit_price r = numeric_12_2 0)
    /\ (Orders.rfq_total_qty
          (filter (fun r => (Orders.ri_rfq_id r =? rfq)%Z) (Orders.rfq_items s)) == 0 ->
        Orders.lines_value new == 0).
Proof.
  intro H. apply create_po_ok_inv in H. cbv zeta in H.
  destruct H as [_ [_ [_ [_ [new [Hl Hs]]]]]].
  assert (Hup : forall r, In r new ->
            Orders.pi_unit_price r
            = numeric_12_2
                match option_map Orders.bid_price
                        (Orders.latest_bid rfq sup (Orders.bids s)) with
                | Some p =>
                    p / Orders.or_one
                          (Orders.rfq_total_qty
                             (filter (fun r => (Orders.ri_rfq_id r =? rfq)%Z)
                                (Orders.rfq_items s)))
                | None => 0
                end).
  { intros r Hr. apply (in_map Orders.po_line_summary) in Hr. rewrite Hs in Hr.
    apply in_map_iff in Hr. destruct Hr as [r0 [E _]].
    unfold Orders.po_line_summary in E. now inversion E. }
  exists new. split; [exact Hl|]. split; [|split].
  - intros r r' Hr Hr'. now rewrite (Hup r Hr), (Hup r' Hr').
  - intros Hb r Hr. rewrite (Hup r Hr), Hb. reflexivity.
  - intro Hz. rewrite (lines_value_uniform _ _ _ _ Hs), Hz. lra.
Qed.

Lemma new_po_without_bid_or_quantity_witness :
  exists new,
    Orders.po_lines
      (snd (Orders.create_po_button Orders.half_up_2 4 5 "20260102000000"
              Orders.quoted_rfq))
    = Orders.po_lines Orders.quoted_rfq ++ new
    /\ (forall r r', In r new -> In r' new ->
        Orders.pi_unit_price r = Orders.pi_unit_price r')
    /\ (Orders.latest_bid 4 5 (Orders.bids Orders.quoted_rfq) = None ->
        forall r, In r new -> Orders.pi_unit_price r = Orders.half_up_2 0)
    /\ (Orders.rfq_total_qty
          (filter (fun r => (Orders.ri_rfq_id r =? 4)%Z)
             (Orders.rfq_items Orders.quoted_rfq)) == 0 ->
        Orders.lines_value new == 0).
Proof.
  apply (new_po_without_bid_or_quantity Orders.half_up_2 4 5 "20260102000000"
           Orders.quoted_rfq
           (snd (Orders.create_po_button Orders.half_up_2 4 5 "20260102000000"
                   Orders.quoted_rfq)) 1).
  reflexivity.
Defined.

(** Two purchase orders cannot be created within one second: the second
    number is the first one again, the unique index on [po_no] refuses it
    and the transaction leaves every table as it was. *)
Theorem second_po_in_one_second_is_refused (numeric_12_2 : Q -> Q)
    (rfq sup rfq' sup' : Z) (now : string) (s s' : Orders.po_db) (id : Z) :
  Orders.create_po_button numeric_12_2 rfq sup now s = (inr id, s') ->
  Orders.create_po_button numeric_12_2 rfq' sup' now s'
  = (inl IntegrityError, s').
Proof.
  intro H. apply create_po_ok_inv in H. cbv zeta in H.
  destruct H as [_ [Hp _]].
  apply create_po_taken. rewrite Hp, map_app, in_app_iff. right. now left.
Qed.

Lemma second_po_in_one_second_is_refused_witness :
  Orders.create_po_button Orders.half_up_2 4 5 "20260102000000"
    (snd (Orders.create_po_button Orders.half_up_2 4 9 "20260102000000"
            Orders.quoted_rfq))
  = (inl IntegrityError,
     snd (Orders.create_po_button Orders.half_up_2 4 9 "20260102000000"
            Orders.quoted_rfq)).
Proof.
  apply (second_po_in_one_second_is_refused Orders.half_up_2 4 9 4 5
           "20260102000000" Orders.quoted_rfq
           (snd (Orders.create_po_button Orders.half_up_2 4 9 "20260102000000"
                   Orders.quoted_rfq)) 1).
  reflexivity.
Defined.

(** ** Recording a goods receipt *)

Section ReceiptFacts.

Import Receipts.

Variable strip : string -> string.
Variable collate : string -> string -> bool.

Lemma receipt_calls_cons (wh_id grn_id : Z) (clock : nat -> string)
    (kl : nat * Orders.po_item_row) (kls : list (nat * Orders.po_item_row))
    (its : list item_row) :
  receipt_calls strip collate wh_id grn_id clock (kl :: kls) its
  = (IN wh_id (fst (resolve_item strip collate (snd kl) its))
       (Orders.pi_qty (snd kl)) "GRN" grn_id None (clock (fst kl))
       :: fst (receipt_calls strip collate wh_id grn_id clock kls
                 (snd (resolve_item strip collate (snd kl) its))),
     snd (receipt_calls strip collate wh_id grn_id clock kls
            (snd (resolve_item strip collate (snd kl) its)))).
Proof.
  cbn [receipt_calls].
  destruct (resolve_item strip collate (snd kl) its) as [iid its1].
  cbn [fst snd].
  now destruct (receipt_calls strip collate wh_id grn_id clock kls its1).
Qed.

Lemma receive_line_eq (wh_id grn_id : Z) (now : string)
    (line : Orders.po_item_row) (s : receipt_db) :
  receive_line strip collate wh_id grn_id now line s
  = on_ledger ledger put_ledger
      (inventory_in wh_id (fst (resolve_item strip collate line (items s)))
         (Orders.pi_qty line) "GRN" grn_id None now)
      (put_items (snd (resolve_item strip collate line (items s))) s).
Proof.
  unfold receive_line, sbind.
  now destruct (resolve_item strip collate line (items s)).
Qed.

(** The loop of the receipt is the engine running the calls of the lines,
    beside the table of items. *)
Lemma receive_loop_eq (wh_id grn_id : Z) (clock : nat -> string)
    (kls : list (nat * Orders.po_item_row)) (s : receipt_db) :
  match exec_all (fst (receipt_calls strip collate wh_id grn_id clock kls (items s)))
          (ledger s) with
  | Ok _ d' =>
      for_each kls
        (fun kl => receive_line strip collate wh_id grn_id (clock (fst kl)) (snd kl)) s
      = Done tt (mk_receipt_db d' (goods_receipts s) (purchase_orders s)
                   (po_items s)
                   (snd (receipt_calls strip collate wh_id grn_id clock kls
                           (items s))))
  | Raise e _ =>
      exists s'',
        for_each kls
          (fun kl => receive_line strip collate wh_id grn_id (clock (fst kl)) (snd kl)) s
        = Failed e s''
  end.
Proof.
  revert s. induction kls as [|kl kls IH]; intros [d grs pos pis its].
  - reflexivity.
  - rewrite receipt_calls_cons. cbn [fst snd ledger items goods_receipts
      purchase_orders po_items exec_all exec for_each].
    unfold bind, sbind. rewrite receive_line_eq.
    unfold on_ledger, put_items, put_ledger.
    cbn [ledger items goods_receipts purchase_orders po_items].
    destruct (inventory_in wh_id _ _ _ _ _ _ d) as [[] d1|e d1].
    + specialize (IH (mk_receipt_db d1 grs pos pis
                        (snd (resolve_item strip collate (snd kl) its)))).
      cbn [ledger items goods_receipts purchase_orders po_items] in IH.
      exact IH.
    + eexists. reflexivity.
Qed.

Lemma receipt_button_ok_inv (wh_id po received_by : Z) (today grn_clock : string)
    (clock : nat -> string) (s s' : receipt_db) (id : Z) :
  record_goods_receipt_button strip collate wh_id po received_by today grn_clock
    clock s = (Recorded id, s') ->
  wh_id <> 0%Z
  /\ id = next_id (map Invoices.gr_id (goods_receipts s))
  /\ ~ In (now_ts_id "GRN" grn_clock) (map Invoices.grn_no (goods_receipts s))
  /\ exec_all (fst (receipt_calls strip collate wh_id id clock
                      (indexed_from 0 (lines_of po s)) (items s)))
       (ledger s) = Ok tt (ledger s')
  /\ goods_receipts s'
     = goods_receipts s
       ++ [Invoices.mk_goods_receipt_row id po (now_ts_id "GRN" grn_clock) today
             received_by]
  /\ purchase_orders s'
     = map (fun r => if (Orders.po_id r =? po)%Z
                     then set_po_status Orders.PS_delivered r else r)
         (purchase_orders s)
  /\ po_items s' = po_items s
  /\ items s' = snd (receipt_calls strip collate wh_id id clock
                       (indexed_from 0 (lines_of po s)) (items s)).
Proof.
  unfold record_goods_receipt_button.
  destruct (wh_id =? 0)%Z eqn:Ew; [discriminate|]. apply Z.eqb_neq in Ew.
  unfold begin, record_goods_receipt, sbind, insert_goods_receipt, update_po_status,
    select_po_items, sret.
  destruct (existsb _ (goods_receipts s)) eqn:Ex; [discriminate|].
  cbn [ledger items goods_receipts purchase_orders po_items].
  pose proof (receive_loop_eq wh_id (next_id (map Invoices.gr_id (goods_receipts s)))
                clock (indexed_from 0 (lines_of po s))
                (mk_receipt_db (ledger s)
                   (goods_receipts s
                      ++ [Invoices.mk_goods_receipt_row
                            (next_id (map Invoices.gr_id (goods_receipts s))) po
                            (now_ts_id "GRN" grn_clock) today received_by])
                   (map (fun r => if (Orders.po_id r =? po)%Z
                                  then set_po_status Orders.PS_delivered r else r)
                      (purchase_orders s))
                   (po_items s) (items s))) as L.
  cbn [ledger items goods_receipts purchase_orders po_items] in L.
  unfold lines_of in *.
  destruct (exec_all _ (ledger s)) as [[] d'|e d'] eqn:Ee.
  - rewrite L. intro H. inversion H; subst.
    cbn [ledger items goods_receipts purchase_orders po_items].
    repeat split; try assumption.
    intro Hin. apply in_map_iff in Hin. destruct Hin as [r [E Hr]].
    assert (existsb (fun r => String.eqb (Invoices.grn_no r)
                                (now_ts_id "GRN" grn_clock)) (goods_receipts s)
            = true) as Ht.
    { apply existsb_exists. exists r. split; [exact Hr|]. now apply String.eqb_eq. }
    rewrite Ht in Ex. discriminate.
  - destruct L as [s'' L]. rewrite L. discriminate.
Qed.



Lemma receipt_calls_numbers (wh_id grn_id : Z) (clock : nat -> string)
    (kls : list (nat * Orders.po_item_row)) (its : list item_row) :
  flat_map call_numbers (fst (receipt_calls strip collate wh_id grn_id clock kls its))
  = map (fun kl => now_ts_id "MIN" (clock (fst kl))) kls.
Proof.
  revert its. induction kls as [|kl kls IH]; intro its.
  - reflexivity.
  - rewrite receipt_calls_cons. cbn [fst map flat_map call_numbers app].
    now rewrite IH.
Qed.


Lemma resolve_item_identity (line : Orders.po_item_row) (its : list item_row) :
  exists l,
    map item_identity (snd (resolve_item strip collate line its))
    = map item_identity its ++ l
    /\ (List.length l <= 1)%nat.
Proof.
  unfold resolve_item. destruct (select_item_first _ _ _) as [it|]; cbn [snd].
  - exists []. split; [|cbn; lia]. rewrite app_nil_r, map_map. apply map_ext. intro r.
    now destruct (item_id r =? item_id it)%Z.
  - eexists. split; [now rewrite map_app|]. cbn. lia.
Qed.

Lemma receipt_calls_identity (wh_id grn_id : Z) (clock : nat -> string)
    (kls : list (nat * Orders.po_item_row)) (its : list item_row) :
  exists l,
    map item_identity (snd (receipt_calls strip collate wh_id grn_id clock kls its))
    = map item_identity its ++ l
    /\ (List.length l <= List.length kls)%nat.
Proof.
  revert its. induction kls as [|kl kls IH]; intro its.
  - exists []. split; [now rewrite app_nil_r | cbn; lia].
  - rewrite receipt_calls_cons. cbn [snd].
    destruct (IH (snd (resolve_item strip collate (snd kl) its))) as [l [Hl Hn]].
    destruct (resolve_item_identity (snd kl) its) as [l0 [Hl0 Hn0]].
    exists (l0 ++ l). split; [now rewrite Hl, Hl0, app_assoc|].
    rewrite length_app. cbn [List.length]. lia.
Qed.


End ReceiptFacts.



(** A goods receipt is recorded only if its lines read the clock in
    pairwise different seconds: the receipts of the lines all number their
    records MIN plus the second, and the numbers must be unique. *)
Theorem goods_receipt_needs_a_second_per_line
    (strip : string -> string) (collate : string -> string -> bool)
    (wh_id po received_by : Z) (today grn_clock : string) (clock : nat -> string)
    (s s' : Receipts.receipt_db) (id : Z) :
  Receipts.record_goods_receipt_button strip collate wh_id po received_by today
    grn_clock clock s = (Receipts.Recorded id, s') ->
  NoDup (map clock (seq 0 (List.length (Receipts.lines_of po s)))).
Proof.
  intro H. apply receipt_button_ok_inv in H. destruct H as [_ [_ [_ [H _]]]].
  destruct (exec_all_numbers _ _ _ H) as [_ [Hnd _]].
  rewrite <- map_fst_indexed_from, map_map.
  apply (NoDup_map_inv (now_ts_id "MIN")). rewrite map_map.
  now rewrite receipt_calls_numbers in Hnd.
Qed.

Lemma goods_receipt_needs_a_second_per_line_witness :
  NoDup (map Deliveries.ticking
           (seq 0 (List.length (Receipts.lines_of 7 Receipts.ordered_po)))).
Proof.
  apply (goods_receipt_needs_a_second_per_line Receipts.no_strip String.eqb
           1 7 1 "2026-01-03" "20260103000000" Deliveries.ticking
           Receipts.ordered_po
           (snd (Receipts.record_goods_receipt_button Receipts.no_strip String.eqb
                   1 7 1 "2026-01-03" "20260103000000" Deliveries.ticking
                   Receipts.ordered_po)) 1).
  reflexivity.
Defined.



(** A goods receipt deletes and renames no item: the items there were are
    the first items afterwards, with their ids, codes, names and units;
    only last prices change and new items are appended. *)
Theorem goods_receipt_keeps_the_items
    (strip : string -> string) (collate : string -> string -> bool)
    (wh_id po received_by : Z) (today grn_clock : string) (clock : nat -> string)
    (s s' : Receipts.receipt_db) (id : Z) :
  Receipts.record_goods_receipt_button strip collate wh_id po received_by today
    grn_clock clock s = (Receipts.Recorded id, s') ->
  exists l,
    map Receipts.item_identity (Receipts.items s')
    = map Receipts.item_identity (Receipts.items s) ++ l
    /\ (List.length l <= List.length (Receipts.lines_of po s))%nat.
Proof.
  intro H. apply receipt_button_ok_inv in H.
  destruct H as [_ [_ [_ [_ [_ [_ [_ ->]]]]]]].
  destruct (receipt_calls_identity strip collate wh_id id clock
              (indexed_from 0 (Receipts.lines_of po s)) (Receipts.items s))
    as [l [Hl Hn]].
  exists l. split; [exact Hl|].
  rewrite <- (map_snd_indexed_from 0 (Receipts.lines_of po s)) at 1.
  now rewrite length_map.
Qed.

Lemma goods_receipt_keeps_the_items_witness :
  exists l,
    map Receipts.item_identity
      (Receipts.items
         (snd (Receipts.record_goods_receipt_button Receipts.no_strip String.eqb
                 1 7 1 "2026-01-03" "20260103000000" Deliveries.ticking
                 Receipts.ordered_po)))
    = map Receipts.item_identity (Receipts.items Receipts.ordered_po) ++ l
    /\ (List.length l <= List.length (Receipts.lines_of 7 Receipts.ordered_po))%nat.
Proof.
  apply (goods_receipt_keeps_the_items Receipts.no_strip String.eqb
           1 7 1 "2026-01-03" "20260103000000" Deliveries.ticking
           Receipts.ordered_po
           (snd (Receipts.record_goods_receipt_button Receipts.no_strip String.eqb
                   1 7 1 "2026-01-03" "20260103000000" Deliveries.ticking
                   Receipts.ordered_po)) 1).
  reflexivity.
Defined.

(** ** Accounts and navigation *)

Section AccountFacts.

Import Accounts.

Variable sha256 : string -> string.
Variable collate : string -> string -> bool.

Lemma existsb_find_none {X} (f : X -> bool) (l : list X) :
  find f l = None -> existsb f l = false.
Proof.
  induction l as [|x l IH]; cbn; [reflexivity|].
  destruct (f x); [discriminate | exact IH].
Qed.

Lemma find_app_found {X} (f : X -> bool) (l l' : list X) (x : X) :
  find f l = Some x -> find f (l ++ l') = Some x.
Proof.
  induction l as [|y l IH]; cbn; [discriminate|].
  destruct (f y); [trivial | exact IH].
Qed.

Lemma find_app_none {X} (f : X -> bool) (l l' : list X) :
  find f l = None -> find f (l ++ l') = find f l'.
Proof.
  induction l as [|y l IH]; cbn; [reflexivity|].
  destruct (f y); [discriminate | exact IH].
Qed.

Lemma ensure_demo_user_exists_eq (us : list user_row) :
  ensure_demo_user_exists sha256 collate us
  = (inr tt,
     match find (has_email collate DEMO_EMAIL) us with
     | Some _ => us
     | None => us ++ [mk_user_row (next_id (map user_id us)) DEMO_NAME
                        (Some DEMO_EMAIL) (sha256 DEMO_PASSWORD) DEMO_ROLE
                        (Some "Demo"%string)]
     end).
Proof.
  unfold ensure_demo_user_exists, begin, sbind, select_user_first.
  destruct (find _ us) eqn:E; [reflexivity|].
  unfold insert_user. now rewrite (existsb_find_none _ _ E).
Qed.

End AccountFacts.

Section NavigationFacts.

Import Accounts.

Lemma menu_item_label (label : string) (roles : list string)
    (u : option session_user) (l : string) :
  menu_item label roles u = Some l -> l = label.
Proof.
  unfold menu_item. destruct (require_role roles u); [|discriminate].
  intro H. now inversion H.
Qed.

Lemma nav_labels (u : option session_user) (l : string) :
  In l (nav u) -> In l menu_labels.
Proof.
  unfold nav. rewrite in_flat_map. intros [x [Hx Hl]].
  destruct x as [l0|]; [|contradiction].
  destruct (String.eqb l0 EmptyString); [contradiction|].
  destruct Hl as [<-|[]].
  unfold nav_all in Hx. cbn [In] in Hx. unfold menu_labels. cbn [In].
  repeat (destruct Hx as [Hx|Hx];
          [apply menu_item_label in Hx; rewrite Hx; tauto|]).
  contradiction.
Qed.

Lemma router_menu_labels : NoDup (map router menu_labels).
Proof.
  vm_compute.
  repeat (constructor; [cbn [In]; intuition discriminate|]).
  constructor.
Qed.

Lemma router_menu_some (c : string) : In c menu_labels -> router c <> None.
Proof.
  unfold menu_labels. cbn [In]. intro H.
  repeat (destruct H as [<-|H]; [vm_compute; discriminate|]).
  contradiction.
Qed.

Lemma NoDup_map_injective {X Y} (f : X -> Y) (l : list X) (x y : X) :
  NoDup (map f l) -> In x l -> In y l -> f x = f y -> x = y.
Proof.
  induction l as [|z l IH]; cbn [map In]; [contradiction|].
  intros Hnd Hx Hy E. inversion Hnd as [|? ? Hz Hnd']; subst.
  destruct Hx as [<-|Hx], Hy as [<-|Hy].
  - reflexivity.
  - exfalso. apply Hz. rewrite E. now apply in_map.
  - exfalso. apply Hz. rewrite <- E. now apply in_map.
  - now apply IH.
Qed.

End NavigationFacts.

(** The demo user is created once: [ensure_demo_user_exists] never raises,
    a second run changes nothing, and when the database finds the demo
    address equal to itself, "Demo login" afterwards signs in, as the
    first user that has the demo address. *)
Theorem demo_user_is_created_once (sha256 : string -> string)
    (collate : string -> string -> bool) (us : list Accounts.user_row) :
  collate Accounts.DEMO_EMAIL Accounts.DEMO_EMAIL = true ->
  let us' := snd (Accounts.ensure_demo_user_exists sha256 collate us) in
  Accounts.ensure_demo_user_exists sha256 collate us = (inr tt, us')
  /\ Accounts.ensure_demo_user_exists sha256 collate us' = (inr tt, us')
  /\ exists u,
       find (Accounts.has_email collate Accounts.DEMO_EMAIL) us' = Some u
       /\ Accounts.demo_login collate us'
          = Some (Accounts.mk_session_user (Accounts.user_id u)
                    (Accounts.user_name u) (Accounts.role u) (Accounts.email u)).
Proof.
  intros Hc us'. subst us'. rewrite !ensure_demo_user_exists_eq. cbn [snd].
  split; [reflexivity|].
  destruct (find (Accounts.has_email collate Accounts.DEMO_EMAIL) us) as [u|] eqn:E.
  - rewrite E. split; [reflexivity|]. exists u. split; [reflexivity|].
    unfold Accounts.demo_login, begin, Accounts.select_user_first. now rewrite E.
  - assert (F : find (Accounts.has_email collate Accounts.DEMO_EMAIL)
                  (us ++ [Accounts.mk_user_row
                            (next_id (map Accounts.user_id us))
                            Accounts.DEMO_NAME (Some Accounts.DEMO_EMAIL)
                            (sha256 Accounts.DEMO_PASSWORD) Accounts.DEMO_ROLE
                            (Some "Demo"%string)])
                = Some (Accounts.mk_user_row
                          (next_id (map Accounts.user_id us))
                          Accounts.DEMO_NAME (Some Accounts.DEMO_EMAIL)
                          (sha256 Accounts.DEMO_PASSWORD) Accounts.DEMO_ROLE
                          (Some "Demo"%string))).
    { rewrite (find_app_none _ _ _ E). cbn [find]. unfold Accounts.has_email at 1.
      cbn [Accounts.email]. now rewrite Hc. }
    rewrite F. split; [reflexivity|]. eexists. split; [reflexivity|].
    unfold Accounts.demo_login, begin, Accounts.select_user_first. now rewrite F.
Qed.

Lemma demo_user_is_created_once_witness :
  let us' := snd (Accounts.ensure_demo_user_exists (fun t => t) String.eqb []) in
  Accounts.ensure_demo_user_exists (fun t => t) String.eqb [] = (inr tt, us')
  /\ Accounts.ensure_demo_user_exists (fun t => t) String.eqb us' = (inr tt, us')
  /\ exists u,
       find (Accounts.has_email String.eqb Accounts.DEMO_EMAIL) us' = Some u
       /\ Accounts.demo_login String.eqb us'
          = Some (Accounts.mk_session_user (Accounts.user_id u)
                    (Accounts.user_name u) (Accounts.role u) (Accounts.email u)).
Proof.
  apply (demo_user_is_created_once (fun t => t) String.eqb []).
  reflexivity.
Defined.

(** Every entry the sidebar offers runs a page, and no two entries run the
    same page: the prefixes the router tests shadow one another on no
    label of the menu.  Without a session user the sidebar offers
    nothing. *)
Theorem router_serves_the_menu (u : option Accounts.session_user) :
  (forall c, In c (Accounts.nav u) -> Accounts.router c <> None)
  /\ (forall c c', In c (Accounts.nav u) -> In c' (Accounts.nav u) ->
        Accounts.router c = Accounts.router c' -> c = c')
  /\ Accounts.nav None = [].
Proof.
  split; [|split].
  - intros c Hc. apply router_menu_some. exact (nav_labels u c Hc).
  - intros c c' Hc Hc'.
    apply (NoDup_map_injective Accounts.router Accounts.menu_labels c c'
             router_menu_labels (nav_labels u c Hc) (nav_labels u c' Hc')).
  - reflexivity.
Qed.

(** Every role of the column [users.role] sees at least one entry of the
    menu, so that the sidebar always has a first entry to select, and an
    administrator sees all fourteen. *)
Theorem every_role_has_a_menu (u : Accounts.session_user) :
  In (Accounts.su_role u) Accounts.role_enum ->
  Accounts.nav (Some u) <> []
  /\ (Accounts.su_role u = "admin"%string ->
      List.length (Accounts.nav (Some u)) = 14%nat).
Proof.
  intro H. destruct u as [id name rl em]. cbn [Accounts.su_role] in *.
  unfold Accounts.role_enum in H. cbn [In] in H.
  repeat (destruct H as [<-|H];
          [split; [vm_compute; discriminate
                  | intro E; first [reflexivity | discriminate E]]|]).
  contradiction.
Qed.

Lemma every_role_has_a_menu_witness :
  Accounts.nav (Some (Accounts.mk_session_user 1 "Ada" "finance" None)) <> []
  /\ (Accounts.su_role (Accounts.mk_session_user 1 "Ada" "finance" None)
      = "admin"%string ->
      List.length (Accounts.nav
                     (Some (Accounts.mk_session_user 1 "Ada" "finance" None)))
      = 14%nat).
Proof.
  apply (every_role_has_a_menu (Accounts.mk_session_user 1 "Ada" "finance" None)).
  cbn. tauto.
Defined.

(** * The utilities on binary floating point *)

(** ** Rounding *)

Section Rounding.

Import Binary64.

Lemma round_half_even_bounds (x : Q) :
  inject_Z (round_half_even x) - (1 # 2) <= x
  /\ x <= inject_Z (round_half_even x) + (1 # 2).
Proof.
  unfold round_half_even.
  pose proof (Qfloor_le x) as Hl. pose proof (Qlt_floor x) as Hu.
  rewrite inject_Z_plus in Hu. change (inject_Z 1) with 1 in Hu.
  destruct (Qcompare (x - inject_Z (Qfloor x)) (1 # 2)) eqn:E.
  - apply Qeq_alt in E.
    destruct (Z.even (Qfloor x)); [|rewrite inject_Z_plus; change (inject_Z 1) with 1];
      split; lra.
  - apply Qlt_alt in E. split; lra.
  - apply Qgt_alt in E. rewrite inject_Z_plus. change (inject_Z 1) with 1.
    split; lra.
Qed.

Lemma inject_Z_between (a b : Z) :
  inject_Z a - 1 < inject_Z b -> inject_Z b < inject_Z a + 1 -> a = b.
Proof.
  intros H1 H2.
  assert (inject_Z (a - 1) < inject_Z b) as H1'.
  { unfold Z.sub. rewrite inject_Z_plus. change (inject_Z (- (1))) with (- (1)). lra. }
  assert (inject_Z b < inject_Z (a + 1)) as H2'.
  { rewrite inject_Z_plus. change (inject_Z 1) with 1. lra. }
  rewrite <- Zlt_Qlt in H1', H2'. lia.
Qed.

Lemma round_half_even_near (x : Q) (k : Z) :
  inject_Z k - (1 # 2) < x -> x < inject_Z k + (1 # 2) ->
  round_half_even x = k.
Proof.
  intros H1 H2. destruct (round_half_even_bounds x) as [B1 B2].
  apply inject_Z_between; lra.
Qed.

Lemma pow2_nonneg (e : Z) : (0 <= e)%Z -> pow2 e = inject_Z (2 ^ e).
Proof. intro H. unfold pow2. apply Z.leb_le in H. now rewrite H. Qed.

Lemma inject_Z_pow2_pos (e : Z) : (0 <= e)%Z -> 0 < inject_Z (2 ^ e).
Proof.
  intro H. change 0 with (inject_Z 0). rewrite <- Zlt_Qlt.
  apply Z.pow_pos_nonneg; lia.
Qed.

Lemma pow2_pos (e : Z) : 0 < pow2 e.
Proof.
  unfold pow2. destruct (0 <=? e)%Z eqn:E.
  - apply inject_Z_pow2_pos. now apply Z.leb_le.
  - apply Qinv_lt_0_compat, inject_Z_pow2_pos. apply Z.leb_gt in E. lia.
Qed.

Lemma pow2_step (e : Z) : pow2 (e + 1) == 2 * pow2 e.
Proof.
  unfold pow2.
  destruct (0 <=? e)%Z eqn:E.
  - apply Z.leb_le in E.
    assert (E' : (0 <=? e + 1)%Z = true) by (apply Z.leb_le; lia).
    rewrite E', Z.pow_add_r, inject_Z_mult by lia.
    change (inject_Z (2 ^ 1)) with 2. ring.
  - apply Z.leb_gt in E.
    destruct (Z.eq_dec e (-1)) as [->|Hne].
    + reflexivity.
    + assert (E' : (0 <=? e + 1)%Z = false) by (apply Z.leb_gt; lia).
      rewrite E'.
      replace (- e)%Z with (- (e + 1) + 1)%Z by lia.
      rewrite Z.pow_add_r, inject_Z_mult by lia.
      change (inject_Z (2 ^ 1)) with 2.
      pose proof (inject_Z_pow2_pos (- (e + 1))) as Hp.
      field. intro H0. rewrite H0 in Hp. apply (Qlt_irrefl 0), Hp. lia.
Qed.

Lemma pow2_mono (a b : Z) : (a <= b)%Z -> pow2 a <= pow2 b.
Proof.
  intro H. replace b with (a + Z.of_nat (Z.to_nat (b - a)))%Z by lia.
  induction (Z.to_nat (b - a)) as [|n IH].
  - rewrite Z.add_0_r. apply Qle_refl.
  - rewrite Nat2Z.inj_succ. unfold Z.succ. rewrite Z.add_assoc, pow2_step.
    pose proof (pow2_pos (a + Z.of_nat n)). lra.
Qed.

Lemma pow2_add (a b : Z) : (0 <= b)%Z -> pow2 (a + b) == pow2 a * pow2 b.
Proof.
  intro Hb. rewrite <- (Z2Nat.id b Hb).
  induction (Z.to_nat b) as [|n IH].
  - rewrite Z.add_0_r. change (pow2 (Z.of_nat 0)) with 1. ring.
  - rewrite Nat2Z.inj_succ. unfold Z.succ.
    rewrite Z.add_assoc, !pow2_step, IH. ring.
Qed.

(** [floor_log2] is not above the logarithm. *)
Lemma floor_log2_le (x : Q) : 0 < x -> pow2 (floor_log2 x) <= x.
Proof.
  intro Hx. unfold floor_log2.
  destruct (Qle_bool _ x) eqn:E; [now apply Qle_bool_iff|].
  destruct x as [n d].
  assert (Hn : (0 < n)%Z).
  { unfold Qlt in Hx. cbn in Hx. lia. }
  cbn [Qnum Qden].
  destruct (Z.log2_spec n Hn) as [Ha _].
  destruct (Z.log2_spec (Zpos d) (Pos2Z.is_pos d)) as [_ Hb].
  pose proof (Z.log2_nonneg n) as Ha0.
  pose proof (Z.log2_nonneg (Zpos d)) as Hb0.
  set (a := Z.log2 n) in *. set (b := Z.log2 (Zpos d)) in *.
  pose proof (pow2_add (a - b - 1) (b + 1)) as Hadd.
  replace (a - b - 1 + (b + 1))%Z with a in Hadd by lia.
  rewrite (pow2_nonneg a), (pow2_nonneg (b + 1)) in Hadd by lia.
  specialize (Hadd ltac:(lia)).
  pose proof (pow2_pos (a - b - 1)) as Hp.
  rewrite Zle_Qle in Ha. unfold Z.succ in Hb. rewrite Zlt_Qlt in Hb.
  assert (Hnd : n # d == inject_Z n / inject_Z (Zpos d)) by apply Qmake_Qdiv.
  assert (Hd : 0 < inject_Z (Zpos d)) by reflexivity.
  rewrite Hnd. apply Qle_shift_div_l; [exact Hd|].
  apply Qle_trans with (pow2 (a - b - 1) * inject_Z (2 ^ (b + 1))).
  - apply Qmult_le_l; [exact Hp | now apply Qlt_le_weak].
  - rewrite <- Hadd. exact Ha.
Qed.

Lemma floor_log2_lt (x : Q) (k : Z) :
  0 < x -> x < pow2 k -> (floor_log2 x < k)%Z.
Proof.
  intros Hx Hk. destruct (Z_lt_le_dec (floor_log2 x) k) as [H|H]; [exact H|].
  exfalso. pose proof (pow2_mono _ _ H). pose proof (floor_log2_le x Hx). lra.
Qed.

Lemma exponent_le (x : Q) (k : Z) :
  ~ x == 0 -> Qabs x < pow2 k -> (-1021 <= k)%Z -> (exponent x <= k - 53)%Z.
Proof.
  intros Hx Hk Hmin. unfold exponent.
  assert (Hpos : 0 < Qabs x).
  { destruct (Qlt_le_dec 0 (Qabs x)) as [H|H]; [exact H|].
    exfalso. apply Hx. pose proof (Qabs_nonneg x) as Hn.
    assert (Qabs x == 0) as Hz by lra.
    revert Hz. apply Qabs_case; intros; lra. }
  pose proof (floor_log2_lt _ _ Hpos Hk). lia.
Qed.

(** The error of a rounding: half a unit in the last place, which for a
    number below [2 ^ k] is at most [2 ^ (k - 54)]. *)
Lemma nearest_error (x : Q) (k : Z) :
  Qabs x < pow2 k -> (-1021 <= k)%Z ->
  x - pow2 (k - 54) <= nearest x /\ nearest x <= x + pow2 (k - 54).
Proof.
  intros Hk Hmin. unfold nearest.
  pose proof (pow2_pos (k - 54)) as Hp54.
  destruct (Qeq_bool (Qred x) 0) eqn:E.
  - apply Qeq_bool_iff in E. rewrite Qred_correct in E. split; lra.
  - assert (Hx : ~ Qred x == 0).
    { intro H. apply Qeq_bool_iff in H. congruence. }
    assert (Hk' : Qabs (Qred x) < pow2 k).
    { now rewrite (Qabs_wd _ _ (Qred_correct x)). }
    pose proof (exponent_le _ _ Hx Hk' Hmin) as He.
    set (e := exponent (Qred x)) in *.
    pose proof (pow2_pos e) as Hpe.
    pose proof (pow2_mono _ _ He) as Hm.
    pose proof (pow2_step (k - 54)) as Hs.
    replace (k - 54 + 1)%Z with (k - 53)%Z in Hs by lia.
    destruct (round_half_even_bounds (Qred x / pow2 e)) as [B1 B2].
    set (z := inject_Z (round_half_even (Qred x / pow2 e))) in *.
    rewrite Qred_correct.
    assert (Hq : Qred x / pow2 e * pow2 e == x).
    { rewrite <- (Qred_correct x) at 2. field. lra. }
    assert (C1 : (z - (1 # 2)) * pow2 e <= x).
    { rewrite <- Hq. apply Qmult_le_compat_r; lra. }
    assert (C2 : x <= (z + (1 # 2)) * pow2 e).
    { rewrite <- Hq. apply Qmult_le_compat_r; lra. }
    split; lra.
Qed.

End Rounding.

(** ** Numbers of three decimals *)

Lemma three_decimals_decimal (x : Q) : three_decimals x = true -> decimal x.
Proof.
  intro H. apply Qeq_bool_iff in H. exists (Qfloor (x * 1000)). rewrite H. field.
Qed.

Lemma read_is_decimal (y : Q) : decimal (read_14_3 y).
Proof.
  eexists. unfold read_14_3, read_numeric. rewrite Qred_correct. reflexivity.
Qed.

Lemma decimal_plus (a b : Q) : decimal a -> decimal b -> decimal (a + b).
Proof.
  intros [ka Ha] [kb Hb]. exists (ka + kb)%Z.
  rewrite Ha, Hb, inject_Z_plus. field.
Qed.

Lemma decimal_opp (a : Q) : decimal a -> decimal (- a).
Proof.
  intros [ka Ha]. exists (- ka)%Z. rewrite Ha, inject_Z_opp. field.
Qed.

Lemma decimal_minus (a b : Q) : decimal a -> decimal b -> decimal (a - b).
Proof. intros Ha Hb. apply decimal_plus; [exact Ha | now apply decimal_opp]. Qed.

(** A number within half a thousandth of a number of three decimals reads
    as that number. *)
Lemma read_near (y g : Q) :
  decimal g -> g - (1 # 2000) < y -> y < g + (1 # 2000) -> read_14_3 y == g.
Proof.
  intros [k Hg] H1 H2. unfold read_14_3, read_numeric.
  rewrite Qred_correct, (round_half_even_near _ k).
  - rewrite Hg. reflexivity.
  - rewrite Hg in H1. change (inject_Z 1000) with 1000. lra.
  - rewrite Hg in H2. change (inject_Z 1000) with 1000. lra.
Qed.

Lemma float_error (x : Q) :
  Qabs x <= 200000000001 ->
  x - (1 # 65536) <= Binary.float x /\ Binary.float x <= x + (1 # 65536).
Proof.
  intro H. apply (nearest_error x 38); [|lia].
  apply Qle_lt_trans with (1 := H). reflexivity.
Qed.

Lemma float_zero (x : Q) : x == 0 -> Binary.float x = 0.
Proof.
  intro H. unfold Binary.float, Binary64.nearest. cbv zeta.
  replace (Qeq_bool (Qred x) 0) with true; [reflexivity|].
  symmetry. apply Qeq_bool_iff. now rewrite Qred_correct.
Qed.

Lemma float_comp (x y : Q) : x == y -> Binary.float x = Binary.float y.
Proof.
  intro H. unfold Binary.float, Binary64.nearest. cbv zeta.
  now rewrite (Qred_complete _ _ H).
Qed.

Lemma read_comp (x y : Q) : x == y -> read_14_3 x = read_14_3 y.
Proof.
  intro H. unfold read_14_3, read_numeric. apply Qred_complete.
  assert (E : Binary64.round_half_even (x * inject_Z 1000)
              = Binary64.round_half_even (y * inject_Z 1000)).
  { unfold Binary64.round_half_even.
    assert (Hm : x * inject_Z 1000 == y * inject_Z 1000) by now rewrite H.
    rewrite (Qfloor_comp _ _ Hm).
    now rewrite Hm. }
  now rewrite E.
Qed.

(** On numbers of three decimals within the range of the column, the
    floats of the code, read back at three decimals, are exact, and the
    guard of [inventory_out] decides as the exact comparison does. *)
Section ThreeDecimals.

Variables a q : Q.
Hypothesis decimal_a : decimal a.
Hypothesis decimal_q : decimal q.
Hypothesis bound_a : Qabs a <= limit_14_3.
Hypothesis bound_q : Qabs q <= limit_14_3.

Lemma read_float : read_14_3 (Binary.float q) == q.
Proof.
  unfold limit_14_3 in *. apply Qabs_Qle_condition in bound_q.
  destruct (float_error q) as [H1 H2].
  { apply Qabs_Qle_condition. lra. }
  apply read_near; [exact decimal_q | lra | lra].
Qed.

Lemma read_add :
  read_14_3 (Binary64.add (Binary.float a) (Binary.float q)) == a + q.
Proof.
  unfold limit_14_3 in *.
  apply Qabs_Qle_condition in bound_a. apply Qabs_Qle_condition in bound_q.
  destruct (float_error a) as [A1 A2]; [apply Qabs_Qle_condition; lra|].
  destruct (float_error q) as [Q1 Q2]; [apply Qabs_Qle_condition; lra|].
  destruct (float_error (Binary.float a + Binary.float q)) as [S1 S2];
    [apply Qabs_Qle_condition; lra|].
  unfold Binary64.add. fold (Binary.float (Binary.float a + Binary.float q)).
  apply read_near; [now apply decimal_plus | lra | lra].
Qed.

Lemma read_sub :
  read_14_3 (Binary64.sub (Binary.float a) (Binary.float q)) == a - q.
Proof.
  unfold limit_14_3 in *.
  apply Qabs_Qle_condition in bound_a. apply Qabs_Qle_condition in bound_q.
  destruct (float_error a) as [A1 A2]; [apply Qabs_Qle_condition; lra|].
  destruct (float_error q) as [Q1 Q2]; [apply Qabs_Qle_condition; lra|].
  destruct (float_error (Binary.float a - Binary.float q)) as [S1 S2];
    [apply Qabs_Qle_condition; lra|].
  unfold Binary64.sub. fold (Binary.float (Binary.float a - Binary.float q)).
  apply read_near; [now apply decimal_minus | lra | lra].
Qed.

Lemma decimal_trichotomy :
  a - q <= - (1 # 1000) \/ a == q \/ (1 # 1000) <= a - q.
Proof.
  destruct decimal_a as [ka Ha], decimal_q as [kq Hq].
  destruct (Z_lt_le_dec ka kq) as [H|H].
  - left. assert (ka + 1 <= kq)%Z as H' by lia.
    rewrite Zle_Qle, inject_Z_plus in H'. change (inject_Z 1) with 1 in H'.
    rewrite Ha, Hq. lra.
  - destruct (Z.eq_dec ka kq) as [E|E].
    + right. left. rewrite Ha, Hq, E. reflexivity.
    + right. right. assert (kq + 1 <= ka)%Z as H' by lia.
      rewrite Zle_Qle, inject_Z_plus in H'. change (inject_Z 1) with 1 in H'.
      rewrite Ha, Hq. lra.
Qed.

Lemma guard_decides :
  Qltb (Binary64.sub (Binary.float a) (Binary.float q)) (- Binary.float 0.000001)
  = Qltb (a - q) (- epsilon).
Proof.
  assert (T1 : 0 < Binary.float 0.000001) by (vm_compute; reflexivity).
  assert (T2 : Binary.float 0.000001 < 1 # 100000) by (vm_compute; reflexivity).
  set (t := Binary.float 0.000001) in *.
  unfold limit_14_3, epsilon in *.
  pose proof bound_a as Ba. pose proof bound_q as Bq.
  apply Qabs_Qle_condition in Ba. apply Qabs_Qle_condition in Bq.
  destruct (float_error a) as [A1 A2]; [apply Qabs_Qle_condition; lra|].
  destruct (float_error q) as [Q1 Q2]; [apply Qabs_Qle_condition; lra|].
  destruct (float_error (Binary.float a - Binary.float q)) as [S1 S2];
    [apply Qabs_Qle_condition; lra|].
  unfold Binary64.sub. fold (Binary.float (Binary.float a - Binary.float q)).
  destruct decimal_trichotomy as [H|[H|H]].
  - transitivity true; [|symmetry]; apply Qltb_true; lra.
  - rewrite (float_comp a q H), float_zero by ring.
    transitivity false; [|symmetry]; apply Qltb_false; lra.
  - transitivity false; [|symmetry]; apply Qltb_false; lra.
Qed.

End ThreeDecimals.

(** ** The utilities as equations on the connection *)

Lemma binary_inventory_in_eq (w i : Z) (q : Q) (e : string) (rid : Z)
    (b : option Z) (now : string) (d : db) :
  Binary.inventory_in w i q e rid b now d =
  if movement_no_taken (now_ts_id "MIN" now) (stock_movements d)
  then Raise IntegrityError (adjusted w i b (Binary.in_qty d w i b q) d)
  else Ok tt (logged (in_record d w i (Binary.float q) e rid b now)
                (adjusted w i b (Binary.in_qty d w i b q) d)).
Proof.
  unfold Binary.inventory_in, bind. rewrite get_or_create_inv_eq.
  unfold Binary.row_qty. rewrite looked_up_qty.
  unfold update_inventory_qty, insert_stock_movement.
  cbn [inventory stock_movements]. rewrite touched_log.
  unfold logged, in_record, adjusted, updated, Binary.in_qty.
  cbn [inventory stock_movements].
  rewrite touched_log. reflexivity.
Qed.

Lemma binary_inventory_out_eq (w i : Z) (q : Q) (e : string) (rid : Z)
    (b : option Z) (now : string) (d : db) :
  Binary.inventory_out w i q e rid b now d =
  if Qltb (Binary.out_qty d w i b q) (- Binary.float 0.000001)
  then Raise (InsufficientStock i w (read_14_3 (on_hand d w i b)) q)
         (touched w i b d)
  else if movement_no_taken (now_ts_id "MOUT" now) (stock_movements d)
  then Raise IntegrityError (adjusted w i b (Binary.out_qty d w i b q) d)
  else Ok tt (logged (out_record d w i (Binary.float q) e rid b now)
                (adjusted w i b (Binary.out_qty d w i b q) d)).
Proof.
  unfold Binary.inventory_out, bind, Binary.out_qty.
  rewrite get_or_create_inv_eq.
  unfold Binary.row_qty. rewrite looked_up_qty.
  set (v := Binary64.sub _ _). set (t := - Binary.float 0.000001).
  destruct (Qltb v t); [reflexivity|].
  unfold update_inventory_qty, insert_stock_movement.
  cbn [inventory stock_movements]. rewrite touched_log.
  unfold logged, out_record, adjusted, updated. cbn [inventory stock_movements].
  rewrite touched_log. reflexivity.
Qed.

Lemma binary_transfer_stock_eq (f t i : Z) (q : Q) (rsn n1 n2 n3 : string)
    (d : db) :
  Binary.transfer_stock f t i q rsn n1 n2 n3 d =
  match Binary.inventory_out f i q "TRANSFER" 0%Z None n1 d with
  | Raise e c => Raise e c
  | Ok _ d1 =>
      match Binary.inventory_in t i q "TRANSFER" 0%Z None n2 d1 with
      | Raise e c => Raise e c
      | Ok _ d2 =>
          if movement_no_taken (now_ts_id "MTR" n3) (stock_movements d2)
          then Raise IntegrityError d2
          else Ok tt (logged (transfer_record d2 f t i (Binary.float q) rsn n3) d2)
      end
  end.
Proof. reflexivity. Qed.

Lemma binary_inventory_in_ok_inv (w i : Z) (q : Q) (e : string) (rid : Z)
    (b : option Z) (now : string) (d d' : db) :
  Binary.inventory_in w i q e rid b now d = Ok tt d' ->
  movement_no_taken (now_ts_id "MIN" now) (stock_movements d) = false
  /\ d' = logged (in_record d w i (Binary.float q) e rid b now)
            (adjusted w i b (Binary.in_qty d w i b q) d).
Proof.
  rewrite binary_inventory_in_eq.
  destruct (movement_no_taken _ _); [discriminate|].
  intro H. injection H as <-. repeat split.
Qed.

Lemma binary_inventory_out_ok_inv (w i : Z) (q : Q) (e : string) (rid : Z)
    (b : option Z) (now : string) (d d' : db) :
  Binary.inventory_out w i q e rid b now d = Ok tt d' ->
  Qltb (Binary.out_qty d w i b q) (- Binary.float 0.000001) = false
  /\ movement_no_taken (now_ts_id "MOUT" now) (stock_movements d) = false
  /\ d' = logged (out_record d w i (Binary.float q) e rid b now)
            (adjusted w i b (Binary.out_qty d w i b q) d).
Proof.
  rewrite binary_inventory_out_eq.
  set (t := - Binary.float 0.000001).
  destruct (Qltb _ t) eqn:Eg; [discriminate|].
  destruct (movement_no_taken _ _); [discriminate|].
  intro H. injection H as <-. repeat split.
Qed.

Lemma binary_transfer_stock_ok_inv (f t i : Z) (q : Q) (rsn n1 n2 n3 : string)
    (d d' : db) :
  Binary.transfer_stock f t i q rsn n1 n2 n3 d = Ok tt d' ->
  exists d1 d2,
    Binary.inventory_out f i q "TRANSFER" 0 None n1 d = Ok tt d1
    /\ Binary.inventory_in t i q "TRANSFER" 0 None n2 d1 = Ok tt d2
    /\ movement_no_taken (now_ts_id "MTR" n3) (stock_movements d2) = false
    /\ d' = logged (transfer_record d2 f t i (Binary.float q) rsn n3) d2.
Proof.
  rewrite binary_transfer_stock_eq. intro H.
  destruct (Binary.inventory_out _ _ _ _ _ _ _ d) as [[] d1|] eqn:E1; [|discriminate].
  destruct (Binary.inventory_in _ _ _ _ _ _ _ d1) as [[] d2|] eqn:E2; [|discriminate].
  destruct (movement_no_taken _ _) eqn:E3; [discriminate|].
  exists d1, d2. injection H as <-. repeat split; assumption.
Qed.

Lemma binary_transaction_single_ok (c : call) (d d' : db) :
  Binary.exec c d = Ok tt d' -> Binary.transaction [c] d = (inr tt, d').
Proof.
  intro H. unfold Binary.transaction, engine_begin. cbn [Binary.exec_all].
  unfold bind. now rewrite H.
Qed.

Lemma binary_transaction_single_raise (c : call) (d x : db) (e : exn) :
  Binary.exec c d = Raise e x -> Binary.transaction [c] d = (inl e, d).
Proof.
  intro H. unfold Binary.transaction, engine_begin. cbn [Binary.exec_all].
  unfold bind. now rewrite H.
Qed.

(** ** The database as read *)

Lemma same_key_read_row (w i : Z) (b : option Z) (r : inventory_row) :
  same_key w i b (read_row r) = same_key w i b r.
Proof. reflexivity. Qed.

Lemma on_hand_as_read (d : db) (w i : Z) (b : option Z) :
  on_hand (as_read d) w i b = read_14_3 (on_hand d w i b).
Proof.
  unfold on_hand, as_read. cbn [inventory].
  induction (inventory d) as [|r l IH]; cbn [map find].
  - reflexivity.
  - rewrite same_key_read_row. destruct (same_key w i b r); [reflexivity | exact IH].
Qed.

Lemma primary_key_as_read (d : db) : primary_key d -> primary_key (as_read d).
Proof.
  unfold primary_key, as_read. cbn [inventory]. rewrite map_map.
  intro H. exact H.
Qed.

Lemma as_read_logged (m : stock_movement) (d : db) :
  stock_movements (as_read (logged m d))
  = stock_movements (as_read d) ++ [read_movement m].
Proof. unfold as_read, logged. cbn [stock_movements]. now rewrite map_app. Qed.

Lemma as_read_adjusted_log (w i : Z) (b : option Z) (v : Q) (d : db) :
  stock_movements (as_read (adjusted w i b v d)) = stock_movements (as_read d).
Proof. unfold as_read. cbn [stock_movements]. now rewrite adjusted_log. Qed.

Lemma call_moves_nonneg (c : call) : 0 <= call_moves c.
Proof.
  destruct c as [? ? q ? ? ? ?|? ? q ? ? ? ?|? ? ? q ? ? ? ?]; cbn [call_moves];
    pose proof (Qabs_nonneg q); lra.
Qed.

Lemma moved_nonneg (cs : list call) : 0 <= moved cs.
Proof.
  induction cs as [|c cs IH]; cbn [moved fold_right]; [lra|].
  fold (moved cs). pose proof (call_moves_nonneg c). lra.
Qed.

Lemma readings_within_weaken (m m' : Q) (d : db) :
  m <= m' -> readings_within m d -> readings_within m' d.
Proof. intros H Hd w i b. specialize (Hd w i b). lra. Qed.

(** What a leg does to the database as read, when the quantity it stores
    reads as the former reading plus [dq]. *)
Lemma binary_leg (d : db) (w0 i0 : Z) (b0 : option Z) (v dq : Q)
    (m : stock_movement) (M D : Q) :
  primary_key d ->
  readings_within M d ->
  read_14_3 v == on_hand (as_read d) w0 i0 b0 + dq ->
  Qabs dq <= D ->
  (forall w i b, signed_qty w i b (read_movement m)
                 == if at_key w0 i0 b0 w i b then dq else 0) ->
  let d' := logged m (adjusted w0 i0 b0 v d) in
  primary_key d'
  /\ readings_within (M + D) d'
  /\ (forall w i b, on_hand (as_read d') w i b
                    == on_hand (as_read d) w i b
                       + (if at_key w0 i0 b0 w i b then dq else 0))
  /\ (forall w i b, replay w i b (stock_movements (as_read d'))
                    == replay w i b (stock_movements (as_read d))
                       + (if at_key w0 i0 b0 w i b then dq else 0))
  /\ (keys_unique d -> keys_unique d').
Proof.
  intros Hpk HM Hv HD Hm d'.
  destruct (leg_effect_intro d w0 i0 b0 v m Hpk) as [Hk Ho _ _ Hpk'].
  fold d' in Hk, Ho, Hpk'.
  assert (Hd : forall w i b, on_hand (as_read d') w i b
                             == on_hand (as_read d) w i b
                                + (if at_key w0 i0 b0 w i b then dq else 0)).
  { intros w i b. rewrite (on_hand_as_read d').
    destruct (key_eq_dec (w, i, b) (w0, i0, b0)) as [E|E].
    - injection E as -> -> ->. now rewrite at_key_refl, Hk, Hv.
    - rewrite at_key_other, (Ho _ _ _ E), <- on_hand_as_read by exact E. lra. }
  split; [exact Hpk'|]. split; [|split; [exact Hd|split]].
  - intros w i b. rewrite Hd. specialize (HM w i b).
    destruct (at_key w0 i0 b0 w i b).
    + apply Qle_trans with (1 := Qabs_triangle _ _). lra.
    + assert (E : on_hand (as_read d) w i b + 0 == on_hand (as_read d) w i b) by ring.
      rewrite (Qabs_wd _ _ E). pose proof (Qabs_nonneg dq). lra.
  - intros w i b. unfold d'. rewrite as_read_logged, as_read_adjusted_log, replay_snoc.
    now rewrite Hm.
  - intro Hku. now apply logged_keys_unique, adjusted_keys_unique.
Qed.

Lemma at_key_dec (w0 i0 : Z) (b0 : option Z) (w i : Z) (b : option Z) :
  ((w, i, b) = (w0, i0, b0) /\ at_key w0 i0 b0 w i b = true)
  \/ ((w, i, b) <> (w0, i0, b0) /\ at_key w0 i0 b0 w i b = false).
Proof.
  destruct (key_eq_dec (w, i, b) (w0, i0, b0)) as [E|E].
  - left. split; [exact E|]. injection E as -> -> ->. apply at_key_refl.
  - right. split; [exact E|]. now apply at_key_other.
Qed.

Lemma readings_within_nonneg (M : Q) (d : db) : readings_within M d -> 0 <= M.
Proof.
  intro H. specialize (H 0%Z 0%Z None).
  pose proof (Qabs_nonneg (on_hand (as_read d) 0 0 None)). lra.
Qed.

(** The two legs, for a quantity of three decimals within the range. *)
Lemma binary_in_leg (d : db) (w0 i0 : Z) (b0 : option Z) (q : Q) (e : string)
    (rid : Z) (now : string) (M : Q) :
  primary_key d ->
  readings_within M d ->
  three_decimals q = true ->
  M + Qabs q <= limit_14_3 ->
  let d' := logged (in_record d w0 i0 (Binary.float q) e rid b0 now)
              (adjusted w0 i0 b0 (Binary.in_qty d w0 i0 b0 q) d) in
  primary_key d'
  /\ readings_within (M + Qabs q) d'
  /\ (forall w i b, on_hand (as_read d') w i b
                    == on_hand (as_read d) w i b
                       + (if at_key w0 i0 b0 w i b then q else 0))
  /\ (forall w i b, replay w i b (stock_movements (as_read d'))
                    == replay w i b (stock_movements (as_read d))
                       + (if at_key w0 i0 b0 w i b then q else 0))
  /\ (keys_unique d -> keys_unique d').
Proof.
  intros Hpk HM Hq HB.
  pose proof (readings_within_nonneg _ _ HM) as HM0.
  pose proof (Qabs_nonneg q) as Hq0.
  pose proof (three_decimals_decimal q Hq) as Dq.
  apply (binary_leg d w0 i0 b0 _ q _ M (Qabs q) Hpk HM).
  - unfold Binary.in_qty. rewrite on_hand_as_read.
    apply read_add.
    + apply read_is_decimal.
    + exact Dq.
    + rewrite <- on_hand_as_read. specialize (HM w0 i0 b0). lra.
    + lra.
  - apply Qle_refl.
  - intros w i b.
    change (read_movement (in_record d w0 i0 (Binary.float q) e rid b0 now))
      with (in_record d w0 i0 (read_14_3 (Binary.float q)) e rid b0 now).
    destruct (at_key_dec w0 i0 b0 w i b) as [[E ->]|[E ->]].
    + injection E as -> -> ->. rewrite signed_in_record.
      apply read_float; [exact Dq | lra].
    + now rewrite signed_in_record_other.
Qed.

Lemma binary_out_leg (d : db) (w0 i0 : Z) (b0 : option Z) (q : Q) (e : string)
    (rid : Z) (now : string) (M : Q) :
  primary_key d ->
  readings_within M d ->
  three_decimals q = true ->
  M + Qabs q <= limit_14_3 ->
  let d' := logged (out_record d w0 i0 (Binary.float q) e rid b0 now)
              (adjusted w0 i0 b0 (Binary.out_qty d w0 i0 b0 q) d) in
  primary_key d'
  /\ readings_within (M + Qabs q) d'
  /\ (forall w i b, on_hand (as_read d') w i b
                    == on_hand (as_read d) w i b
                       + (if at_key w0 i0 b0 w i b then - q else 0))
  /\ (forall w i b, replay w i b (stock_movements (as_read d'))
                    == replay w i b (stock_movements (as_read d))
                       + (if at_key w0 i0 b0 w i b then - q else 0))
  /\ (keys_unique d -> keys_unique d').
Proof.
  intros Hpk HM Hq HB.
  pose proof (readings_within_nonneg _ _ HM) as HM0.
  pose proof (Qabs_nonneg q) as Hq0.
  pose proof (three_decimals_decimal q Hq) as Dq.
  apply (binary_leg d w0 i0 b0 _ (- q) _ M (Qabs q) Hpk HM).
  - unfold Binary.out_qty. rewrite on_hand_as_read.
    rewrite read_sub.
    + ring.
    + apply read_is_decimal.
    + exact Dq.
    + rewrite <- on_hand_as_read. specialize (HM w0 i0 b0). lra.
    + lra.
  - rewrite Qabs_opp. apply Qle_refl.
  - intros w i b.
    change (read_movement (out_record d w0 i0 (Binary.float q) e rid b0 now))
      with (out_record d w0 i0 (read_14_3 (Binary.float q)) e rid b0 now).
    destruct (at_key_dec w0 i0 b0 w i b) as [[E ->]|[E ->]].
    + injection E as -> -> ->. rewrite signed_out_record.
      apply Qopp_comp. apply read_float; [exact Dq | lra].
    + now rewrite signed_out_record_other.
Qed.

Lemma binary_marker (d : db) (f t i : Z) (x : Q) (rsn now : string) :
  let d' := logged (transfer_record d f t i x rsn now) d in
  (forall w' i' b', on_hand (as_read d') w' i' b' = on_hand (as_read d) w' i' b')
  /\ (forall w' i' b', replay w' i' b' (stock_movements (as_read d'))
                       == replay w' i' b' (stock_movements (as_read d))).
Proof.
  cbv zeta. split.
  - intros. now rewrite !on_hand_as_read, on_hand_logged.
  - intros. rewrite as_read_logged, replay_snoc.
    change (read_movement (transfer_record d f t i x rsn now))
      with (transfer_record d f t i (read_14_3 x) rsn now).
    rewrite signed_transfer_record. ring.
Qed.

(** What a call that returns does to the database as read. *)
Lemma binary_exec_step (c : call) (d d' : db) (M : Q) :
  primary_key d ->
  readings_within M d ->
  decimal_call c ->
  M + call_moves c <= limit_14_3 ->
  Binary.exec c d = Ok tt d' ->
  primary_key d'
  /\ readings_within (M + call_moves c) d'
  /\ (forall w i b, on_hand (as_read d') w i b
                    == on_hand (as_read d) w i b + call_delta c w i b)
  /\ (forall w i b, replay w i b (stock_movements (as_read d'))
                    == replay w i b (stock_movements (as_read d))
                       + call_delta c w i b)
  /\ (keys_unique d -> keys_unique d').
Proof.
  intros Hpk HM Hc HB H.
  destruct c as [w0 i0 q e r b0 now|w0 i0 q e r b0 now|f t i0 q rsn n1 n2 n3];
    unfold decimal_call in Hc; cbn [Binary.exec call_delta call_moves call_qty] in *.
  - apply binary_inventory_in_ok_inv in H. destruct H as [_ ->].
    now apply binary_in_leg.
  - apply binary_inventory_out_ok_inv in H. destruct H as [_ [_ ->]].
    now apply binary_out_leg.
  - apply binary_transfer_stock_ok_inv in H.
    destruct H as [d1 [d2 [H1 [H2 [_ ->]]]]].
    apply binary_inventory_out_ok_inv in H1. destruct H1 as [_ [_ H1]].
    apply binary_inventory_in_ok_inv in H2. destruct H2 as [_ H2].
    pose proof (Qabs_nonneg q) as Hq0.
    destruct (binary_out_leg d f i0 None q "TRANSFER" 0 n1 M Hpk HM Hc)
      as [Hpk1 [HM1 [Hd1 [Hr1 Hk1]]]]; [lra|].
    rewrite <- H1 in Hpk1, HM1, Hd1, Hr1, Hk1.
    destruct (binary_in_leg d1 t i0 None q "TRANSFER" 0 n2 (M + Qabs q) Hpk1 HM1 Hc)
      as [Hpk2 [HM2 [Hd2 [Hr2 Hk2]]]]; [lra|].
    rewrite <- H2 in Hpk2, HM2, Hd2, Hr2, Hk2.
    destruct (binary_marker d2 f t i0 (Binary.float q) rsn n3) as [Hm1 Hm2].
    split; [exact Hpk2|]. split; [|split; [|split]].
    + intros w i b. rewrite Hm1. specialize (HM2 w i b). lra.
    + intros w i b. rewrite Hm1, Hd2, Hd1. ring.
    + intros w i b. rewrite Hm2, Hr2, Hr1. ring.
    + intro Hku. apply logged_keys_unique. auto.
Qed.

Lemma binary_exec_all_step (cs : list call) (d d' : db) (M : Q) :
  primary_key d ->
  readings_within M d ->
  Forall decimal_call cs ->
  M + moved cs <= limit_14_3 ->
  Binary.exec_all cs d = Ok tt d' ->
  primary_key d'
  /\ readings_within (M + moved cs) d'
  /\ (forall w i b, on_hand (as_read d') w i b
                    == on_hand (as_read d) w i b + net_delta cs w i b)
  /\ (forall w i b, replay w i b (stock_movements (as_read d'))
                    == replay w i b (stock_movements (as_read d))
                       + net_delta cs w i b)
  /\ (keys_unique d -> keys_unique d').
Proof.
  intros Hpk HM Hcs. revert d M Hpk HM.
  induction Hcs as [|c cs Hc Hcs IH]; intros d M Hpk HM HB H.
  - inversion H; subst. cbn [moved net_delta fold_right].
    split; [exact Hpk|]. split; [|split; [|split]].
    + intros w i b. specialize (HM w i b). lra.
    + intros. ring.
    + intros. ring.
    + auto.
  - cbn [Binary.exec_all] in H. unfold bind in H.
    destruct (Binary.exec c d) as [[] d1|] eqn:E; [|discriminate].
    cbn [moved fold_right] in HB |- *. fold (moved cs) in HB |- *.
    pose proof (moved_nonneg cs) as Hmv.
    destruct (binary_exec_step c d d1 M Hpk HM Hc ltac:(lra) E)
      as [Hpk1 [HM1 [Hd1 [Hr1 Hk1]]]].
    destruct (IH d1 (M + call_moves c) Hpk1 HM1 ltac:(lra) H)
      as [Hpk2 [HM2 [Hd2 [Hr2 Hk2]]]].
    split; [exact Hpk2|]. split; [|split; [|split]].
    + intros w i b. specialize (HM2 w i b). lra.
    + intros w i b. rewrite Hd2, Hd1. cbn [net_delta fold_right].
      fold (net_delta cs w i b). ring.
    + intros w i b. rewrite Hr2, Hr1. cbn [net_delta fold_right].
      fold (net_delta cs w i b). ring.
    + auto.
Qed.

Lemma moved_all_nonneg (txs : list (list call)) : 0 <= moved_all txs.
Proof.
  induction txs as [|tx txs IH]; cbn [moved_all fold_right]; [lra|].
  fold (moved_all txs). pose proof (moved_nonneg tx). lra.
Qed.

(** Ledger and log agree, as read, after every sequence of transactions
    whose quantities are of three decimals and do not move more than the
    column is declared for. *)
Lemma binary_run_inv (txs : list (list call)) (d : db) (M : Q) :
  primary_key d ->
  keys_unique d ->
  readings_within M d ->
  (forall w i b, on_hand (as_read d) w i b
                 == replay w i b (stock_movements (as_read d))) ->
  Forall (Forall decimal_call) txs ->
  M + moved_all txs <= limit_14_3 ->
  primary_key (Binary.run txs d)
  /\ keys_unique (Binary.run txs d)
  /\ readings_within (M + moved_all txs) (Binary.run txs d)
  /\ (forall w i b, on_hand (as_read (Binary.run txs d)) w i b
                    == replay w i b (stock_movements (as_read (Binary.run txs d)))).
Proof.
  intros Hpk Hku HM Hre Htxs. revert d M Hpk Hku HM Hre.
  unfold Binary.run.
  induction Htxs as [|tx txs Htx Htxs IH]; intros d M Hpk Hku HM Hre HB;
    cbn [fold_left moved_all fold_right] in *.
  - split; [exact Hpk|]. split; [exact Hku|]. split; [|exact Hre].
    intros w i b. specialize (HM w i b). lra.
  - fold (moved_all txs) in *.
    pose proof (moved_all_nonneg txs) as Hall. pose proof (moved_nonneg tx) as Htxn.
    assert (Hstep : primary_key (snd (Binary.transaction tx d))
                    /\ keys_unique (snd (Binary.transaction tx d))
                    /\ readings_within (M + moved tx) (snd (Binary.transaction tx d))
                    /\ (forall w i b,
                           on_hand (as_read (snd (Binary.transaction tx d))) w i b
                           == replay w i b
                                (stock_movements
                                   (as_read (snd (Binary.transaction tx d)))))).
    { unfold Binary.transaction, engine_begin.
      destruct (Binary.exec_all tx d) as [[] d1|] eqn:E; cbn [snd].
      - destruct (binary_exec_all_step tx d d1 M Hpk HM Htx ltac:(lra) E)
          as [Hpk1 [HM1 [Hd1 [Hr1 Hk1]]]].
        split; [exact Hpk1|]. split; [auto|]. split; [exact HM1|].
        intros w i b. now rewrite Hd1, Hr1, Hre.
      - split; [exact Hpk|]. split; [exact Hku|]. split; [|exact Hre].
        apply (readings_within_weaken M); [lra | exact HM]. }
    destruct Hstep as [Hpk1 [Hku1 [HM1 Hre1]]].
    destruct (IH _ (M + moved tx) Hpk1 Hku1 HM1 Hre1 ltac:(lra))
      as [Hpk2 [Hku2 [HM2 Hre2]]].
    split; [exact Hpk2|]. split; [exact Hku2|]. split; [|exact Hre2].
    intros w i b. specialize (HM2 w i b). lra.
Qed.

(** * The claims on binary floating point *)

(** ** Replay equivalence *)

(** C2, as stated, fails: the code adds floats to the reading of the row,
    which is rounded to three decimals.  After a receipt of 1 and a receipt
    of 0.0005 the row reads 1.000 while the two records read 1.000 and
    0.001; the stored values differ as well. *)
Lemma replay_fails_beyond_three_decimals :
  let d := Binary.run [[IN 1 1 1 "GRN" 1 None "20260101000000"];
                       [IN 1 1 0.0005 "GRN" 2 None "20260101000001"]] empty_db in
  map (fun r => (key_of r, inv_qty r)) (inventory (as_read d))
  = [((1%Z, 1%Z, None), 1)]
  /\ map (fun m => (mv_type m, mv_qty m)) (stock_movements (as_read d))
     = [(MT_IN, 1); (MT_IN, 0.001)]
  /\ replay 1 1 None (stock_movements (as_read d)) == 1.001
  /\ ~ on_hand d 1 1 None == replay 1 1 None (stock_movements d).
Proof.
  cbv zeta. split; [vm_compute; reflexivity|]. split; [vm_compute; reflexivity|].
  split; [vm_compute; reflexivity|]. vm_compute. discriminate.
Qed.

(** C2, amended.  Starting from the empty ledger, after every sequence of
    transactions of IN, OUT and TRANSFER calls whose quantities have at
    most three decimals and move no more in all than the column is declared
    for, the quantity of every row of [inventory], as read, is the signed
    sum of the movement records of its (warehouse, item, bin) key, as read:
    IN records add, OUT records subtract, and a TRANSFER record counts
    through its two legs. *)
Theorem replay_equivalence_of_decimals (txs : list (list call))
    (r : inventory_row) :
  Forall (Forall decimal_call) txs ->
  moved_all txs <= limit_14_3 ->
  In r (inventory (Binary.run txs empty_db)) ->
  read_14_3 (inv_qty r) ==
  replay (inv_warehouse_id r) (inv_item_id r) (inv_bin_id r)
    (stock_movements (as_read (Binary.run txs empty_db))).
Proof.
  intros Htxs HB Hin.
  destruct (binary_run_inv txs empty_db 0) as [_ [Hku [_ Hre]]];
    try assumption.
  - constructor.
  - constructor.
  - intros w i b. vm_compute. discriminate.
  - intros w i b. reflexivity.
  - lra.
  - rewrite <- Hre, on_hand_as_read. unfold on_hand.
    rewrite (find_unique_key _ r Hku Hin). reflexivity.
Qed.

Lemma replay_equivalence_of_decimals_witness :
  read_14_3 (inv_qty (mk_inventory_row 1 1 1 None (61 # 2))) ==
  replay 1 1 None
    (stock_movements
       (as_read
          (Binary.run [[IN 1 1 50.75 "GRN" 1 None "20260101000000"];
                       [OUT 1 1 20.25 "DO" 1 None "20260101000001"]] empty_db))).
Proof.
  apply (replay_equivalence_of_decimals
           [[IN 1 1 50.75 "GRN" 1 None "20260101000000"];
            [OUT 1 1 20.25 "DO" 1 None "20260101000001"]]
           (mk_inventory_row 1 1 1 None (61 # 2))).
  - repeat constructor.
  - vm_compute. discriminate.
  - vm_compute. left. reflexivity.
Defined.

(** ** The scenario *)

Lemma binary_inventory_in_returns (w i : Z) (q : Q) (e : string) (rid : Z)
    (b : option Z) (now : string) (d : db) :
  movement_no_taken (now_ts_id "MIN" now) (stock_movements d) = false ->
  Binary.inventory_in w i q e rid b now d
  = Ok tt (logged (in_record d w i (Binary.float q) e rid b now)
             (adjusted w i b (Binary.in_qty d w i b q) d)).
Proof. intro H. now rewrite binary_inventory_in_eq, H. Qed.

Lemma binary_inventory_out_returns (w i : Z) (q : Q) (e : string) (rid : Z)
    (b : option Z) (now : string) (d : db) :
  Qltb (Binary.out_qty d w i b q) (- Binary.float 0.000001) = false ->
  movement_no_taken (now_ts_id "MOUT" now) (stock_movements d) = false ->
  Binary.inventory_out w i q e rid b now d
  = Ok tt (logged (out_record d w i (Binary.float q) e rid b now)
             (adjusted w i b (Binary.out_qty d w i b q) d)).
Proof. intros Hq H. now rewrite binary_inventory_out_eq, Hq, H. Qed.

Lemma binary_inventory_out_raises (w i : Z) (q : Q) (e : string) (rid : Z)
    (b : option Z) (now : string) (d : db) :
  Qltb (Binary.out_qty d w i b q) (- Binary.float 0.000001) = true ->
  Binary.inventory_out w i q e rid b now d
  = Raise (InsufficientStock i w (read_14_3 (on_hand d w i b)) q)
      (touched w i b d).
Proof. intro Hq. now rewrite binary_inventory_out_eq, Hq. Qed.

Lemma binary_transfer_stock_returns (f t i : Z) (q : Q) (rsn n1 n2 n3 : string)
    (d : db) :
  Qltb (Binary.out_qty d f i None q) (- Binary.float 0.000001) = false ->
  movement_no_taken (now_ts_id "MOUT" n1) (stock_movements d) = false ->
  movement_no_taken (now_ts_id "MIN" n2) (stock_movements d) = false ->
  movement_no_taken (now_ts_id "MTR" n3) (stock_movements d) = false ->
  let d1 := logged (out_record d f i (Binary.float q) "TRANSFER" 0 None n1)
              (adjusted f i None (Binary.out_qty d f i None q) d) in
  let d2 := logged (in_record d1 t i (Binary.float q) "TRANSFER" 0 None n2)
              (adjusted t i None (Binary.in_qty d1 t i None q) d1) in
  Binary.transfer_stock f t i q rsn n1 n2 n3 d
  = Ok tt (logged (transfer_record d2 f t i (Binary.float q) rsn n3) d2).
Proof.
  intros Hq H1 H2 H3 d1 d2.
  rewrite binary_transfer_stock_eq.
  rewrite (binary_inventory_out_returns _ _ _ _ _ _ _ _ Hq H1). fold d1.
  assert (H2' : movement_no_taken (now_ts_id "MIN" n2) (stock_movements d1) = false).
  { unfold d1, logged. cbn [stock_movements].
    rewrite adjusted_log, movement_no_taken_snoc, H2.
    cbn [out_record movement_no orb]. apply prefix_out_in. }
  rewrite (binary_inventory_in_returns _ _ _ _ _ _ _ _ H2'). fold d2.
  assert (H3' : movement_no_taken (now_ts_id "MTR" n3) (stock_movements d2) = false).
  { unfold d2, logged. cbn [stock_movements].
    rewrite adjusted_log, movement_no_taken_snoc.
    unfold d1, logged. cbn [stock_movements].
    rewrite adjusted_log, movement_no_taken_snoc, H3.
    cbn [out_record in_record movement_no orb].
    now rewrite prefix_out_tr, prefix_in_tr. }
  now rewrite H3'.
Qed.

(** C7.  From the empty ledger, with movement numbers that do not repeat,
    the code runs the scenario as stated: the receipt of 50 leaves 50 at
    (WH1, ItemA); the issue of 20 leaves 30; the issue of 30.000001 raises
    InsufficientStock, because on floats [30.0 - 30.000001] is below
    [-1e-6], and leaves 30; the transfer of 30 to WH2 then leaves 0 at
    (WH1, ItemA) and 30 at (WH2, ItemA). *)
Theorem scenario_runs_as_stated (t1 t2 t3 t4 t5 t6 : string) :
  t4 <> t2 -> t5 <> t1 ->
  let d1 := snd (Binary.transaction [IN 1 1 50 "GRN" 1 None t1] empty_db) in
  let d2 := snd (Binary.transaction [OUT 1 1 20 "DO" 1 None t2] d1) in
  let r3 := Binary.transaction [OUT 1 1 30.000001 "DO" 2 None t3] d2 in
  let r4 := Binary.transaction [TRANSFER 1 2 1 30 "TRANSFER" t4 t5 t6] (snd r3) in
  on_hand d1 1 1 None = 50
  /\ on_hand d2 1 1 None = 30
  /\ r3 = (inl (InsufficientStock 1 1 30 30.000001), d2)
  /\ fst r4 = inr tt
  /\ on_hand (snd r4) 1 1 None = 0
  /\ on_hand (snd r4) 2 1 None = 30
  /\ on_hand (as_read (snd r4)) 1 1 None = 0
  /\ on_hand (as_read (snd r4)) 2 1 None = 30.
Proof.
  intros H42 H51. cbv zeta.
  set (d2 := mk_db [mk_inventory_row 1 1 1 None 30]
               [mk_stock_movement 1 (now_ts_id "MIN" t1) MT_IN 1 None 1 None 50
                  "GRN" "GRN" 1;
                mk_stock_movement 2 (now_ts_id "MOUT" t2) MT_OUT 1 None 1 None 20
                  "DELIVERY" "DO" 1]).
  assert (E2 : snd (Binary.transaction [OUT 1 1 20 "DO" 1 None t2]
                      (snd (Binary.transaction [IN 1 1 50 "GRN" 1 None t1] empty_db)))
               = d2) by (vm_compute; reflexivity).
  rewrite E2.
  split; [vm_compute; reflexivity|]. split; [reflexivity|].
  assert (E3 : Binary.transaction [OUT 1 1 30.000001 "DO" 2 None t3] d2
               = (inl (InsufficientStock 1 1 30 30.000001), d2)).
  { apply (binary_transaction_single_raise _ _ (touched 1 1 None d2)). cbn [Binary.exec].
    rewrite binary_inventory_out_raises; [reflexivity|]. vm_compute. reflexivity. }
  rewrite E3. cbn [snd]. split; [reflexivity|].
  assert (E4 : exists d4,
             Binary.transaction [TRANSFER 1 2 1 30 "TRANSFER" t4 t5 t6] d2
             = (inr tt, d4)
             /\ on_hand d4 1 1 None = 0 /\ on_hand d4 2 1 None = 30).
  { eexists. split.
    - apply binary_transaction_single_ok. cbn [Binary.exec].
      apply binary_transfer_stock_returns.
      + vm_compute. reflexivity.
      + unfold d2, movement_no_taken. cbn [stock_movements existsb movement_no].
        rewrite (now_ts_id_other_second "MOUT" t2 t4) by congruence. reflexivity.
      + unfold d2, movement_no_taken. cbn [stock_movements existsb movement_no].
        rewrite (now_ts_id_other_second "MIN" t1 t5) by congruence. reflexivity.
      + reflexivity.
    - split; vm_compute; reflexivity. }
  destruct E4 as [d4 [E4 [HA HB]]]. rewrite E4. cbn [fst snd].
  split; [reflexivity|]. split; [exact HA|]. split; [exact HB|].
  rewrite !on_hand_as_read, HA, HB. split; reflexivity.
Qed.

Lemma scenario_runs_as_stated_witness :
  let d1 := snd (Binary.transaction
                   [IN 1 1 50 "GRN" 1 None "20260101000000"] empty_db) in
  let d2 := snd (Binary.transaction
                   [OUT 1 1 20 "DO" 1 None "20260101000001"] d1) in
  let r3 := Binary.transaction
              [OUT 1 1 30.000001 "DO" 2 None "20260101000002"] d2 in
  let r4 := Binary.transaction
              [TRANSFER 1 2 1 30 "TRANSFER" "20260101000003" "20260101000003"
                 "20260101000003"] (snd r3) in
  on_hand d1 1 1 None = 50
  /\ on_hand d2 1 1 None = 30
  /\ r3 = (inl (InsufficientStock 1 1 30 30.000001), d2)
  /\ fst r4 = inr tt
  /\ on_hand (snd r4) 1 1 None = 0
  /\ on_hand (snd r4) 2 1 None = 30
  /\ on_hand (as_read (snd r4)) 1 1 None = 0
  /\ on_hand (as_read (snd r4)) 2 1 None = 30.
Proof.
  apply (scenario_runs_as_stated "20260101000000" "20260101000001"
           "20260101000002" "20260101000003" "20260101000003"
           "20260101000003").
  - discriminate.
  - discriminate.
Defined.

(** ** Single calls on quantities of three decimals *)

Lemma binary_guard (d : db) (w i : Z) (b : option Z) (q : Q) :
  three_decimals q = true ->
  Qabs q <= limit_14_3 ->
  Qabs (on_hand (as_read d) w i b) <= limit_14_3 ->
  Qltb (Binary.out_qty d w i b q) (- Binary.float 0.000001)
  = Qltb (on_hand (as_read d) w i b - q) (- epsilon).
Proof.
  intros Hq Bq Ba. unfold Binary.out_qty. rewrite on_hand_as_read in *.
  apply guard_decides.
  - apply read_is_decimal.
  - now apply three_decimals_decimal.
  - exact Ba.
  - exact Bq.
Qed.

Lemma binary_in_reading (d : db) (w i : Z) (b : option Z) (q : Q) :
  three_decimals q = true ->
  Qabs q <= limit_14_3 ->
  Qabs (on_hand (as_read d) w i b) <= limit_14_3 ->
  read_14_3 (Binary.in_qty d w i b q) == on_hand (as_read d) w i b + q.
Proof.
  intros Hq Bq Ba. unfold Binary.in_qty. rewrite on_hand_as_read in *.
  apply read_add.
  - apply read_is_decimal.
  - now apply three_decimals_decimal.
  - exact Ba.
  - exact Bq.
Qed.

Lemma binary_out_reading (d : db) (w i : Z) (b : option Z) (q : Q) :
  three_decimals q = true ->
  Qabs q <= limit_14_3 ->
  Qabs (on_hand (as_read d) w i b) <= limit_14_3 ->
  read_14_3 (Binary.out_qty d w i b q) == on_hand (as_read d) w i b - q.
Proof.
  intros Hq Bq Ba. unfold Binary.out_qty. rewrite on_hand_as_read in *.
  apply read_sub.
  - apply read_is_decimal.
  - now apply three_decimals_decimal.
  - exact Ba.
  - exact Bq.
Qed.

Lemma binary_float_reading (q : Q) :
  three_decimals q = true -> Qabs q <= limit_14_3 ->
  read_14_3 (Binary.float q) == q.
Proof.
  intros Hq Bq. apply read_float; [now apply three_decimals_decimal | exact Bq].
Qed.

(** The database as read after a leg. *)
Lemma read_row_update_row (id : Z) (v : Q) (r : inventory_row) :
  read_row (update_row id v r) = update_row id (read_14_3 v) (read_row r).
Proof.
  unfold update_row. cbn [read_row set_qty inv_id].
  now destruct (inv_id r =? id)%Z.
Qed.

Lemma find_as_read (w i : Z) (b : option Z) (l : list inventory_row) :
  find (same_key w i b) (map read_row l)
  = option_map read_row (find (same_key w i b) l).
Proof.
  induction l as [|r l IH]; cbn [map find]; [reflexivity|].
  rewrite same_key_read_row. now destruct (same_key w i b r).
Qed.

Lemma as_read_touched (w i : Z) (b : option Z) (d : db) :
  as_read (touched w i b d) = touched w i b (as_read d).
Proof.
  unfold touched, as_read at 2. cbn [inventory]. rewrite find_as_read.
  destruct (find (same_key w i b) (inventory d)); cbn [option_map].
  - reflexivity.
  - unfold as_read, fresh_row. cbn [inventory stock_movements].
    rewrite map_app, !map_map. reflexivity.
Qed.

Lemma looked_up_as_read (w i : Z) (b : option Z) (d : db) :
  looked_up w i b (as_read d) = read_row (looked_up w i b d).
Proof.
  unfold looked_up, as_read at 1. cbn [inventory]. rewrite find_as_read.
  destruct (find (same_key w i b) (inventory d)); cbn [option_map].
  - reflexivity.
  - unfold fresh_row, as_read. cbn [inventory]. rewrite map_map. reflexivity.
Qed.

Lemma as_read_adjusted (w i : Z) (b : option Z) (v : Q) (d : db) :
  as_read (adjusted w i b v d) = adjusted w i b (read_14_3 v) (as_read d).
Proof.
  unfold adjusted. rewrite looked_up_as_read, <- as_read_touched.
  unfold updated, as_read. cbn [inventory stock_movements].
  f_equal. rewrite !map_map. apply map_ext. intro r.
  apply read_row_update_row.
Qed.

Lemma total_stock_as_read_logged (m : stock_movement) (d : db) :
  total_stock (as_read (logged m d)) = total_stock (as_read d).
Proof. reflexivity. Qed.

Lemma total_stock_as_read_adjusted (w i : Z) (b : option Z) (v : Q) (d : db) :
  primary_key d ->
  total_stock (as_read (adjusted w i b v d))
  == total_stock (as_read d) - on_hand (as_read d) w i b + read_14_3 v.
Proof.
  intro Hpk. rewrite as_read_adjusted.
  apply total_stock_adjusted. now apply primary_key_as_read.
Qed.

Lemma readings_within_rows (M : Q) (d : db) :
  0 <= M ->
  Forall (fun r => Qabs (read_14_3 (inv_qty r)) <= M) (inventory d) ->
  readings_within M d.
Proof.
  intros HM H w i b. rewrite on_hand_as_read. unfold on_hand.
  destruct (find (same_key w i b) (inventory d)) as [r|] eqn:E.
  - apply find_some in E. destruct E as [Hin _].
    exact (proj1 (Forall_forall _ _) H r Hin).
  - exact HM.
Qed.
